(** * ZPA bulk application-segment provisioning: a shallow embedding

    The development covers the two provisioning scripts of the repository,
    [zpa/segment_maker.py] and [zpa/import_segments.py]: the CSV row
    parsers, the two existence checks and the creation loops.

    Python values are embedded as follows.
    - [str] is [string]; a character stands for a code point below 256.
    - A CSV row ([Dict] of column name to cell) is a [gmap string (option string)]:
      a cell is text, or [None] where the line is shorter than the header;
      a column that is absent from the header is absent from the map.
    - The name-to-id dictionaries built from the tenant listings keep their
      insertion order (the code reads "the first key"), so they are
      association lists.
    - The set of existing segment names is a [gset string].
    - The SDK client is an interface ([ZPAClient]) over an abstract tenant
      state; every call returns its result together with the next state.
    - [print] and the SDK calls are recorded, in program order, as the
      events emitted by a computation. *)

From Stdlib Require Import Ascii String List Bool Arith Lia.
From stdpp Require Import base decidable option list gmap strings.
Import ListNotations.

Local Open Scope string_scope.
Local Open Scope list_scope.

(** ** Python string primitives *)

Module PyStr.

(** [str.isspace] on one character (code points below 256). *)
Definition is_space (c : ascii) : bool :=
  let n := nat_of_ascii c in
  (Nat.leb 9 n && Nat.leb n 13) || (Nat.leb 28 n && Nat.leb n 32)
  || Nat.eqb n 133 || Nat.eqb n 160.

Fixpoint lstrip (s : string) : string :=
  match s with
  | EmptyString => EmptyString
  | String c rest => if is_space c then lstrip rest else s
  end.

Fixpoint rstrip (s : string) : string :=
  match s with
  | EmptyString => EmptyString
  | String c rest =>
      match rstrip rest with
      | EmptyString => if is_space c then EmptyString else String c EmptyString
      | r => String c r
      end
  end.

(** [s.strip()] *)
Definition strip (s : string) : string := rstrip (lstrip s).

(** [s.split(sep)] for a one-character separator: empty tokens are kept,
    and the empty string splits into one empty token. *)
Fixpoint split (sep : ascii) (s : string) : list string :=
  match s with
  | EmptyString => [EmptyString]
  | String c rest =>
      if Ascii.eqb c sep then EmptyString :: split sep rest
      else match split sep rest with
           | tok :: toks => String c tok :: toks
           | [] => [String c EmptyString]
           end
  end.

Definition lower_char (c : ascii) : ascii :=
  let n := nat_of_ascii c in
  if (Nat.leb 65 n && Nat.leb n 90)
     || (Nat.leb 192 n && Nat.leb n 214)
     || (Nat.leb 216 n && Nat.leb n 222)
  then ascii_of_nat (n + 32) else c.

(** [s.lower()] *)
Fixpoint lower (s : string) : string :=
  match s with
  | EmptyString => EmptyString
  | String c rest => String (lower_char c) (lower rest)
  end.

(** Truth value of a [str]: non-empty. *)
Definition truthy (s : string) : bool :=
  match s with EmptyString => false | String _ _ => true end.

(** [x or d] where [x] is [None] or a [str]. *)
Definition or_else (x : option string) (d : string) : string :=
  match x with
  | Some s => if truthy s then s else d
  | None => d
  end.

(** [x in xs] for strings. *)
Definition str_in (x : string) (xs : list string) : bool :=
  existsb (String.eqb x) xs.

End PyStr.

Definition comma : ascii := ","%char.

(** [str(value)] for a value that is [None] or a [str]. *)
Definition py_str (value : option string) : string :=
  match value with
  | Some s => s
  | None => "None"
  end.

(** Both scripts define the same [str2bool]. *)
Definition str2bool (value : option string) : bool :=
  PyStr.str_in (PyStr.lower (py_str value)) ["1"; "true"; "yes"; "y"].

(** ** Data shared by the two scripts *)

(** One [{"from": p, "to": p}] dictionary. *)
Record PortRange := mkPortRange { from : string; to : string }.

#[global] Instance PortRange_eq_dec : EqDecision PortRange.
Proof. solve_decision. Defined.


(** An error object returned by the SDK, by its text. *)
Definition Err := string.

(** An item of a group listing ([group.name], [group.id]). *)
Module Group.
Record t := mk { name : string; id : string }.
End Group.

(** An item of the segment listing. *)
Module Segment.
Record t := mk {
  id : string;
  name : string;
  domain_names : list string;
  tcp_port_range : list PortRange
}.
End Segment.

(** Keyword arguments of [application_segment.add_segment].
    [segment_group_id] is [None] or a [str]; [app_protection_enabled] is
    passed by [import_segments.py] only. *)
Module Payload.
Record t := mk {
  name : string;
  description : string;
  enabled : bool;
  segment_group_id : option string;
  server_group_ids : list string;
  domain_names : list string;
  tcp_port_range : list PortRange;
  udp_port_range : list PortRange;
  double_encrypt : bool;
  app_protection_enabled : option bool
}.
End Payload.

(** Keyword arguments of [app_segments_ba.add_segment] and
    [app_segments_pra.add_segment]. *)
Module ChildApp.
Record t := mk {
  segment_id : string;
  name : string;
  domain : string;
  application_port : string;
  application_protocol : string;
  enabled : bool
}.
End ChildApp.

(** A CSV row as [csv.DictReader] yields it: a cell is text, or [None]
    when the line has fewer fields than the header.  (The fields of a line
    beyond the header, which the reader keeps under the key [None], are
    left out: both parsers read the row by column name only.) *)
Abbreviation RawRecord := (gmap string (option string)).

(** [row.get(key)]: [None] also when the column is absent. *)
Definition row_get (row : RawRecord) (key : string) : option string :=
  match row !! key with
  | Some cell => cell
  | None => None
  end.

(** [row.get(key, dflt)] *)
Definition row_get_default (row : RawRecord) (key dflt : string) : option string :=
  match row !! key with
  | Some cell => cell
  | None => Some dflt
  end.

(** Whether [row.get(key, "")] is [None]: the column is in the header and
    the line ended before it. *)
Definition cell_is_none (row : RawRecord) (key : string) : bool :=
  match row_get_default row key "" with
  | Some _ => false
  | None => true
  end.

(** The text [row.get(key, "")] holds when it is text. *)
Definition cell_text (row : RawRecord) (key : string) : string :=
  match row_get_default row key "" with
  | Some s => s
  | None => ""
  end.

(** *** Insertion-ordered dictionaries from names to identifiers *)

Module PyDict.
Definition t := list (string * string).

(** [key in d] *)
Definition contains (key : string) (d : t) : bool :=
  existsb (fun kv => String.eqb key (fst kv)) d.

(** [d.get(key)] *)
Fixpoint get (key : string) (d : t) : option string :=
  match d with
  | [] => None
  | (k, v) :: rest => if String.eqb key k then Some v else get key rest
  end.

(** [d[key] = v] *)
Fixpoint set (key v : string) (d : t) : t :=
  match d with
  | [] => [(key, v)]
  | (k, v') :: rest =>
      if String.eqb key k then (k, v) :: rest else (k, v') :: set key v rest
  end.

(** [list(d.keys())[0] if d else dflt] *)
Definition first_key_or (d : t) (dflt : string) : string :=
  match d with
  | [] => dflt
  | (k, _) :: _ => k
  end.

(** [{group.name: group.id for group in groups}] *)
Definition of_groups (groups : list Group.t) : t :=
  fold_left (fun d g => set (Group.name g) (Group.id g) d) groups [].
End PyDict.

(** *** What the scripts print *)

(** The entries collected in the [errors] list of
    [segment_maker.parse_csv_row]. *)
Inductive ValidationError :=
| NameRequired
| SegmentGroupInvalid (suggested : string)
| DomainsRequired
| ServerGroupInvalid (sg_name suggested : string)
| ServerGroupsMissing.

(** One constructor per [print] statement, with the values it formats. *)
Inductive Msg :=
(* shared by the two scripts *)
| MsgFetchServerGroupsFailed (err : Err)
| MsgFetchSegmentGroupsFailed (err : Err)
| MsgFetchedGroups
(* segment_maker.py *)
| MsgRowValidationFailed (name_or_unnamed : string)
| MsgRowError (e : ValidationError)
| MsgCouldNotCheck (err : Err)
| MsgSkipExistingDomain (domain : string) (ports : list PortRange)
| MsgCreateFailed (name : string) (err : Err)
| MsgCreated (name : string)
(* import_segments.py *)
| MsgMissingRequired (row : RawRecord)
| MsgFetchingExisting
| MsgCouldNotFetchExisting (err : Err)
| MsgFoundExisting (n : nat)
| MsgFoundValid (n : nat)
| MsgSkipExisting (name : string)
| MsgMissingServerGroups (name : string) (missing_sgs : list string)
| MsgMissingSegmentGroup (name segment_group_name : string)
| MsgCreatingParent (name : string)
| MsgParentFailed (name : string) (err : Err)
| MsgParentCreated (name id : string)
| MsgConfiguringBA
| MsgAddingBA (ba_name : string)
| MsgBAFailed (ba_name : string) (err : Err)
| MsgConfiguringPRA
| MsgAddingPRA (pra_name : string)
| MsgPRAFailed (pra_name : string) (err : Err)
| MsgComplete (created configured : nat).

(** *** The SDK client and the events of a run *)

(** The calls the scripts make on the client.  Each returns the value and
    the error slot of the SDK's result tuple, and the tenant's next state. *)
Class ZPAClient (St : Type) := {
  list_server_groups_call : St -> (list Group.t + Err) * St;
  list_segment_groups_call : St -> (list Group.t + Err) * St;
  list_segments : St -> (list Segment.t + Err) * St;
  add_segment : Payload.t -> St -> (string + Err) * St;
  ba_add_segment : ChildApp.t -> St -> option Err * St;
  pra_add_segment : ChildApp.t -> St -> option Err * St
}.

Inductive Event :=
| EvListServerGroups (r : list Group.t + Err)
| EvListSegmentGroups (r : list Group.t + Err)
| EvListSegments (r : list Segment.t + Err)
| EvAddSegment (p : Payload.t) (r : string + Err)
| EvAddBA (c : ChildApp.t) (err : option Err)
| EvAddPRA (c : ChildApp.t) (err : option Err)
| EvPrint (m : Msg).

(** Exceptions the modelled code can raise. *)
Inductive PyExn :=
| IndexError
| KeyError (key : string)
| SystemExit (msg : string)
| AttributeError.

(** Sequencing of steps that may raise. *)
Definition and_then {A B} (x : PyExn + A) (k : A -> PyExn + B) : PyExn + B :=
  match x with
  | inl e => inl e
  | inr a => k a
  end.

Notation "'let?' x ':=' e 'in' k" := (and_then e (fun x => k))
  (at level 10, x name, e at level 100, k at level 200).

(** [value.strip()] for a value that is [None] or a [str]. *)
Definition strip_of (value : option string) : PyExn + string :=
  match value with
  | Some s => inr (PyStr.strip s)
  | None => inl AttributeError
  end.

(** Both scripts collect the rows of the reader the same way: each record
    is parsed in turn and a result that is not [None] is kept, in input
    order; an exception raised for a record ends the loop, after what was
    printed up to there. *)
Fixpoint collect_rows {R} (parse : RawRecord -> list Msg * (PyExn + option R))
    (reader : list RawRecord) : list Msg * (PyExn + list R) :=
  match reader with
  | [] => ([], inr [])
  | row :: rest =>
      match parse row with
      | (msgs, inl e) => (msgs, inl e)
      | (msgs, inr parsed) =>
          let '(out, rows) := collect_rows parse rest in
          (msgs ++ out,
           let? rows := rows in
           inr (match parsed with Some r => r :: rows | None => rows end))
      end
  end.

(** What [collect_rows] keeps of a record that did not raise. *)
Definition kept {R} (parsed : PyExn + option R) : option R :=
  match parsed with
  | inr r => r
  | inl _ => None
  end.

(** Whether evaluating a step raised. *)
Definition raises {A} (x : PyExn + A) : bool :=
  match x with
  | inl _ => true
  | inr _ => false
  end.

(** [value.split(",")] for a value that is [None] or a [str]. *)
Definition split_of (value : option string) : PyExn + list string :=
  match value with
  | Some s => inr (PyStr.split comma s)
  | None => inl AttributeError
  end.

(** What a computation leaves behind: its value or the exception that
    ended it, the tenant state and the events it emitted, oldest first. *)
Record Outcome (St A : Type) := mkOutcome {
  result : PyExn + A;
  tenant : St;
  emitted : list Event
}.
Arguments mkOutcome {St A} _ _ _.
Arguments result {St A} _.
Arguments tenant {St A} _.
Arguments emitted {St A} _.

Definition M (St A : Type) : Type := St -> Outcome St A.

Definition ret {St A} (a : A) : M St A :=
  fun st => mkOutcome (inr a) st [].

Definition raise {St A} (e : PyExn) : M St A :=
  fun st => mkOutcome (inl e) st [].

Definition bind {St A B} (m : M St A) (k : A -> M St B) : M St B :=
  fun st =>
    let o := m st in
    match result o with
    | inl e => mkOutcome (inl e) (tenant o) (emitted o)
    | inr a =>
        let o' := k a (tenant o) in
        mkOutcome (result o') (tenant o') (emitted o ++ emitted o')
    end.

Notation "'let*' x ':=' m 'in' k" := (bind m (fun x => k))
  (at level 10, x pattern, m at level 100, k at level 200).
Notation "m ';;' k" := (bind m (fun _ => k))
  (at level 100, k at level 200, right associativity).

Definition print {St} (m : Msg) : M St unit :=
  fun st => mkOutcome (inr tt) st [EvPrint m].

(** The computation ended without an exception. *)
Definition succeeds {St A} (o : Outcome St A) : Prop := exists a, result o = inr a.

(** A client call: perform it on the tenant and record it. *)
Definition call {St R} (f : St -> R * St) (ev : R -> Event) : M St R :=
  fun st => let '(r, st') := f st in mkOutcome (inr r) st' [ev r].

(** [for x in xs: body], with the loop-carried variables as [acc]. *)
Fixpoint for_each {St A S} (xs : list A) (body : A -> S -> M St S) (acc : S)
  : M St S :=
  match xs with
  | [] => ret acc
  | x :: rest => let* acc' := body x acc in for_each rest body acc'
  end.

(** [[f(x) for x in xs]] where [f] may raise. *)
Fixpoint map_m {St A B} (f : A -> M St B) (xs : list A) : M St (list B) :=
  match xs with
  | [] => ret []
  | x :: rest => let* y := f x in let* ys := map_m f rest in ret (y :: ys)
  end.

(** [d[key]] *)
Definition getitem {St} (d : PyDict.t) (key : string) : M St string :=
  match PyDict.get key d with
  | Some v => ret v
  | None => raise (KeyError key)
  end.

Section ReferenceResolver.
Context {St : Type} `{ZPAClient St}.

Definition list_server_groups : M St PyDict.t :=
  let* r := call list_server_groups_call EvListServerGroups in
  match r with
  | inr err => print (MsgFetchServerGroupsFailed err);; ret []
  | inl groups => ret (PyDict.of_groups groups)
  end.

Definition list_segment_groups : M St PyDict.t :=
  let* r := call list_segment_groups_call EvListSegmentGroups in
  match r with
  | inr err => print (MsgFetchSegmentGroupsFailed err);; ret []
  | inl groups => ret (PyDict.of_groups groups)
  end.
End ReferenceResolver.

(** ** zpa/segment_maker.py *)

Module SegmentMaker.

Definition parse_ports (port_string : option string) : list PortRange :=
  let ports := PyStr.split comma (PyStr.strip (PyStr.or_else port_string "")) in
  map (fun p => {| from := PyStr.strip p; to := PyStr.strip p |})
      (List.filter (fun p => PyStr.truthy (PyStr.strip p)) ports).

(** [[x.strip() for x in cell.split(",") if x.strip()]] *)
Definition split_names (cell : string) : list string :=
  map PyStr.strip
      (List.filter (fun x => PyStr.truthy (PyStr.strip x)) (PyStr.split comma cell)).

(** One iteration of the loop over [server_group_names]: it appends to
    [errors] or to [server_group_ids]; [sg_name not in server_groups] is
    the [None] case of the lookup. *)
Definition resolve_step (server_groups : PyDict.t)
    (state : list ValidationError * list string) (sg_name : string)
  : list ValidationError * list string :=
  let '(errors, server_group_ids) := state in
  match PyDict.get sg_name server_groups with
  | None =>
      let suggested := PyDict.first_key_or server_groups "Unknown" in
      (errors ++ [ServerGroupInvalid sg_name suggested], server_group_ids)
  | Some sg_id => (errors, server_group_ids ++ [sg_id])
  end.

Definition resolve_server_groups (server_groups : PyDict.t)
    (server_group_names : list string) (errors : list ValidationError)
  : list ValidationError * list string :=
  fold_left (resolve_step server_groups) server_group_names (errors, []).

(** The same comprehension over a cell that is [None] or a [str]: the
    call of [split] raises on [None]. *)
Definition split_names_of (value : option string) : PyExn + list string :=
  match value with
  | Some cell => inr (split_names cell)
  | None => inl AttributeError
  end.

(** [parse_csv_row] from line 66 on, with the four values of lines 61-64
    at hand.  Returns what is printed and the payload or [None], or the
    exception raised. *)
Definition validate_row (row : RawRecord) (server_groups segment_groups : PyDict.t)
    (name segment_group_name : string) (server_group_names domain_names : list string)
  : list Msg * (PyExn + option Payload.t) :=
  let errors := [] in
  let errors :=
    if negb (PyStr.truthy name) then errors ++ [NameRequired] else errors in
  let errors :=
    if negb (PyStr.truthy segment_group_name)
       || negb (PyDict.contains segment_group_name segment_groups)
    then
      let suggested := PyDict.first_key_or segment_groups "Unknown" in
      errors ++ [SegmentGroupInvalid suggested]
    else errors in
  let errors :=
    match domain_names with
    | [] => errors ++ [DomainsRequired]
    | _ :: _ => errors
    end in
  let '(errors, server_group_ids) :=
    resolve_server_groups server_groups server_group_names errors in
  let errors :=
    match server_group_ids with
    | [] => errors ++ [ServerGroupsMissing]
    | _ :: _ => errors
    end in
  match errors with
  | _ :: _ =>
      (MsgRowValidationFailed (PyStr.or_else (Some name) "Unnamed")
         :: map MsgRowError errors,
       inr None)
  | [] =>
      ([],
       let? description := strip_of (row_get_default row "DESCRIPTION" "") in
       inr (Some {|
         Payload.name := name;
         Payload.description := description;
         Payload.enabled := str2bool (row_get_default row "ENABLED" "true");
         Payload.segment_group_id := PyDict.get segment_group_name segment_groups;
         Payload.server_group_ids := server_group_ids;
         Payload.domain_names := domain_names;
         Payload.tcp_port_range := parse_ports (row_get_default row "TCP_PORTS" "");
         Payload.udp_port_range := parse_ports (row_get_default row "UDP_PORTS" "");
         Payload.double_encrypt := str2bool (row_get_default row "DOUBLE_ENCRYPT" "false");
         Payload.app_protection_enabled := None
       |}))
  end.

(** Returns what is printed and the payload or [None], or the exception
    raised: the method calls of lines 61-64 and 97 raise [AttributeError]
    on a [None] cell. *)
Definition parse_csv_row (row : RawRecord) (server_groups segment_groups : PyDict.t)
  : list Msg * (PyExn + option Payload.t) :=
  match
    (let? name := strip_of (row_get_default row "NAME" "") in
     let? segment_group_name := strip_of (row_get_default row "SEGMENT_GROUP_ID" "") in
     let? server_group_names :=
       split_names_of (row_get_default row "SERVER_GROUP_IDS" "") in
     let? domain_names := split_names_of (row_get_default row "DOMAINS" "") in
     inr (name, segment_group_name, server_group_names, domain_names))
  with
  | inl e => ([], inl e)
  | inr (name, segment_group_name, server_group_names, domain_names) =>
      validate_row row server_groups segment_groups
                   name segment_group_name server_group_names domain_names
  end.

(** The loop of [main] over the reader: the parsed rows that are not
    [None], with what was printed; an exception ends it. *)
Definition parse_rows (reader : list RawRecord) (server_groups segment_groups : PyDict.t)
  : list Msg * (PyExn + list Payload.t) :=
  collect_rows (fun row => parse_csv_row row server_groups segment_groups) reader.

Section WithClient.
Context {St : Type} `{ZPAClient St}.

(** The scan of the listing: [domain in segment.domain_names and
    segment.tcp_port_range == ports] for some segment. *)
Definition matches (domain : string) (ports : list PortRange) (segment : Segment.t)
  : bool :=
  PyStr.str_in domain (Segment.domain_names segment)
  && bool_decide (Segment.tcp_port_range segment = ports).

Definition segment_exists (domain : string) (ports : list PortRange) : M St bool :=
  let* r := call list_segments EvListSegments in
  match r with
  | inr err => print (MsgCouldNotCheck err);; ret false
  | inl segments => ret (existsb (matches domain ports) segments)
  end.

(** One iteration of the loop of [create_app_segments]. *)
Definition create_one (force_creation : bool) (row : Payload.t) (created_count : nat)
  : M St nat :=
  let* domain :=
    match Payload.domain_names row with
    | d :: _ => ret d
    | [] => raise IndexError
    end in
  let ports := Payload.tcp_port_range row in
  let* skip :=
    if negb force_creation then segment_exists domain ports else ret false in
  if skip then
    print (MsgSkipExistingDomain domain ports);; ret created_count
  else
    let* r := call (add_segment row) (EvAddSegment row) in
    match r with
    | inr err => print (MsgCreateFailed (Payload.name row) err);; ret created_count
    | inl _ => print (MsgCreated (Payload.name row));; ret (created_count + 1)
    end.

Definition create_app_segments (rows : list Payload.t) (force_creation : bool)
  : M St nat :=
  for_each rows (create_one force_creation) 0.
End WithClient.

End SegmentMaker.

(** ** zpa/import_segments.py *)

Module ImportSegments.

(** The dictionary [parse_csv_row] returns. *)
Record Row := mkRow {
  name : string;
  description : string;
  enabled : bool;
  segment_group_name : string;
  server_group_names : list string;
  domain_names : list string;
  tcp_ports : list string;
  udp_ports : list string;
  double_encrypt : bool;
  is_browser_access : bool;
  is_pra : bool;
  is_inspection : bool
}.

Definition parse_ports (port_string : option string) : list string :=
  let ports := PyStr.split comma (PyStr.strip (PyStr.or_else port_string "")) in
  map PyStr.strip (List.filter (fun p => PyStr.truthy (PyStr.strip p)) ports).

(** Truth value of [row.get(key)]: present and non-empty. *)
Definition cell_truthy (row : RawRecord) (key : string) : bool :=
  match row_get row key with
  | Some s => PyStr.truthy s
  | None => false
  end.

(** Returns what is printed and the dictionary or [None], or the exception
    raised: the [strip] calls of lines 40 and 42 raise [AttributeError] on a
    [None] cell (the cells of lines 39, 43 and 44 passed the check, so they
    are text). *)
Definition parse_csv_row (row : RawRecord) : list Msg * (PyExn + option Row) :=
  if negb (cell_truthy row "NAME" && cell_truthy row "DOMAINS"
           && cell_truthy row "SERVER_GROUP_IDS")
  then ([MsgMissingRequired row], inr None)
  else
    ([],
     let? name := strip_of (row_get_default row "NAME" "") in
     let? description := strip_of (row_get_default row "DESCRIPTION" "") in
     let enabled := str2bool (row_get_default row "ENABLED" "true") in
     let? segment_group_name := strip_of (row_get_default row "SEGMENT_GROUP_ID" "") in
     let? server_group_names := split_of (row_get_default row "SERVER_GROUP_IDS" "") in
     let? domain_names := split_of (row_get_default row "DOMAINS" "") in
     inr (Some {|
       name := name;
       description := description;
       enabled := enabled;
       segment_group_name := segment_group_name;
       server_group_names := map PyStr.strip server_group_names;
       domain_names := map PyStr.strip domain_names;
       tcp_ports := parse_ports (row_get_default row "TCP_PORTS" "");
       udp_ports := parse_ports (row_get_default row "UDP_PORTS" "");
       double_encrypt := str2bool (row_get_default row "DOUBLE_ENCRYPT" "false");
       is_browser_access := str2bool (row_get_default row "IS_BROWSER_ACCESS" "false");
       is_pra := str2bool (row_get_default row "IS_PRA" "false");
       is_inspection := str2bool (row_get_default row "IS_INSPECTION" "false")
     |})).

(** [[parsed for row in reader if (parsed := parse_csv_row(row))]]: the
    rows that are not [None], with what was printed; an exception ends the
    comprehension. *)
Definition parse_rows (reader : list RawRecord) : list Msg * (PyExn + list Row) :=
  collect_rows parse_csv_row reader.

(** [[{"from": p, "to": p} for p in ports]] *)
Definition port_ranges (ports : list string) : list PortRange :=
  map (fun p => {| from := p; to := p |}) ports.

(** ["HTTPS" if port in ["443", "8443"] else "HTTP"] *)
Definition ba_protocol (port : string) : string :=
  if PyStr.str_in port ["443"; "8443"] then "HTTPS" else "HTTP".

(** ["SSH" if port == "22" else "RDP" if port == "3389" else None] *)
Definition pra_protocol (port : string) : option string :=
  if String.eqb port "22" then Some "SSH"
  else if String.eqb port "3389" then Some "RDP"
  else None.

(** The keyword arguments of a child create call:
    [segment_id=parent_segment.id, name=..., domain=domain,
    application_port=port, application_protocol=protocol, enabled=True]. *)
Definition child_kwargs (parent_id name domain port protocol : string) : ChildApp.t :=
  {| ChildApp.segment_id := parent_id; ChildApp.name := name;
     ChildApp.domain := domain; ChildApp.application_port := port;
     ChildApp.application_protocol := protocol; ChildApp.enabled := true |}.

Section WithClient.
Context {St : Type} `{ZPAClient St}.

(** Body of the inner loop of step 2. *)
Definition add_ba_app (parent_id domain port : string) (configured_apps : nat)
  : M St nat :=
  let protocol := ba_protocol port in
  let ba_name := domain +:+ ":" +:+ port in
  print (MsgAddingBA ba_name);;
  let kwargs := child_kwargs parent_id ba_name domain port protocol in
  let* ba_err := call (ba_add_segment kwargs) (EvAddBA kwargs) in
  match ba_err with
  | Some e => print (MsgBAFailed ba_name e);; ret configured_apps
  | None => ret (configured_apps + 1)
  end.

(** Body of the inner loop of step 3. *)
Definition add_pra_app (parent_id domain port : string) (configured_apps : nat)
  : M St nat :=
  match pra_protocol port with
  | None => ret configured_apps
  | Some protocol =>
      let pra_name := protocol +:+ "-" +:+ domain +:+ ":" +:+ port in
      print (MsgAddingPRA pra_name);;
      let kwargs := child_kwargs parent_id pra_name domain port protocol in
      let* pra_err := call (pra_add_segment kwargs) (EvAddPRA kwargs) in
      match pra_err with
      | Some e => print (MsgPRAFailed pra_name e);; ret configured_apps
      | None => ret (configured_apps + 1)
      end
  end.

(** [for domain in ...: for port in ...: body] *)
Definition for_pairs (domains ports : list string)
    (body : string -> string -> nat -> M St nat) (configured_apps : nat)
  : M St nat :=
  for_each domains
    (fun domain acc => for_each ports (fun port acc' => body domain port acc') acc)
    configured_apps.

(** Step 2: the browser-access child applications. *)
Definition configure_ba (parent_id : string) (row : Row) (configured_apps : nat)
  : M St nat :=
  if is_browser_access row then
    print MsgConfiguringBA;;
    for_pairs (domain_names row) (tcp_ports row) (add_ba_app parent_id)
              configured_apps
  else ret configured_apps.

(** Step 3: the privileged-remote-access child applications. *)
Definition configure_pra (parent_id : string) (row : Row) (configured_apps : nat)
  : M St nat :=
  if is_pra row then
    print MsgConfiguringPRA;;
    for_pairs (domain_names row) (tcp_ports row) (add_pra_app parent_id)
              configured_apps
  else ret configured_apps.

Definition create_payload (row : Row) (segment_group_id : string)
    (server_group_ids : list string) : Payload.t :=
  {| Payload.name := name row;
     Payload.description := description row;
     Payload.enabled := enabled row;
     Payload.segment_group_id := Some segment_group_id;
     Payload.server_group_ids := server_group_ids;
     Payload.domain_names := domain_names row;
     Payload.tcp_port_range := port_ranges (tcp_ports row);
     Payload.udp_port_range := port_ranges (udp_ports row);
     Payload.double_encrypt := double_encrypt row;
     Payload.app_protection_enabled := Some (is_inspection row) |}.

(** One iteration of the loop of [create_and_configure_segments]; the
    loop-carried variables are [(created_count, configured_apps)]. *)
Definition process_row (server_groups_map segment_groups_map : PyDict.t)
    (force : bool) (existing_segment_names : gset string)
    (row : Row) (counts : nat * nat) : M St (nat * nat) :=
  let '(created_count, configured_apps) := counts in
  if negb force && bool_decide (name row ∈ existing_segment_names) then
    print (MsgSkipExisting (name row));; ret counts
  else
    let missing_sgs :=
      List.filter (fun sg => negb (PyDict.contains sg server_groups_map))
                  (server_group_names row) in
    match missing_sgs with
    | _ :: _ => print (MsgMissingServerGroups (name row) missing_sgs);; ret counts
    | [] =>
    if negb (PyDict.contains (segment_group_name row) segment_groups_map) then
      print (MsgMissingSegmentGroup (name row) (segment_group_name row));; ret counts
    else
      print (MsgCreatingParent (name row));;
      let* server_group_ids :=
        map_m (getitem server_groups_map) (server_group_names row) in
      let* segment_group_id := getitem segment_groups_map (segment_group_name row) in
      let payload := create_payload row segment_group_id server_group_ids in
      let* r := call (add_segment payload) (EvAddSegment payload) in
      match r with
      | inr err => print (MsgParentFailed (name row) err);; ret counts
      | inl parent_id =>
          let created_count := created_count + 1 in
          print (MsgParentCreated (name row) parent_id);;
          let* configured_apps := configure_ba parent_id row configured_apps in
          let* configured_apps := configure_pra parent_id row configured_apps in
          ret (created_count, configured_apps)
      end
    end.

(** The five ways one iteration can go, with the outcome of each:
    skipped as existing, skipped for missing server groups, skipped for
    a missing segment group, parent create failed, parent created and
    children configured. *)
Inductive row_run (server_groups_map segment_groups_map : PyDict.t)
    (force : bool) (existing_segment_names : gset string)
    (row : Row) (counts : nat * nat) (st : St)
  : Outcome St (nat * nat) -> Prop :=
| run_skip_existing :
    negb force && bool_decide (name row ∈ existing_segment_names) = true ->
    row_run server_groups_map segment_groups_map force existing_segment_names
      row counts st
      (mkOutcome (inr counts) st [EvPrint (MsgSkipExisting (name row))])
| run_missing_server_groups missing_sgs :
    negb force && bool_decide (name row ∈ existing_segment_names) = false ->
    List.filter (fun sg => negb (PyDict.contains sg server_groups_map))
                (server_group_names row) = missing_sgs ->
    missing_sgs <> [] ->
    row_run server_groups_map segment_groups_map force existing_segment_names
      row counts st
      (mkOutcome (inr counts) st
                 [EvPrint (MsgMissingServerGroups (name row) missing_sgs)])
| run_missing_segment_group :
    negb force && bool_decide (name row ∈ existing_segment_names) = false ->
    List.filter (fun sg => negb (PyDict.contains sg server_groups_map))
                (server_group_names row) = [] ->
    PyDict.contains (segment_group_name row) segment_groups_map = false ->
    row_run server_groups_map segment_groups_map force existing_segment_names
      row counts st
      (mkOutcome (inr counts) st
         [EvPrint (MsgMissingSegmentGroup (name row) (segment_group_name row))])
| run_parent_failed server_group_ids segment_group_id err st' :
    negb force && bool_decide (name row ∈ existing_segment_names) = false ->
    Forall2 (fun n id => PyDict.get n server_groups_map = Some id)
            (server_group_names row) server_group_ids ->
    PyDict.get (segment_group_name row) segment_groups_map = Some segment_group_id ->
    add_segment (create_payload row segment_group_id server_group_ids) st
      = (inr err, st') ->
    row_run server_groups_map segment_groups_map force existing_segment_names
      row counts st
      (mkOutcome (inr counts) st'
         [EvPrint (MsgCreatingParent (name row));
          EvAddSegment (create_payload row segment_group_id server_group_ids)
                       (inr err);
          EvPrint (MsgParentFailed (name row) err)])
| run_parent_created server_group_ids segment_group_id parent_id st' after_ba after_pra :
    negb force && bool_decide (name row ∈ existing_segment_names) = false ->
    Forall2 (fun n id => PyDict.get n server_groups_map = Some id)
            (server_group_names row) server_group_ids ->
    PyDict.get (segment_group_name row) segment_groups_map = Some segment_group_id ->
    add_segment (create_payload row segment_group_id server_group_ids) st
      = (inl parent_id, st') ->
    result (configure_ba parent_id row (snd counts) st') = inr after_ba ->
    result (configure_pra parent_id row after_ba
              (tenant (configure_ba parent_id row (snd counts) st')))
      = inr after_pra ->
    row_run server_groups_map segment_groups_map force existing_segment_names
      row counts st
      (mkOutcome (inr (fst counts + 1, after_pra))
         (tenant (configure_pra parent_id row after_ba
                    (tenant (configure_ba parent_id row (snd counts) st'))))
         ([EvPrint (MsgCreatingParent (name row));
           EvAddSegment (create_payload row segment_group_id server_group_ids)
                        (inl parent_id);
           EvPrint (MsgParentCreated (name row) parent_id)]
          ++ emitted (configure_ba parent_id row (snd counts) st')
          ++ emitted (configure_pra parent_id row after_ba
                        (tenant (configure_ba parent_id row (snd counts) st'))))).

Definition create_and_configure_segments (rows : list Row)
    (server_groups_map segment_groups_map : PyDict.t) (force : bool)
    (existing_segment_names : gset string) : M St (nat * nat) :=
  for_each rows
    (process_row server_groups_map segment_groups_map force existing_segment_names)
    (0, 0).

(** The argument of [sys.exit] at line 170: a line feed, then the text. *)
Definition no_valid_rows : string :=
  String "010"%char "[INFO] No valid rows found in CSV.".

(** The pre-fetch of the existing names in [main]. *)
Definition fetch_existing_segment_names : M St (gset string) :=
  let* r := call list_segments EvListSegments in
  match r with
  | inr err => print (MsgCouldNotFetchExisting err);; ret ∅
  | inl all_existing_segments =>
      let existing_segment_names : gset string :=
        list_to_set (map Segment.name all_existing_segments) in
      print (MsgFoundExisting (size existing_segment_names));;
      ret existing_segment_names
  end.

(** [main] from the point where the client exists; [reader] is the
    content of the CSV file and [force] the command-line flag.  Loading
    the environment, parsing the arguments and opening the file are
    left out. *)
Definition main (reader : list RawRecord) (force : bool) : M St unit :=
  let* server_groups := list_server_groups in
  let* segment_groups := list_segment_groups in
  match server_groups, segment_groups with
  | _ :: _, _ :: _ =>
      print MsgFetchedGroups;;
      print MsgFetchingExisting;;
      let* existing_segment_names := fetch_existing_segment_names in
      let '(out, parsed_rows) := parse_rows reader in
      for_each out (fun m _ => print m) tt;;
      match parsed_rows with
      | inl e => raise e
      | inr parsed_rows =>
          match parsed_rows with
          | [] => raise (SystemExit no_valid_rows)
          | _ :: _ =>
              print (MsgFoundValid (length parsed_rows));;
              let* counts :=
                create_and_configure_segments parsed_rows server_groups segment_groups
                                              force existing_segment_names in
              print (MsgComplete (fst counts) (snd counts))
          end
      end
  | _, _ => raise (SystemExit "[ERROR] No server or segment groups found.")
  end.
End WithClient.

End ImportSegments.

(** ** The port-parsing rule in the words of the specification *)

(** Follows the specification: the port string is split at commas, every
    token is trimmed, the non-empty ones are kept, and each token [t]
    becomes the pair [{from: t, to: t}], in input order. *)
Definition spec_parse_ports (port_string : string) : list PortRange :=
  map (fun t => {| from := t; to := t |})
      (List.filter PyStr.truthy (map PyStr.strip (PyStr.split comma port_string))).

(** A cell with a trailing comma or with two commas in a row. *)
Definition trailing_or_doubled_comma (cell : string) : Prop :=
  (exists a, cell = a +:+ ",") \/ (exists a b, cell = a +:+ ",," +:+ b).

(** ** Observations on the events of a run *)

(** The payloads of the parent create calls, in order. *)
Definition parent_calls (evs : list Event) : list Payload.t :=
  flat_map (fun ev => match ev with EvAddSegment p _ => [p] | _ => [] end) evs.

(** The arguments of the browser-access create calls, in order. *)
Definition ba_calls (evs : list Event) : list ChildApp.t :=
  flat_map (fun ev => match ev with EvAddBA c _ => [c] | _ => [] end) evs.

(** The arguments of the privileged-remote-access create calls, in order. *)
Definition pra_calls (evs : list Event) : list ChildApp.t :=
  flat_map (fun ev => match ev with EvAddPRA c _ => [c] | _ => [] end) evs.

Definition is_create_call (ev : Event) : bool :=
  match ev with
  | EvAddSegment _ _ | EvAddBA _ _ | EvAddPRA _ _ => true
  | _ => false
  end.

Definition is_parent_call (ev : Event) : bool :=
  match ev with
  | EvAddSegment _ _ => true
  | _ => false
  end.

Definition is_child_call (ev : Event) : bool :=
  match ev with
  | EvAddBA _ _ | EvAddPRA _ _ => true
  | _ => false
  end.

(** All create calls, parent and child, in order. *)
Definition create_calls (evs : list Event) : list Event :=
  List.filter is_create_call evs.

(** The number of parent create calls that returned no error. *)
Definition parents_created (evs : list Event) : nat :=
  length (List.filter
            (fun ev => match ev with EvAddSegment _ (inl _) => true | _ => false end)
            evs).

(** The printed messages, in order. *)
Definition printed (evs : list Event) : list Msg :=
  flat_map (fun ev => match ev with EvPrint m => [m] | _ => [] end) evs.

Definition is_unresolved_report (m : Msg) : bool :=
  match m with
  | MsgMissingServerGroups _ _ | MsgMissingSegmentGroup _ _ => true
  | _ => false
  end.

(** ** Two concrete tenants *)

(** A tenant that holds a list of segments: listing returns them, a parent
    create is refused when the name is taken and otherwise stores the
    segment under the id ["id-" + name]; child creates succeed. *)
Module MockTenant.
Definition St := list Segment.t.

Definition taken (n : string) (st : St) : bool :=
  existsb (fun sg => String.eqb n (Segment.name sg)) st.

Definition add (p : Payload.t) (st : St) : (string + Err) * St :=
  if taken (Payload.name p) st then (inr "name already exists", st)
  else
    let id := "id-" +:+ Payload.name p in
    (inl id,
     st ++ [Segment.mk id (Payload.name p) (Payload.domain_names p)
                       (Payload.tcp_port_range p)]).

#[export] Instance client : ZPAClient St := {|
  list_server_groups_call st := (inl [Group.mk "sg1" "101"], st);
  list_segment_groups_call st := (inl [Group.mk "grp1" "201"], st);
  list_segments st := (inl st, st);
  add_segment := add;
  ba_add_segment _ st := (None, st);
  pra_add_segment _ st := (None, st)
|}.
End MockTenant.

(** A tenant whose segment listing fails; creates succeed. *)
Module FailingListing.
Definition St := unit.

#[export] Instance client : ZPAClient St := {|
  list_server_groups_call st := (inl [Group.mk "sg1" "101"], st);
  list_segment_groups_call st := (inl [Group.mk "grp1" "201"], st);
  list_segments st := (inr "503 Service Unavailable", st);
  add_segment p st := (inl ("id-" +:+ Payload.name p), st);
  ba_add_segment _ st := (None, st);
  pra_add_segment _ st := (None, st)
|}.
End FailingListing.

(** A tenant whose server groups can be listed but whose segment-group
    listing fails. *)
Module FailingGroups.
Definition St := unit.

#[export] Instance client : ZPAClient St := {|
  list_server_groups_call st := (inl [Group.mk "sg1" "101"], st);
  list_segment_groups_call st := (inr "403 Forbidden", st);
  list_segments st := (inl [], st);
  add_segment p st := (inl ("id-" +:+ Payload.name p), st);
  ba_add_segment _ st := (None, st);
  pra_add_segment _ st := (None, st)
|}.
End FailingGroups.

(** ** Sample data *)

Module Fixtures.
Definition server_groups : PyDict.t := [("sg1", "101")].
Definition segment_groups : PyDict.t := [("grp1", "201")].

Definition existing_names : gset string := {["seg-A"]}.

(** A parsed row named "seg-A" whose references resolve. *)
Definition seg_a : ImportSegments.Row :=
  ImportSegments.mkRow "seg-A" "" true "grp1" ["sg1"] ["a.example.com"]
                       ["443"; "22"; "8080"] [] false true true false.

(** The same row with a server group the tenant does not have. *)
Definition seg_a_unresolved : ImportSegments.Row :=
  ImportSegments.mkRow "seg-A" "" true "grp1" ["sg9"] ["a.example.com"]
                       ["443"; "22"; "8080"] [] false true true false.

(** A row the tenant refuses, because the name is taken there. *)
Definition seg_b : ImportSegments.Row :=
  ImportSegments.mkRow "seg-B" "" true "grp1" ["sg1"] ["b.example.com"]
                       ["3389"] [] false false true false.

Definition tenant_with_b : MockTenant.St :=
  [Segment.mk "id-0" "seg-B" ["b.example.com"; "c.example.com"]
              [mkPortRange "3389" "3389"]].

(** A record of a line that has a field for every column. *)
Definition raw (cells : list (string * string)) : RawRecord :=
  list_to_map (map (fun cell => (fst cell, Some (snd cell))) cells).

(** A record of a line that ends early: the columns in [missing] hold
    [None]. *)
Definition raw_short (cells : list (string * string)) (missing : list string)
  : RawRecord :=
  list_to_map (map (fun cell => (fst cell, Some (snd cell))) cells
               ++ map (fun key => (key, None)) missing).

Definition web1_raw : RawRecord :=
  raw [("NAME", "web1"); ("DOMAINS", "a.example.com"); ("SERVER_GROUP_IDS", "sg1");
       ("SEGMENT_GROUP_ID", "grp1"); ("TCP_PORTS", "443");
       ("IS_BROWSER_ACCESS", "true")].

(** A row whose NAME cell holds a single space. *)
Definition blank_name_raw : RawRecord :=
  raw [("NAME", " "); ("DOMAINS", "a.example.com"); ("SERVER_GROUP_IDS", "sg1");
       ("SEGMENT_GROUP_ID", "grp1")].

(** A row whose DOMAINS cell ends in a comma. *)
Definition trailing_comma_raw : RawRecord :=
  raw [("NAME", "web2"); ("DOMAINS", "a.example.com,"); ("SERVER_GROUP_IDS", "sg1,");
       ("SEGMENT_GROUP_ID", "grp1"); ("TCP_PORTS", "443,");
       ("IS_BROWSER_ACCESS", "true")].

(** What [import_segments.parse_csv_row] returns for it. *)
Definition trailing_comma_row : ImportSegments.Row :=
  ImportSegments.mkRow "web2" "" true "grp1" ["sg1"; ""] ["a.example.com"; ""]
                       ["443"] [] false true false false.

(** A row whose DOMAINS cell alone ends in a comma. *)
Definition trailing_domain_raw : RawRecord :=
  raw [("NAME", "web2"); ("DOMAINS", "a.example.com,"); ("SERVER_GROUP_IDS", "sg1");
       ("SEGMENT_GROUP_ID", "grp1"); ("TCP_PORTS", "443,22");
       ("IS_BROWSER_ACCESS", "true"); ("IS_PRA", "true")].

(** What [import_segments.parse_csv_row] returns for it. *)
Definition trailing_domain_row : ImportSegments.Row :=
  ImportSegments.mkRow "web2" "" true "grp1" ["sg1"] ["a.example.com"; ""]
                       ["443"; "22"] [] false true true false.

(** The record of the line [web3,a.example.com,sg1] under the header
    [NAME,DOMAINS,SERVER_GROUP_IDS,DESCRIPTION,SEGMENT_GROUP_ID]. *)
Definition short_line_raw : RawRecord :=
  raw_short [("NAME", "web3"); ("DOMAINS", "a.example.com");
             ("SERVER_GROUP_IDS", "sg1")]
            ["DESCRIPTION"; "SEGMENT_GROUP_ID"].

(** A validated row of [segment_maker.py] with two domains; the tenant
    of [tenant_with_b] has a segment with its second domain and its ports. *)
Definition two_domains : Payload.t :=
  Payload.mk "seg-C" "" true (Some "201") ["101"]
             ["x.example.com"; "c.example.com"] [mkPortRange "3389" "3389"] []
             false None.
End Fixtures.

(** ** Further observations *)

(** [sep.join(xs)] *)
Fixpoint str_join (sep : string) (xs : list string) : string :=
  match xs with
  | [] => EmptyString
  | [x] => x
  | x :: rest => x +:+ sep +:+ str_join sep rest
  end.

(** [c in s] for a character. *)
Fixpoint has_char (c : ascii) (s : string) : bool :=
  match s with
  | EmptyString => false
  | String c' rest => Ascii.eqb c c' || has_char c rest
  end.

(** Some character of [s] is whitespace. *)
Fixpoint has_space (s : string) : bool :=
  match s with
  | EmptyString => false
  | String c rest => PyStr.is_space c || has_space rest
  end.

(** The number of child create calls that returned no error. *)
Definition children_configured (evs : list Event) : nat :=
  length (List.filter
            (fun ev => match ev with
                       | EvAddBA _ None | EvAddPRA _ None => true
                       | _ => false
                       end)
            evs).

Definition is_listing_call (ev : Event) : bool :=
  match ev with
  | EvListServerGroups _ | EvListSegmentGroups _ | EvListSegments _ => true
  | _ => false
  end.

(** What the loops over the pairs keep: the counter is a base plus the
    number of successful child calls so far, and no listing is made. *)
Definition counts_children (base : nat) (n : nat) (evs : list Event) : Prop :=
  n = base + children_configured evs /\
  Forall (fun ev => is_listing_call ev = false) evs.

(** The number of [application_segment.list_segments] calls. *)
Definition segment_listings (evs : list Event) : nat :=
  length (List.filter
            (fun ev => match ev with EvListSegments _ => true | _ => false end)
            evs).

(** The loop of [segment_maker.main] that counts the applications
    (domain and port combinations) of the validated rows. *)
Definition application_count (rows : list Payload.t) : nat :=
  fold_left
    (fun application_count row =>
       let num_domains := length (Payload.domain_names row) in
       let num_ports :=
         length (Payload.tcp_port_range row) + length (Payload.udp_port_range row) in
       if Nat.ltb 0 num_domains && Nat.ltb 0 num_ports
       then application_count + num_domains * num_ports
       else application_count)
    rows 0.

(** The mandatory-field test of [import_segments.parse_csv_row]:
    [all([row.get("NAME"), row.get("DOMAINS"), row.get("SERVER_GROUP_IDS")])]. *)
Definition has_required (raw : RawRecord) : bool :=
  ImportSegments.cell_truthy raw "NAME" && ImportSegments.cell_truthy raw "DOMAINS"
  && ImportSegments.cell_truthy raw "SERVER_GROUP_IDS".

(** The dictionary of lines 38-51 of [import_segments.py] for a record
    whose NAME, DESCRIPTION, SEGMENT_GROUP_ID, SERVER_GROUP_IDS and DOMAINS
    cells are text. *)
Definition import_row_of (raw : RawRecord) : ImportSegments.Row :=
  {| ImportSegments.name := PyStr.strip (cell_text raw "NAME");
     ImportSegments.description := PyStr.strip (cell_text raw "DESCRIPTION");
     ImportSegments.enabled := str2bool (row_get_default raw "ENABLED" "true");
     ImportSegments.segment_group_name :=
       PyStr.strip (cell_text raw "SEGMENT_GROUP_ID");
     ImportSegments.server_group_names :=
       map PyStr.strip (PyStr.split comma (cell_text raw "SERVER_GROUP_IDS"));
     ImportSegments.domain_names :=
       map PyStr.strip (PyStr.split comma (cell_text raw "DOMAINS"));
     ImportSegments.tcp_ports :=
       ImportSegments.parse_ports (row_get_default raw "TCP_PORTS" "");
     ImportSegments.udp_ports :=
       ImportSegments.parse_ports (row_get_default raw "UDP_PORTS" "");
     ImportSegments.double_encrypt :=
       str2bool (row_get_default raw "DOUBLE_ENCRYPT" "false");
     ImportSegments.is_browser_access :=
       str2bool (row_get_default raw "IS_BROWSER_ACCESS" "false");
     ImportSegments.is_pra := str2bool (row_get_default raw "IS_PRA" "false");
     ImportSegments.is_inspection :=
       str2bool (row_get_default raw "IS_INSPECTION" "false") |}.

(** ** Properties of the string primitives *)

Example split_ex : PyStr.split comma "80,443,,8443," = ["80"; "443"; ""; "8443"; ""].
Proof. reflexivity. Qed.

Example strip_ex : PyStr.strip "  a b  " = "a b".
Proof. reflexivity. Qed.

Example parse_ports_ex :
  SegmentMaker.parse_ports (Some " 80, 443 ,,8443 ") =
  [mkPortRange "80" "80"; mkPortRange "443" "443"; mkPortRange "8443" "8443"].
Proof. reflexivity. Qed.

Lemma comma_not_space : PyStr.is_space comma = false.
Proof. reflexivity. Qed.

Lemma eqb_comma_not_space c : PyStr.is_space c = true -> Ascii.eqb c comma = false.
Proof.
  intros Hsp. destruct (Ascii.eqb_spec c comma) as [->|]; [|reflexivity].
  rewrite comma_not_space in Hsp. discriminate.
Qed.

Lemma split_not_nil sep s : PyStr.split sep s <> [].
Proof.
  destruct s as [|c r]; simpl; [discriminate|].
  destruct (Ascii.eqb c sep); [discriminate|].
  destruct (PyStr.split sep r); discriminate.
Qed.

(** Splitting after a character that is not the separator extends the
    first token. *)
Lemma split_cons_other sep c r :
  Ascii.eqb c sep = false ->
  exists tok toks,
    PyStr.split sep r = tok :: toks /\
    PyStr.split sep (String c r) = String c tok :: toks.
Proof.
  intros Hc. simpl. rewrite Hc.
  destruct (PyStr.split sep r) as [|tok toks] eqn:E.
  - exfalso. exact (split_not_nil _ _ E).
  - exists tok, toks. split; reflexivity.
Qed.

Lemma rstrip_cons c r :
  PyStr.rstrip (String c r) =
  if PyStr.is_space c && negb (PyStr.truthy (PyStr.rstrip r)) then EmptyString
  else String c (PyStr.rstrip r).
Proof.
  simpl. destruct (PyStr.rstrip r); destruct (PyStr.is_space c); reflexivity.
Qed.

Lemma lstrip_rstrip_comm s :
  PyStr.rstrip (PyStr.lstrip s) = PyStr.lstrip (PyStr.rstrip s).
Proof.
  induction s as [|c r IH]; [reflexivity|].
  rewrite rstrip_cons. cbn [PyStr.lstrip].
  destruct (PyStr.is_space c) eqn:Hc; cbn [andb].
  - destruct (PyStr.rstrip r) as [|c' r'] eqn:Hr; cbn [PyStr.truthy negb].
    + rewrite IH. reflexivity.
    + rewrite IH. cbn [PyStr.lstrip]. rewrite Hc. reflexivity.
  - rewrite rstrip_cons, Hc. cbn [andb PyStr.lstrip]. rewrite Hc. reflexivity.
Qed.

Lemma strip_alt s : PyStr.strip s = PyStr.lstrip (PyStr.rstrip s).
Proof. apply lstrip_rstrip_comm. Qed.

Lemma strip_space_cons c s :
  PyStr.is_space c = true -> PyStr.strip (String c s) = PyStr.strip s.
Proof. intros Hc. unfold PyStr.strip. cbn [PyStr.lstrip]. rewrite Hc. reflexivity. Qed.

(** Leading whitespace of the whole cell ends up in the first token, where
    trimming the token removes it. *)
Lemma strip_tokens_lstrip s :
  map PyStr.strip (PyStr.split comma (PyStr.lstrip s)) =
  map PyStr.strip (PyStr.split comma s).
Proof.
  induction s as [|c r IH]; [reflexivity|].
  cbn [PyStr.lstrip]. destruct (PyStr.is_space c) eqn:Hc; [|reflexivity].
  destruct (split_cons_other comma c r (eqb_comma_not_space c Hc))
    as (tok & toks & Hr & Hcr).
  rewrite IH, Hcr, Hr. cbn [map]. rewrite strip_space_cons by exact Hc. reflexivity.
Qed.

(** Likewise for trailing whitespace and the last token. *)
Lemma rstrip_tokens_rstrip s :
  map PyStr.rstrip (PyStr.split comma (PyStr.rstrip s)) =
  map PyStr.rstrip (PyStr.split comma s).
Proof.
  induction s as [|c r IH]; [reflexivity|].
  rewrite rstrip_cons.
  destruct (Ascii.eqb c comma) eqn:Hsep.
  - apply Ascii.eqb_eq in Hsep. subst c. rewrite comma_not_space. cbn [andb].
    cbn [PyStr.split]. rewrite Ascii.eqb_refl. cbn [map]. rewrite IH. reflexivity.
  - destruct (split_cons_other comma c r Hsep) as (tok & toks & Hr & Hcr).
    rewrite Hcr. cbn [map].
    destruct (PyStr.is_space c && negb (PyStr.truthy (PyStr.rstrip r))) eqn:Hdrop.
    + apply andb_prop in Hdrop as [Hc Hempty].
      destruct (PyStr.rstrip r) eqn:Hrr; [|discriminate].
      cbn in IH. rewrite Hr in IH. cbn [map] in IH.
      injection IH as Htok Htoks.
      rewrite rstrip_cons, <- Htok, Hc, <- Htoks. reflexivity.
    + destruct (split_cons_other comma c (PyStr.rstrip r) Hsep)
        as (tok' & toks' & Hr' & Hcr').
      rewrite Hcr'. rewrite Hr', Hr in IH. cbn [map] in IH |- *.
      injection IH as Htok Htoks.
      rewrite (rstrip_cons c tok'), (rstrip_cons c tok), Htok, Htoks. reflexivity.
Qed.

(** Trimming the cell before splitting does not change the trimmed tokens. *)
Lemma strip_tokens_strip s :
  map PyStr.strip (PyStr.split comma (PyStr.strip s)) =
  map PyStr.strip (PyStr.split comma s).
Proof.
  rewrite <- (strip_tokens_lstrip s). unfold PyStr.strip at 2.
  generalize (PyStr.lstrip s) as u. intros u.
  rewrite !(map_ext PyStr.strip _ strip_alt).
  rewrite <- !(map_map PyStr.rstrip PyStr.lstrip).
  rewrite rstrip_tokens_rstrip. reflexivity.
Qed.

Lemma filter_map_comm {A B} (f : A -> B) (p : B -> bool) (l : list A) :
  map f (List.filter (fun x => p (f x)) l) = List.filter p (map f l).
Proof.
  induction l as [|x l IH]; [reflexivity|].
  cbn. destruct (p (f x)); cbn; rewrite IH; reflexivity.
Qed.

Lemma or_else_empty s : PyStr.or_else (Some s) "" = s.
Proof. destruct s; reflexivity. Qed.

Lemma import_parse_ports_tokens s :
  ImportSegments.parse_ports (Some s) =
  List.filter PyStr.truthy (map PyStr.strip (PyStr.split comma s)).
Proof.
  unfold ImportSegments.parse_ports. rewrite or_else_empty.
  rewrite (filter_map_comm PyStr.strip PyStr.truthy), strip_tokens_strip.
  reflexivity.
Qed.

(** C5: port parsing maps "80,443,8443" to the three single-value ranges
    {80,80}, {443,443}, {8443,8443} in that order and the empty string (or
    [None]) to the empty sequence; in general, in both scripts, each trimmed
    non-empty comma-separated token t becomes one {from: t, to: t} pair, in
    input order ([import_segments.py] builds the pairs when it fills the
    create payload). *)
Theorem parse_ports_single_value_ranges :
  SegmentMaker.parse_ports (Some "80,443,8443") =
    [mkPortRange "80" "80"; mkPortRange "443" "443"; mkPortRange "8443" "8443"]
  /\ ImportSegments.port_ranges (ImportSegments.parse_ports (Some "80,443,8443")) =
    [mkPortRange "80" "80"; mkPortRange "443" "443"; mkPortRange "8443" "8443"]
  /\ SegmentMaker.parse_ports (Some "") = []
  /\ ImportSegments.parse_ports (Some "") = []
  /\ SegmentMaker.parse_ports None = []
  /\ ImportSegments.parse_ports None = []
  /\ (forall s, SegmentMaker.parse_ports (Some s) = spec_parse_ports s)
  /\ (forall s, ImportSegments.port_ranges (ImportSegments.parse_ports (Some s)) =
                spec_parse_ports s).
Proof.
  repeat match goal with |- _ /\ _ => split end; try reflexivity.
  - intros s. unfold SegmentMaker.parse_ports, spec_parse_ports.
    rewrite or_else_empty.
    rewrite <- (map_map PyStr.strip (fun t => {| from := t; to := t |})).
    rewrite (filter_map_comm PyStr.strip PyStr.truthy), strip_tokens_strip.
    reflexivity.
  - intros s. rewrite import_parse_ports_tokens. reflexivity.
Qed.

(** ** Properties of computations and loops *)

Section MonadFacts.
Context {St : Type}.

Lemma outcome_eta {A} (o : Outcome St A) :
  mkOutcome (result o) (tenant o) (emitted o) = o.
Proof. destruct o; reflexivity. Qed.

Lemma bind_inr {A B} (m : M St A) (k : A -> M St B) st a :
  result (m st) = inr a ->
  bind m k st =
  mkOutcome (result (k a (tenant (m st)))) (tenant (k a (tenant (m st))))
            (emitted (m st) ++ emitted (k a (tenant (m st)))).
Proof. intros Hm. unfold bind. rewrite Hm. reflexivity. Qed.

Lemma bind_ret_l {A B} (a : A) (k : A -> M St B) st : bind (ret a) k st = k a st.
Proof. unfold bind, ret. cbn. apply outcome_eta. Qed.

Lemma bind_print {B} (m : Msg) (k : M St B) st :
  bind (print m) (fun _ => k) st =
  mkOutcome (result (k st)) (tenant (k st)) (EvPrint m :: emitted (k st)).
Proof. reflexivity. Qed.


(** A loop whose body keeps an invariant of the loop-carried variables and
    of the events emitted so far, and never raises, runs through the whole
    list and establishes the invariant at the end. *)
Lemma for_each_invariant {A S} (body : A -> S -> M St S)
    (I : S -> list Event -> Prop) xs :
  (forall x acc st evs, In x xs -> I acc evs ->
     exists acc', result (body x acc st) = inr acc' /\
                  I acc' (evs ++ emitted (body x acc st))) ->
  forall acc st evs, I acc evs ->
    exists acc', result (for_each xs body acc st) = inr acc' /\
                 I acc' (evs ++ emitted (for_each xs body acc st)).
Proof.
  induction xs as [|x xs IH]; intros Hbody acc st evs Hinv.
  - exists acc. cbn. rewrite app_nil_r. auto.
  - destruct (Hbody x acc st evs (or_introl eq_refl) Hinv) as (acc1 & Hr & Hinv1).
    destruct (IH (fun y a s e Hy => Hbody y a s e (or_intror Hy))
                 acc1 (tenant (body x acc st)) _ Hinv1) as (acc2 & Hr2 & Hinv2).
    exists acc2. cbn [for_each]. rewrite (bind_inr _ _ _ _ Hr). cbn.
    rewrite app_assoc. auto.
Qed.

Lemma for_each_succeeds {A S} (body : A -> S -> M St S) xs :
  (forall x acc st, In x xs -> succeeds (body x acc st)) ->
  forall acc st, succeeds (for_each xs body acc st).
Proof.
  intros Hbody acc st.
  destruct (for_each_invariant body (fun _ _ => True) xs) with (acc := acc) (st := st)
    (evs := @nil Event) as (acc' & Hr & _); [|exact I|exists acc'; exact Hr].
  intros x a s evs Hx _. destruct (Hbody x a s Hx) as [a' Ha']. eauto.
Qed.

(** When every iteration contributes [g x] to an observation of the
    events that distributes over concatenation, the loop contributes the
    concatenation of the [g x], in list order. *)
Lemma for_each_observe {A S T} (body : A -> S -> M St S)
    (obs : list Event -> list T) (g : A -> list T) xs :
  obs [] = [] ->
  (forall e1 e2, obs (e1 ++ e2) = obs e1 ++ obs e2) ->
  (forall x acc st, In x xs ->
     succeeds (body x acc st) /\ obs (emitted (body x acc st)) = g x) ->
  forall acc st,
    succeeds (for_each xs body acc st) /\
    obs (emitted (for_each xs body acc st)) = flat_map g xs.
Proof.
  intros Hnil Happ. induction xs as [|x xs IH]; intros Hbody acc st.
  - split; [exists acc; reflexivity | exact Hnil].
  - destruct (Hbody x acc st (or_introl eq_refl)) as [[acc1 Hr] Hobs].
    destruct (IH (fun y a s Hy => Hbody y a s (or_intror Hy))
                 acc1 (tenant (body x acc st))) as [Hs Hrest].
    cbn [for_each flat_map]. rewrite (bind_inr _ _ _ _ Hr). cbn.
    split; [exact Hs|]. rewrite Happ, Hobs, Hrest. reflexivity.
Qed.

End MonadFacts.

(** ** Properties of the observations *)

Lemma parent_calls_app e1 e2 : parent_calls (e1 ++ e2) = parent_calls e1 ++ parent_calls e2.
Proof. apply flat_map_app. Qed.

Lemma ba_calls_app e1 e2 : ba_calls (e1 ++ e2) = ba_calls e1 ++ ba_calls e2.
Proof. apply flat_map_app. Qed.

Lemma pra_calls_app e1 e2 : pra_calls (e1 ++ e2) = pra_calls e1 ++ pra_calls e2.
Proof. apply flat_map_app. Qed.

Lemma printed_app e1 e2 : printed (e1 ++ e2) = printed e1 ++ printed e2.
Proof. apply flat_map_app. Qed.

Lemma create_calls_app e1 e2 : create_calls (e1 ++ e2) = create_calls e1 ++ create_calls e2.
Proof. apply List.filter_app. Qed.

Lemma parents_created_app e1 e2 :
  parents_created (e1 ++ e2) = parents_created e1 + parents_created e2.
Proof. unfold parents_created. rewrite List.filter_app, length_app. reflexivity. Qed.

(** Events among which there is no parent create call. *)
Lemma no_parent_call_facts evs :
  Forall (fun ev => is_parent_call ev = false) evs ->
  parent_calls evs = [] /\ parents_created evs = 0 /\
  Forall (fun ev => is_child_call ev = true) (create_calls evs).
Proof.
  induction 1 as [|ev evs Hev _ (IH1 & IH2 & IH3)]; [repeat split; constructor|].
  destruct ev; try discriminate Hev; cbn; repeat split; auto.
Qed.

(** ** Properties of the reference dictionaries *)

Lemma contains_get key d :
  PyDict.contains key d = true -> exists v, PyDict.get key d = Some v.
Proof.
  induction d as [|[k v] d IH]; cbn; [discriminate|].
  destruct (String.eqb key k); cbn; eauto.
Qed.

Lemma get_contains key d v : PyDict.get key d = Some v -> PyDict.contains key d = true.
Proof.
  induction d as [|[k v'] d IH]; cbn; [discriminate|].
  destruct (String.eqb key k); cbn; auto.
Qed.

Lemma getitem_some {St} d key v (st : St) :
  PyDict.get key d = Some v -> getitem d key st = mkOutcome (inr v) st [].
Proof. intros Hv. unfold getitem. rewrite Hv. reflexivity. Qed.

Lemma resolved_ids_unique d names ids :
  Forall2 (fun n id => PyDict.get n d = Some id) names ids ->
  omap (fun n => PyDict.get n d) names = ids
  /\ List.filter (fun n => negb (PyDict.contains n d)) names = [].
Proof.
  induction 1 as [|n id names ids Hn _ [IH1 IH2]]; [split; reflexivity|].
  cbn [omap list_omap List.filter]. rewrite Hn, (get_contains _ _ _ Hn). cbn.
  split; [f_equal; exact IH1 | exact IH2].
Qed.

(** With no name missing, the comprehension that maps names to identifiers
    raises no [KeyError], calls nothing and prints nothing. *)
Lemma map_m_getitem_resolved {St} (d : PyDict.t) names (st : St) :
  List.filter (fun sg => negb (PyDict.contains sg d)) names = [] ->
  exists ids,
    map_m (getitem d) names st = mkOutcome (inr ids) st [] /\
    Forall2 (fun n id => PyDict.get n d = Some id) names ids.
Proof.
  induction names as [|n names IH]; cbn [List.filter]; intros Hf.
  - exists []. split; [reflexivity | constructor].
  - destruct (PyDict.contains n d) eqn:Hc; cbn in Hf; [|discriminate].
    destruct (contains_get _ _ Hc) as [v Hv]. destruct (IH Hf) as (ids & Hm & Hall).
    exists (v :: ids). split; [|constructor; assumption].
    cbn [map_m]. unfold bind. rewrite (getitem_some _ _ _ st Hv).
    cbn [result tenant emitted]. rewrite Hm. reflexivity.
Qed.

(** ** The creation loop of import_segments.py *)

Section ImportLoop.
Context {St : Type} `{ZPAClient St}.
Import ImportSegments.

Lemma bind_call {R B} (f : St -> R * St) (ev : R -> Event) (k : R -> M St B) st :
  bind (call f ev) k st =
  mkOutcome (result (k (f st).1 (f st).2)) (tenant (k (f st).1 (f st).2))
            (ev (f st).1 :: emitted (k (f st).1 (f st).2)).
Proof. unfold bind, call. destruct (f st); reflexivity. Qed.

(** One browser-access iteration: exactly one child create call, with the
    protocol inferred from the port; nothing raised. *)
Lemma add_ba_app_run parent_id domain port n st :
  let o := add_ba_app parent_id domain port n st in
  let kwargs := child_kwargs parent_id (domain +:+ ":" +:+ port) domain port
                             (ba_protocol port) in
  succeeds o /\ ba_calls (emitted o) = [kwargs] /\ pra_calls (emitted o) = [] /\
  Forall (fun ev => is_parent_call ev = false) (emitted o).
Proof.
  cbn zeta. unfold add_ba_app. rewrite bind_print, bind_call.
  cbn [result tenant emitted].
  destruct (ba_add_segment _ st) as [[e|] st']; cbn;
    (split; [eexists; reflexivity|]); repeat split; repeat constructor.
Qed.

(** One privileged-remote-access iteration: one child create call when the
    port maps to a protocol, otherwise nothing at all. *)
Lemma add_pra_app_run parent_id domain port n st :
  let o := add_pra_app parent_id domain port n st in
  succeeds o /\ ba_calls (emitted o) = [] /\
  pra_calls (emitted o) =
    match pra_protocol port with
    | Some protocol =>
        [child_kwargs parent_id (protocol +:+ "-" +:+ domain +:+ ":" +:+ port)
                      domain port protocol]
    | None => []
    end /\
  Forall (fun ev => is_parent_call ev = false) (emitted o).
Proof.
  cbn zeta. unfold add_pra_app. destruct (pra_protocol port) as [protocol|].
  - rewrite bind_print, bind_call. cbn [result tenant emitted].
    destruct (pra_add_segment _ st) as [[e|] st']; cbn;
      (split; [eexists; reflexivity|]); repeat split; repeat constructor.
  - cbn. split; [eexists; reflexivity|]. repeat split; constructor.
Qed.

Lemma add_pra_app_unmapped parent_id domain port n st :
  pra_protocol port = None ->
  add_pra_app parent_id domain port n st = mkOutcome (inr n) st [].
Proof. intros Hp. unfold add_pra_app. rewrite Hp. reflexivity. Qed.

(** The nested loop visits the pairs domain by domain, port by port. *)
Lemma for_pairs_observe {T} (obs : list Event -> list T)
    (body : string -> string -> nat -> M St nat) (g : string -> string -> list T)
    domains ports :
  obs [] = [] ->
  (forall e1 e2, obs (e1 ++ e2) = obs e1 ++ obs e2) ->
  (forall d p n st, succeeds (body d p n st) /\ obs (emitted (body d p n st)) = g d p) ->
  forall n st,
    succeeds (for_pairs domains ports body n st) /\
    obs (emitted (for_pairs domains ports body n st)) =
      flat_map (fun d => flat_map (g d) ports) domains.
Proof.
  intros Hnil Happ Hbody n st. unfold for_pairs.
  apply (for_each_observe _ obs (fun d => flat_map (g d) ports)); [assumption..|].
  intros d acc s _.
  apply (for_each_observe _ obs (g d)); [assumption..|].
  intros p acc' s' _. apply Hbody.
Qed.

Lemma for_pairs_forall (Q : Event -> Prop)
    (body : string -> string -> nat -> M St nat) domains ports :
  (forall d p n st, succeeds (body d p n st) /\ Forall Q (emitted (body d p n st))) ->
  forall n st, Forall Q (emitted (for_pairs domains ports body n st)).
Proof.
  intros Hbody n st. unfold for_pairs.
  destruct (for_each_invariant
              (fun d acc => for_each ports (fun p acc' => body d p acc') acc)
              (fun _ evs => Forall Q evs) domains) with (acc := n) (st := st)
    (evs := @nil Event) as (? & _ & Hall); [|constructor|exact Hall].
  intros d acc s evs _ Hevs.
  destruct (for_each_invariant (fun p acc' => body d p acc')
              (fun _ evs => Forall Q evs) ports) with (acc := acc) (st := s)
    (evs := evs) as (acc1 & Hr & Hall); [|exact Hevs|eauto].
  intros p a s' evs' _ Hevs'. destruct (Hbody d p a s') as [[a' Ha'] HQ].
  exists a'. split; [exact Ha'|]. apply Forall_app; auto.
Qed.

(** The browser-access calls step 2 makes, in order. *)
Lemma configure_ba_run parent_id row n st :
  let o := configure_ba parent_id row n st in
  succeeds o /\
  ba_calls (emitted o) =
    (if is_browser_access row then
       flat_map (fun d =>
         flat_map (fun p => [child_kwargs parent_id (d +:+ ":" +:+ p) d p (ba_protocol p)])
                  (tcp_ports row))
         (domain_names row)
     else []) /\
  pra_calls (emitted o) = [] /\
  Forall (fun ev => is_parent_call ev = false) (emitted o).
Proof.
  cbn zeta. unfold configure_ba. destruct (is_browser_access row).
  - rewrite bind_print. cbn [result tenant emitted].
    pose proof (for_pairs_observe ba_calls (add_ba_app parent_id) _
                  (domain_names row) (tcp_ports row) eq_refl ba_calls_app
                  (fun d p k s => conj (proj1 (add_ba_app_run parent_id d p k s))
                     (proj1 (proj2 (add_ba_app_run parent_id d p k s)))) n st)
      as [Hs Hba].
    pose proof (for_pairs_observe pra_calls (add_ba_app parent_id) (fun _ _ => [])
                  (domain_names row) (tcp_ports row) eq_refl pra_calls_app
                  (fun d p k s => conj (proj1 (add_ba_app_run parent_id d p k s))
                     (proj1 (proj2 (proj2 (add_ba_app_run parent_id d p k s))))) n st)
      as [_ Hpra].
    pose proof (for_pairs_forall (fun ev => is_parent_call ev = false)
                  (add_ba_app parent_id) (domain_names row) (tcp_ports row)
                  (fun d p k s => conj (proj1 (add_ba_app_run parent_id d p k s))
                     (proj2 (proj2 (proj2 (add_ba_app_run parent_id d p k s))))) n st)
      as Hall.
    split; [exact Hs|]. split; [exact Hba|]. split.
    + change (pra_calls (EvPrint ?m :: ?e)) with (pra_calls e).
      rewrite Hpra. clear. induction (domain_names row) as [|d ds IH]; cbn.
      * reflexivity.
      * rewrite IH, app_nil_r. clear. induction (tcp_ports row); auto.
    + constructor; [reflexivity | exact Hall].
  - cbn. split; [eexists; reflexivity|]. repeat split; constructor.
Qed.

(** The privileged-remote-access calls step 3 makes, in order. *)
Lemma configure_pra_run parent_id row n st :
  let o := configure_pra parent_id row n st in
  succeeds o /\
  ba_calls (emitted o) = [] /\
  pra_calls (emitted o) =
    (if is_pra row then
       flat_map (fun d =>
         flat_map (fun p =>
           match pra_protocol p with
           | Some protocol =>
               [child_kwargs parent_id (protocol +:+ "-" +:+ d +:+ ":" +:+ p)
                             d p protocol]
           | None => []
           end) (tcp_ports row))
         (domain_names row)
     else []) /\
  Forall (fun ev => is_parent_call ev = false) (emitted o).
Proof.
  cbn zeta. unfold configure_pra. destruct (is_pra row).
  - rewrite bind_print. cbn [result tenant emitted].
    pose proof (for_pairs_observe pra_calls (add_pra_app parent_id) _
                  (domain_names row) (tcp_ports row) eq_refl pra_calls_app
                  (fun d p k s => conj (proj1 (add_pra_app_run parent_id d p k s))
                     (proj1 (proj2 (proj2 (add_pra_app_run parent_id d p k s))))) n st)
      as [Hs Hpra].
    pose proof (for_pairs_observe ba_calls (add_pra_app parent_id) (fun _ _ => [])
                  (domain_names row) (tcp_ports row) eq_refl ba_calls_app
                  (fun d p k s => conj (proj1 (add_pra_app_run parent_id d p k s))
                     (proj1 (proj2 (add_pra_app_run parent_id d p k s)))) n st)
      as [_ Hba].
    pose proof (for_pairs_forall (fun ev => is_parent_call ev = false)
                  (add_pra_app parent_id) (domain_names row) (tcp_ports row)
                  (fun d p k s => conj (proj1 (add_pra_app_run parent_id d p k s))
                     (proj2 (proj2 (proj2 (add_pra_app_run parent_id d p k s))))) n st)
      as Hall.
    split; [exact Hs|]. split; [|split; [exact Hpra|]].
    + change (ba_calls (EvPrint ?m :: ?e)) with (ba_calls e).
      rewrite Hba. clear. induction (domain_names row) as [|d ds IH]; cbn.
      * reflexivity.
      * rewrite IH, app_nil_r. clear. induction (tcp_ports row); auto.
    + constructor; [reflexivity | exact Hall].
  - cbn. split; [eexists; reflexivity|]. repeat split; constructor.
Qed.

(** Every iteration goes one of the five ways of [row_run]; in
    particular it never raises. *)
Lemma process_row_run sgm segm force existing row counts st :
  row_run sgm segm force existing row counts st
          (process_row sgm segm force existing row counts st).
Proof.
  unfold process_row. destruct counts as [created_count configured_apps].
  destruct (negb force && bool_decide (name row ∈ existing)) eqn:Hskip.
  { rewrite bind_print. apply run_skip_existing. exact Hskip. }
  destruct (List.filter (fun sg => negb (PyDict.contains sg sgm))
                        (server_group_names row)) as [|m ms] eqn:Hmiss.
  2:{ rewrite bind_print. cbn [ret result tenant emitted].
      apply run_missing_server_groups; [assumption..|discriminate]. }
  destruct (PyDict.contains (segment_group_name row) segm) eqn:Hseg; cbn [negb].
  2:{ rewrite bind_print. apply run_missing_segment_group; assumption. }
  destruct (map_m_getitem_resolved sgm _ st Hmiss) as (ids & Hids & Hall).
  destruct (contains_get _ _ Hseg) as [gid Hgid].
  rewrite bind_print. cbn [result tenant emitted].
  rewrite (bind_inr _ _ st ids) by (rewrite Hids; reflexivity).
  rewrite Hids. cbn [result tenant emitted app].
  rewrite (bind_inr _ _ st gid) by (rewrite (getitem_some _ _ _ st Hgid); reflexivity).
  rewrite (getitem_some _ _ _ st Hgid). cbn [result tenant emitted app].
  rewrite bind_call.
  destruct (add_segment (create_payload row gid ids) st) as [[parent_id|err] st'] eqn:Hadd;
    cbn [fst snd].
  - destruct (configure_ba_run parent_id row configured_apps st') as [[k1 Hk1] _].
    destruct (configure_pra_run parent_id row k1
                (tenant (configure_ba parent_id row configured_apps st'))) as [[k2 Hk2] _].
    rewrite bind_print. cbn [result tenant emitted].
    rewrite (bind_inr _ _ st' k1 Hk1). cbn [result tenant emitted].
    rewrite (bind_inr _ _ _ k2 Hk2). cbn [ret result tenant emitted].
    rewrite app_nil_r.
    exact (run_parent_created sgm segm force existing row
             (created_count, configured_apps) st ids gid parent_id st' k1 k2
             Hskip Hall Hgid Hadd Hk1 Hk2).
  - rewrite bind_print. cbn [ret result tenant emitted].
    exact (run_parent_failed sgm segm force existing row
             (created_count, configured_apps) st ids gid err st'
             Hskip Hall Hgid Hadd).
Qed.

Lemma process_row_succeeds sgm segm force existing row counts st :
  succeeds (process_row sgm segm force existing row counts st).
Proof.
  destruct (process_row_run sgm segm force existing row counts st);
    eexists; reflexivity.
Qed.


(** A row whose name is in the set is only reported, when [force] is off. *)
Lemma process_row_skip_existing sgm segm existing row counts st :
  name row ∈ existing ->
  process_row sgm segm false existing row counts st =
  mkOutcome (inr counts) st [EvPrint (MsgSkipExisting (name row))].
Proof.
  intros Hin. unfold process_row. destruct counts as [c k].
  rewrite (bool_decide_eq_true_2 _ Hin). reflexivity.
Qed.

(** With [force] on, the set of existing names is not consulted. *)
Lemma process_row_force_ignores_names sgm segm existing existing' row counts st :
  process_row sgm segm true existing row counts st =
  process_row sgm segm true existing' row counts st.
Proof. reflexivity. Qed.

(** The first counter grows by the number of successful parent creates. *)
Lemma process_row_counts sgm segm force existing row counts st :
  let o := process_row sgm segm force existing row counts st in
  exists created configured,
    result o = inr (created, configured) /\
    created = fst counts + parents_created (emitted o).
Proof.
  cbn zeta.
  destruct (process_row_run sgm segm force existing row counts st)
    as [ | | | | ids gid pid st' k1 k2 ? ? ? ? Hk1 Hk2];
    try (exists (fst counts), (snd counts); destruct counts; cbn; split;
         [reflexivity | lia]).
  exists (fst counts + 1), k2. split; [reflexivity|]. cbn [result emitted].
  rewrite !parents_created_app.
  destruct (configure_ba_run pid row (snd counts) st') as (_ & _ & _ & Hba).
  destruct (configure_pra_run pid row k1
              (tenant (configure_ba pid row (snd counts) st'))) as (_ & _ & _ & Hpra).
  destruct (no_parent_call_facts _ Hba) as (_ & -> & _).
  destruct (no_parent_call_facts _ Hpra) as (_ & -> & _).
  cbn. lia.
Qed.

(** The create calls of one iteration: none; or one failed parent create
    and nothing else; or one successful parent create followed by child
    creates only, all of them under the identifier the parent create
    returned. *)
Lemma process_row_create_calls sgm segm force existing row counts st :
  let evs := emitted (process_row sgm segm force existing row counts st) in
  create_calls evs = []
  \/ (exists p err, create_calls evs = [EvAddSegment p (inr err)])
  \/ (exists p parent_id children,
        create_calls evs = EvAddSegment p (inl parent_id) :: children /\
        Forall (fun ev => is_child_call ev = true) children /\
        Forall (fun c => ChildApp.segment_id c = parent_id)
               (ba_calls evs ++ pra_calls evs)).
Proof.
  cbn zeta.
  destruct (process_row_run sgm segm force existing row counts st)
    as [ | | | ids gid err st' | ids gid pid st' k1 k2 ? ? ? ? Hk1 Hk2];
    cbn [emitted]; auto.
  - right. left. eexists _, err. reflexivity.
  - right. right.
    destruct (configure_ba_run pid row (snd counts) st') as (_ & Hba & Hba' & Hnp1).
    destruct (configure_pra_run pid row k1
                (tenant (configure_ba pid row (snd counts) st')))
      as (_ & Hpra' & Hpra & Hnp2).
    eexists _, pid, _. split; [|split].
    + rewrite create_calls_app. cbn [create_calls List.filter is_create_call app].
      reflexivity.
    + fold (create_calls (emitted (configure_ba pid row (snd counts) st')
              ++ emitted (configure_pra pid row k1
                   (tenant (configure_ba pid row (snd counts) st'))))).
      rewrite create_calls_app. apply Forall_app. split.
      * apply (no_parent_call_facts _ Hnp1).
      * apply (no_parent_call_facts _ Hnp2).
    + rewrite !ba_calls_app, !pra_calls_app, Hba, Hba', Hpra, Hpra'.
      cbn [ba_calls pra_calls flat_map app]. rewrite !app_nil_r.
      apply Forall_app. split.
      * destruct (is_browser_access row); [|constructor].
        apply Forall_flat_map, Forall_forall. intros d _.
        apply Forall_flat_map, Forall_forall. intros p _.
        repeat constructor.
      * destruct (is_pra row); [|constructor].
        apply Forall_flat_map, Forall_forall. intros d _.
        apply Forall_flat_map, Forall_forall. intros p _.
        destruct (pra_protocol p); repeat constructor.
Qed.

(** The whole batch: no exception, and the first counter is the number of
    successful parent creates. *)
Lemma batch_counts rows sgm segm force existing st :
  let o := create_and_configure_segments rows sgm segm force existing st in
  exists created configured,
    result o = inr (created, configured) /\ created = parents_created (emitted o).
Proof.
  cbn zeta. unfold create_and_configure_segments.
  destruct (for_each_invariant (process_row sgm segm force existing)
              (fun acc evs => fst acc = parents_created evs) rows)
    with (acc := (0, 0)) (st := st) (evs := @nil Event)
    as ([c k] & Hr & Hinv); [|reflexivity|].
  - intros row acc s evs _ Hacc.
    destruct (process_row_counts sgm segm force existing row acc s)
      as (c & k & Hr & Hc).
    exists (c, k). split; [exact Hr|]. rewrite parents_created_app. cbn [fst].
    rewrite Hc, Hacc. reflexivity.
  - exists c, k. split; [exact Hr | exact Hinv].
Qed.
End ImportLoop.

(** ** The row validator of segment_maker.py *)

Lemma resolve_steps_grow server_groups names errors ids :
  exists extra,
    fst (fold_left (SegmentMaker.resolve_step server_groups) names (errors, ids))
    = errors ++ extra.
Proof.
  revert errors ids.
  induction names as [|n names IH]; intros errors ids; cbn [fold_left].
  - exists []. cbn. rewrite app_nil_r. reflexivity.
  - unfold SegmentMaker.resolve_step at 2.
    destruct (PyDict.get n server_groups) as [sg_id|].
    + apply IH.
    + destruct (IH (errors ++ [ServerGroupInvalid n
                      (PyDict.first_key_or server_groups "Unknown")]) ids)
        as [extra Hextra].
      rewrite Hextra, <- app_assoc. eauto.
Qed.

Lemma resolve_server_groups_grows server_groups names errors :
  exists extra,
    fst (SegmentMaker.resolve_server_groups server_groups names errors) = errors ++ extra.
Proof. apply resolve_steps_grow. Qed.

(** *** Cells *)

Lemma cell_text_some row key :
  cell_is_none row key = false ->
  row_get_default row key "" = Some (cell_text row key).
Proof.
  unfold cell_is_none, cell_text.
  destruct (row_get_default row key ""); [reflexivity | discriminate].
Qed.

Lemma cell_none row key :
  cell_is_none row key = true -> row_get_default row key "" = None.
Proof.
  unfold cell_is_none.
  destruct (row_get_default row key ""); [discriminate | reflexivity].
Qed.

(** The four cells [parse_csv_row] reads first: a [None] among them raises
    before anything is printed, otherwise the validation runs on their
    texts. *)
Lemma segment_maker_parse_cases row server_groups segment_groups :
  (cell_is_none row "NAME" || cell_is_none row "SEGMENT_GROUP_ID"
   || cell_is_none row "SERVER_GROUP_IDS" || cell_is_none row "DOMAINS" = true
   /\ SegmentMaker.parse_csv_row row server_groups segment_groups
      = ([], inl AttributeError))
  \/ (cell_is_none row "NAME" = false
      /\ cell_is_none row "SEGMENT_GROUP_ID" = false
      /\ cell_is_none row "SERVER_GROUP_IDS" = false
      /\ cell_is_none row "DOMAINS" = false
      /\ SegmentMaker.parse_csv_row row server_groups segment_groups
         = SegmentMaker.validate_row row server_groups segment_groups
             (PyStr.strip (cell_text row "NAME"))
             (PyStr.strip (cell_text row "SEGMENT_GROUP_ID"))
             (SegmentMaker.split_names (cell_text row "SERVER_GROUP_IDS"))
             (SegmentMaker.split_names (cell_text row "DOMAINS"))).
Proof.
  unfold SegmentMaker.parse_csv_row, cell_is_none, cell_text.
  destruct (row_get_default row "NAME" "") as [name|];
    [|left; split; reflexivity].
  destruct (row_get_default row "SEGMENT_GROUP_ID" "") as [segment_group|];
    [|left; split; reflexivity].
  destruct (row_get_default row "SERVER_GROUP_IDS" "") as [server_group_names|];
    [|left; split; reflexivity].
  destruct (row_get_default row "DOMAINS" "") as [domains|];
    [|left; split; reflexivity].
  right. repeat split.
Qed.

(** What the values of a row that passes validation looked like. *)
Lemma validate_row_some row server_groups segment_groups
    name segment_group_name server_group_names domain_names p :
  snd (SegmentMaker.validate_row row server_groups segment_groups
         name segment_group_name server_group_names domain_names) = inr (Some p) ->
  name <> ""
  /\ domain_names <> []
  /\ server_group_names <> []
  /\ Payload.name p = name
  /\ Payload.domain_names p = domain_names
  /\ Payload.server_group_ids p <> []
  /\ cell_is_none row "DESCRIPTION" = false.
Proof.
  unfold SegmentMaker.validate_row.
  set (e3 := match domain_names with [] => _ | _ :: _ => _ end).
  destruct (resolve_server_groups_grows server_groups server_group_names e3)
    as [extra Hgrow].
  destruct (SegmentMaker.resolve_server_groups server_groups server_group_names e3)
    as [errors ids] eqn:Hres.
  cbn [fst] in Hgrow.
  destruct ids as [|sg_id ids].
  { destruct errors; cbn; discriminate. }
  destruct errors as [|e errors]; [|cbn; discriminate].
  cbn [snd]. unfold cell_is_none.
  destruct (row_get_default row "DESCRIPTION" "") as [description|];
    [|cbn; discriminate].
  cbn [strip_of and_then]. intros [= <-]. cbn [Payload.name Payload.domain_names
                          Payload.server_group_ids].
  symmetry in Hgrow. apply app_eq_nil in Hgrow as [He3 _].
  assert (Hnames : server_group_names <> []).
  { intros Hn. rewrite Hn in Hres. cbn in Hres. discriminate. }
  assert (Hdom : domain_names <> []).
  { intros Hd. subst e3. rewrite Hd in He3. apply app_eq_nil in He3 as [_ ?].
    discriminate. }
  assert (Hname : name <> "").
  { intros Hn. subst e3. destruct domain_names; [congruence|].
    rewrite Hn in He3. cbn in He3.
    destruct (_ || _) in He3; discriminate. }
  repeat split; assumption || discriminate.
Qed.

(** What a row that passes validation looked like. *)
Lemma segment_maker_parse_some row server_groups segment_groups p :
  snd (SegmentMaker.parse_csv_row row server_groups segment_groups) = inr (Some p) ->
  PyStr.strip (cell_text row "NAME") <> ""
  /\ SegmentMaker.split_names (cell_text row "DOMAINS") <> []
  /\ SegmentMaker.split_names (cell_text row "SERVER_GROUP_IDS") <> []
  /\ Payload.name p = PyStr.strip (cell_text row "NAME")
  /\ Payload.domain_names p = SegmentMaker.split_names (cell_text row "DOMAINS")
  /\ Payload.server_group_ids p <> [].
Proof.
  destruct (segment_maker_parse_cases row server_groups segment_groups)
    as [[_ ->]|(_ & _ & _ & _ & ->)]; [discriminate|].
  intros Hp. apply validate_row_some in Hp.
  destruct Hp as (? & ? & ? & ? & ? & ? & _). repeat split; assumption.
Qed.

Lemma split_names_tokens cell :
  SegmentMaker.split_names cell =
  List.filter PyStr.truthy (map PyStr.strip (PyStr.split comma cell)).
Proof. unfold SegmentMaker.split_names. apply filter_map_comm. Qed.

(** A cell that is empty after trimming holds no name. *)
Lemma split_names_blank cell :
  PyStr.strip cell = "" -> SegmentMaker.split_names cell = [].
Proof.
  intros Hblank. rewrite split_names_tokens, <- strip_tokens_strip, Hblank.
  reflexivity.
Qed.

(** [segment_maker.parse_csv_row] returns no payload for a row whose name,
    domain list or server-group list is empty after trimming. *)
Lemma segment_maker_rejects_missing row server_groups segment_groups p :
  PyStr.strip (cell_text row "NAME") = ""
  \/ SegmentMaker.split_names (cell_text row "DOMAINS") = []
  \/ SegmentMaker.split_names (cell_text row "SERVER_GROUP_IDS") = [] ->
  snd (SegmentMaker.parse_csv_row row server_groups segment_groups) <> inr (Some p).
Proof.
  intros Hmissing Hp.
  destruct (segment_maker_parse_some _ _ _ _ Hp) as (Hn & Hd & Hs & _).
  destruct Hmissing as [?|[?|?]]; contradiction.
Qed.

(** *** The loop over the reader *)

(** While no record raises, the loop keeps the results that are not
    [None], in input order, and prints what each record printed. *)
Lemma collect_rows_ok {R} (parse : RawRecord -> list Msg * (PyExn + option R)) reader :
  Forall (fun row => raises (snd (parse row)) = false) reader ->
  collect_rows parse reader
  = (flat_map (fun row => fst (parse row)) reader,
     inr (omap (fun row => kept (snd (parse row))) reader)).
Proof.
  induction 1 as [|row reader Hrow _ IH]; [reflexivity|].
  cbn [collect_rows flat_map omap list_omap].
  destruct (parse row) as [msgs [e|parsed]]; [discriminate|].
  rewrite IH. cbn [fst snd kept and_then]. destruct parsed; reflexivity.
Qed.

(** The first record that raises ends the loop with its exception. *)
Lemma collect_rows_raises {R} (parse : RawRecord -> list Msg * (PyExn + option R))
    pre row post e :
  Forall (fun row => raises (snd (parse row)) = false) pre ->
  snd (parse row) = inl e ->
  collect_rows parse (pre ++ row :: post)
  = (flat_map (fun row => fst (parse row)) pre ++ fst (parse row), inl e).
Proof.
  intros Hpre Hrow. induction Hpre as [|r pre Hr _ IH].
  - cbn [app collect_rows flat_map]. destruct (parse row) as [msgs parsed].
    cbn [snd] in Hrow. subst parsed. reflexivity.
  - cbn [app collect_rows flat_map].
    destruct (parse r) as [msgs [e'|parsed]]; [discriminate|].
    rewrite IH. cbn [fst and_then]. rewrite app_assoc. reflexivity.
Qed.

(** The loop returns rows only if no record raised. *)
Lemma collect_rows_inr {R} (parse : RawRecord -> list Msg * (PyExn + option R))
    reader rows :
  snd (collect_rows parse reader) = inr rows ->
  Forall (fun row => raises (snd (parse row)) = false) reader.
Proof.
  revert rows. induction reader as [|row reader IH]; intros rows Hrows.
  - constructor.
  - cbn [collect_rows] in Hrows.
    destruct (parse row) as [msgs [e|parsed]] eqn:Hparse; [discriminate|].
    destruct (collect_rows parse reader) as [out [e|rest]] eqn:Hrest;
      [discriminate|].
    constructor; [rewrite Hparse; reflexivity|].
    apply (IH rest). reflexivity.
Qed.

Lemma collect_rows_rows {R} (parse : RawRecord -> list Msg * (PyExn + option R))
    reader rows :
  snd (collect_rows parse reader) = inr rows ->
  rows = omap (fun row => kept (snd (parse row))) reader.
Proof.
  intros Hrows. pose proof (collect_rows_inr _ _ _ Hrows) as Hok.
  rewrite (collect_rows_ok _ _ Hok) in Hrows. cbn [snd] in Hrows. congruence.
Qed.



(** ** The existence check and the creation loop of segment_maker.py *)

Section SegmentMakerLoop.
Context {St : Type} `{ZPAClient St}.
Import SegmentMaker.

Lemma segment_exists_listing_error domain ports st err st' :
  list_segments st = (inr err, st') ->
  segment_exists domain ports st =
  mkOutcome (inr false) st' [EvListSegments (inr err); EvPrint (MsgCouldNotCheck err)].
Proof.
  intros Hlist. unfold segment_exists. rewrite bind_call, Hlist. reflexivity.
Qed.

Lemma segment_exists_listing segments domain ports st st' :
  list_segments st = (inl segments, st') ->
  segment_exists domain ports st =
  mkOutcome (inr (existsb (matches domain ports) segments)) st'
            [EvListSegments (inl segments)].
Proof.
  intros Hlist. unfold segment_exists. rewrite bind_call, Hlist. reflexivity.
Qed.

Lemma segment_exists_succeeds domain ports st :
  exists b, result (segment_exists domain ports st) = inr b /\
            Forall (fun ev => is_parent_call ev = false)
                   (emitted (segment_exists domain ports st)).
Proof.
  destruct (list_segments st) as [[segments|err] st'] eqn:Hlist.
  - rewrite (segment_exists_listing _ _ _ _ _ Hlist). eexists. split; [reflexivity|].
    repeat constructor.
  - rewrite (segment_exists_listing_error _ _ _ _ _ Hlist). eexists.
    split; [reflexivity|]. repeat constructor.
Qed.

(** The iteration once the existence check has answered [skip]: the
    check's events, then either the skip message or the create call and
    its report. *)
Lemma create_one_after_check force_creation row n st domain rest check :
  Payload.domain_names row = domain :: rest ->
  check = (if negb force_creation
           then segment_exists domain (Payload.tcp_port_range row) st
           else ret false st) ->
  create_one force_creation row n st =
  match result check with
  | inl e => mkOutcome (inl e) (tenant check) (emitted check)
  | inr true =>
      mkOutcome (inr n) (tenant check)
        (emitted check
         ++ [EvPrint (MsgSkipExistingDomain domain (Payload.tcp_port_range row))])
  | inr false =>
      match add_segment row (tenant check) with
      | (inl id, st') =>
          mkOutcome (inr (n + 1)) st'
            (emitted check
             ++ [EvAddSegment row (inl id); EvPrint (MsgCreated (Payload.name row))])
      | (inr err, st') =>
          mkOutcome (inr n) st'
            (emitted check
             ++ [EvAddSegment row (inr err);
                 EvPrint (MsgCreateFailed (Payload.name row) err)])
      end
  end.
Proof.
  intros Hdom ->. unfold create_one. rewrite Hdom, bind_ret_l.
  unfold bind at 1.
  destruct force_creation; cbn [negb].
  - cbn [ret result tenant emitted app]. rewrite bind_call.
    destruct (add_segment row st) as [[id|err] st']; reflexivity.
  - destruct (result (segment_exists domain (Payload.tcp_port_range row) st))
      as [e|[|]]; [reflexivity|reflexivity|].
    rewrite bind_call.
    destruct (add_segment row _) as [[id|err] st']; reflexivity.
Qed.

(** An iteration over a row with at least one domain never raises, emits
    something, and counts the successful parent create. *)
Lemma create_one_counts force_creation row n st :
  Payload.domain_names row <> [] ->
  let o := create_one force_creation row n st in
  exists n', result o = inr n' /\ n' = n + parents_created (emitted o) /\
             emitted o <> [].
Proof.
  intros Hdom. cbn zeta.
  destruct (Payload.domain_names row) as [|domain rest] eqn:Hd; [contradiction|].
  rewrite (create_one_after_check force_creation row n st domain rest _ Hd eq_refl).
  destruct force_creation; cbn [negb].
  - cbn [ret result tenant emitted app].
    destruct (add_segment row st) as [[id|err] st']; eexists;
      (split; [reflexivity|]); cbn; split; [lia|discriminate|lia|discriminate].
  - destruct (segment_exists_succeeds domain (Payload.tcp_port_range row) st)
      as (b & Hb & Hnp).
    destruct (no_parent_call_facts _ Hnp) as (_ & Hzero & _).
    rewrite Hb. destruct b.
    + eexists. split; [reflexivity|]. cbn [emitted].
      rewrite parents_created_app, Hzero. cbn. split; [lia|].
      intros Hnil. apply app_eq_nil in Hnil as [_ ?]. discriminate.
    + destruct (add_segment row _) as [[id|err] st']; eexists;
        (split; [reflexivity|]); cbn [emitted];
        rewrite parents_created_app, Hzero; cbn; (split; [lia|]);
        intros Hnil; apply app_eq_nil in Hnil as [_ ?]; discriminate.
Qed.

End SegmentMakerLoop.

Example web1_parsed :
  snd (ImportSegments.parse_csv_row Fixtures.web1_raw) =
  inr (Some (ImportSegments.mkRow "web1" "" true "grp1" ["sg1"] ["a.example.com"]
                                  ["443"] [] false true false false)).
Proof. vm_compute. reflexivity. Qed.

Example web1_provisioned :
  emitted (ImportSegments.create_and_configure_segments
             (H := MockTenant.client)
             [ImportSegments.mkRow "web1" "" true "grp1" ["sg1"] ["a.example.com"]
                                   ["443"] [] false true false false]
             Fixtures.server_groups Fixtures.segment_groups false ∅ [])
  = [EvPrint (MsgCreatingParent "web1");
     EvAddSegment (Payload.mk "web1" "" true (Some "201") ["101"] ["a.example.com"]
                              [mkPortRange "443" "443"] [] false (Some false))
                  (inl "id-web1");
     EvPrint (MsgParentCreated "web1" "id-web1");
     EvPrint MsgConfiguringBA;
     EvPrint (MsgAddingBA "a.example.com:443");
     EvAddBA (ChildApp.mk "id-web1" "a.example.com:443" "a.example.com" "443" "HTTPS" true)
             None].
Proof. vm_compute. reflexivity. Qed.

(** ** The provisioning claims *)

Section ImportClaims.
Context {St : Type} `{ZPAClient St}.
Import ImportSegments.

(** The two unresolved-reference exits of an iteration, taken before
    anything is sent to the tenant. *)
Lemma missing_filter_nil sgm names :
  Forall (fun sg => PyDict.contains sg sgm = true) names ->
  List.filter (fun sg => negb (PyDict.contains sg sgm)) names = [].
Proof.
  induction 1 as [|sg sgs Hsg _ IH]; [reflexivity|].
  cbn [List.filter]. rewrite Hsg. exact IH.
Qed.

Lemma missing_filter_cons sgm names :
  Exists (fun sg => PyDict.contains sg sgm = false) names ->
  List.filter (fun sg => negb (PyDict.contains sg sgm)) names <> [].
Proof.
  induction 1 as [sg sgs Hsg|sg sgs _ IH]; cbn [List.filter].
  - rewrite Hsg. discriminate.
  - destruct (negb _); [discriminate | exact IH].
Qed.

Lemma process_row_missing_server_groups sgm segm force existing row counts st :
  negb force && bool_decide (name row ∈ existing) = false ->
  Exists (fun sg => PyDict.contains sg sgm = false) (server_group_names row) ->
  process_row sgm segm force existing row counts st =
  mkOutcome (inr counts) st
    [EvPrint (MsgMissingServerGroups (name row)
                (List.filter (fun sg => negb (PyDict.contains sg sgm))
                             (server_group_names row)))].
Proof.
  intros Hskip Hmissing. apply missing_filter_cons in Hmissing.
  unfold process_row. destruct counts as [created_count configured_apps].
  rewrite Hskip.
  destruct (List.filter _ (server_group_names row)); [congruence | reflexivity].
Qed.

Lemma process_row_missing_segment_group sgm segm force existing row counts st :
  negb force && bool_decide (name row ∈ existing) = false ->
  Forall (fun sg => PyDict.contains sg sgm = true) (server_group_names row) ->
  PyDict.contains (segment_group_name row) segm = false ->
  process_row sgm segm force existing row counts st =
  mkOutcome (inr counts) st
    [EvPrint (MsgMissingSegmentGroup (name row) (segment_group_name row))].
Proof.
  intros Hskip Hsgs Hseg.
  unfold process_row. destruct counts as [created_count configured_apps].
  rewrite Hskip, (missing_filter_nil _ _ Hsgs), Hseg. reflexivity.
Qed.

(** C1 (as amended): for every row whose name is a member of the
    pre-fetched existing-segment-name set, provisioning with force=false
    performs zero create calls (neither parent nor child) and the row is
    recorded as skipped; with force=true the membership check is bypassed
    (the iteration runs as it does with an empty set), and the parent
    create call is performed, regardless of membership, whenever the
    row's server-group names and segment-group name resolve in the
    reference maps.  Otherwise the row is reported as unresolved and no
    create call is made: when a server-group name is unknown the
    iteration only prints the report of the unknown server groups, and
    when these are known but the segment group is not, it only prints
    the report of the unknown segment group; in both cases the counts and
    the tenant are left as they were. *)
Theorem force_bypasses_existence_check
    (sgm segm : PyDict.t) (existing : gset string) (row : Row)
    (counts : nat * nat) (st : St) :
  name row ∈ existing ->
  (let o := process_row sgm segm false existing row counts st in
   create_calls (emitted o) = [] /\
   printed (emitted o) = [MsgSkipExisting (name row)] /\
   result o = inr counts /\ tenant o = st)
  /\ process_row sgm segm true existing row counts st =
     process_row sgm segm true ∅ row counts st
  /\ (Forall (fun sg => PyDict.contains sg sgm = true) (server_group_names row) ->
      PyDict.contains (segment_group_name row) segm = true ->
      exists p,
        parent_calls (emitted (process_row sgm segm true existing row counts st)) = [p]
        /\ Payload.name p = name row)
  /\ (Exists (fun sg => PyDict.contains sg sgm = false) (server_group_names row)
      \/ PyDict.contains (segment_group_name row) segm = false ->
      let o := process_row sgm segm true existing row counts st in
      create_calls (emitted o) = [] /\ result o = inr counts /\ tenant o = st)
  /\ (Exists (fun sg => PyDict.contains sg sgm = false) (server_group_names row) ->
      emitted (process_row sgm segm true existing row counts st) =
      [EvPrint (MsgMissingServerGroups (name row)
                  (List.filter (fun sg => negb (PyDict.contains sg sgm))
                               (server_group_names row)))])
  /\ (Forall (fun sg => PyDict.contains sg sgm = true) (server_group_names row) ->
      PyDict.contains (segment_group_name row) segm = false ->
      emitted (process_row sgm segm true existing row counts st) =
      [EvPrint (MsgMissingSegmentGroup (name row) (segment_group_name row))]).
Proof.
  intros Hin. split; [|split; [|split; [|split; [|split]]]].
  - rewrite (process_row_skip_existing _ _ _ _ _ _ Hin). cbn. auto.
  - apply process_row_force_ignores_names.
  - intros Hsgs Hseg.
    destruct (process_row_run sgm segm true existing row counts st)
      as [Hskip | ms _ Hmiss Hne | _ _ Hno
          | ids gid err st' _ _ _ _ | ids gid pid st' k1 k2 _ _ _ _ Hk1 Hk2].
    + discriminate Hskip.
    + exfalso. apply Hne. rewrite <- Hmiss. apply missing_filter_nil, Hsgs.
    + congruence.
    + eexists. split; reflexivity.
    + eexists. cbn [emitted]. rewrite !parent_calls_app.
      destruct (configure_ba_run pid row (snd counts) st') as (_ & _ & _ & Hba).
      destruct (configure_pra_run pid row k1
                  (tenant (configure_ba pid row (snd counts) st')))
        as (_ & _ & _ & Hpra).
      destruct (no_parent_call_facts _ Hba) as (-> & _).
      destruct (no_parent_call_facts _ Hpra) as (-> & _).
      split; reflexivity.
  - intros Hunresolved. cbn zeta.
    destruct (Exists_dec (fun sg => PyDict.contains sg sgm = false)
                (server_group_names row)) as [Hex|Hnex].
    + rewrite process_row_missing_server_groups by (reflexivity || exact Hex).
      repeat split.
    + destruct Hunresolved as [Hex|Hseg]; [contradiction|].
      rewrite process_row_missing_segment_group; [repeat split|reflexivity| |exact Hseg].
      apply Forall_forall. intros sg Hsg.
      destruct (PyDict.contains sg sgm) eqn:Hc; [reflexivity|].
      exfalso. apply Hnex, Exists_exists. exists sg. split; [exact Hsg | exact Hc].
  - intros Hex.
    rewrite process_row_missing_server_groups by (reflexivity || exact Hex).
    reflexivity.
  - intros Hsgs Hseg.
    rewrite process_row_missing_segment_group by (reflexivity || assumption).
    reflexivity.
Qed.

(** C10: in the import path the existing-name membership check runs
    before reference resolution: for every row whose name is in the
    existing-segment-name set (with force unset), the outcome does not
    depend on the reference maps (the server-group and segment-group names
    are never looked up in them), and the only thing the iteration does is
    to print the skip message, so no unresolved-reference report is
    produced for that row. *)
Theorem existing_check_precedes_resolution
    (sgm segm sgm' segm' : PyDict.t) (existing : gset string) (row : Row)
    (counts : nat * nat) (st : St) :
  name row ∈ existing ->
  let o := process_row sgm segm false existing row counts st in
  o = process_row sgm' segm' false existing row counts st
  /\ emitted o = [EvPrint (MsgSkipExisting (name row))]
  /\ Forall (fun m => is_unresolved_report m = false) (printed (emitted o)).
Proof.
  intros Hin. cbn zeta.
  rewrite !(process_row_skip_existing _ _ _ _ _ _ Hin).
  repeat split. repeat constructor.
Qed.

(** C4: for every row, the parent segment create call precedes any
    child-application create call for that row (the create calls of the
    iteration are: none, or the parent call alone, or the parent call
    followed by child calls made under the identifier it returned); if the
    parent create fails, no child create call is attempted for that row;
    and the rows after it are still processed: the batch continues with
    the remaining rows from the state the row left. *)
Theorem parent_create_precedes_children
    (sgm segm : PyDict.t) (force : bool) (existing : gset string) (row : Row)
    (rest : list Row) (counts : nat * nat) (st : St) :
  let o := process_row sgm segm force existing row counts st in
  (create_calls (emitted o) = []
   \/ exists p r children,
        create_calls (emitted o) = EvAddSegment p r :: children /\
        Forall (fun ev => is_child_call ev = true) children /\
        match r with
        | inl parent_id =>
            Forall (fun c => ChildApp.segment_id c = parent_id)
                   (ba_calls (emitted o) ++ pra_calls (emitted o))
        | inr _ => children = []
        end)
  /\ (exists counts',
        result o = inr counts' /\
        let batch :=
          for_each (row :: rest) (process_row sgm segm force existing) counts st in
        let after :=
          for_each rest (process_row sgm segm force existing) counts' (tenant o) in
        result batch = result after /\
        emitted batch = emitted o ++ emitted after /\
        succeeds after).
Proof.
  cbn zeta. split.
  - destruct (process_row_create_calls sgm segm force existing row counts st)
      as [Hnone | [(p & err & Hfail) | (p & pid & children & Hc & Hch & Hid)]].
    + left. exact Hnone.
    + right. exists p, (inr err), []. rewrite Hfail.
      repeat split. constructor.
    + right. exists p, (inl pid), children. rewrite Hc.
      repeat split; assumption.
  - destruct (process_row_succeeds sgm segm force existing row counts st)
      as [counts' Hr].
    exists counts'. split; [exact Hr|]. cbn [for_each].
    rewrite (bind_inr _ _ _ _ Hr). cbn [result emitted].
    repeat split. apply for_each_succeeds. intros. apply process_row_succeeds.
Qed.
End ImportClaims.

(** ** Protocol inference and the expansion into pairs *)

Lemma ba_protocol_cases port :
  ((port = "443" \/ port = "8443") /\ ImportSegments.ba_protocol port = "HTTPS")
  \/ (port <> "443" /\ port <> "8443" /\ ImportSegments.ba_protocol port = "HTTP").
Proof.
  unfold ImportSegments.ba_protocol, PyStr.str_in. cbn [existsb].
  destruct (String.eqb_spec port "443"); [left; auto|].
  destruct (String.eqb_spec port "8443"); [left; auto|].
  right. auto.
Qed.

Lemma pra_protocol_cases port :
  match ImportSegments.pra_protocol port with
  | Some protocol =>
      (port = "22" /\ protocol = "SSH") \/ (port = "3389" /\ protocol = "RDP")
  | None => port <> "22" /\ port <> "3389"
  end.
Proof.
  unfold ImportSegments.pra_protocol.
  destruct (String.eqb_spec port "22"); [left; auto|].
  destruct (String.eqb_spec port "3389"); [right; auto|].
  auto.
Qed.

Lemma expansion_pairs {T} (g : string -> string -> T) (f : T -> string * string)
    domains ports :
  (forall d p, f (g d p) = (d, p)) ->
  map f (flat_map (fun d => flat_map (fun p => [g d p]) ports) domains)
  = list_prod domains ports.
Proof.
  intros Hfg. induction domains as [|d ds IH]; [reflexivity|].
  cbn [flat_map list_prod]. rewrite map_app, IH. f_equal.
  clear IH. induction ports as [|p ps IHp]; [reflexivity|].
  cbn. rewrite Hfg, IHp. reflexivity.
Qed.

Lemma filtered_expansion_pairs {T} (sel : string -> option string)
    (g : string -> string -> string -> T) (f : T -> string * string) domains ports :
  (forall d p x, f (g d p x) = (d, p)) ->
  map f (flat_map (fun d =>
           flat_map (fun p => match sel p with Some x => [g d p x] | None => [] end)
                    ports) domains)
  = List.filter (fun dp => match sel (snd dp) with Some _ => true | None => false end)
                (list_prod domains ports).
Proof.
  intros Hfg. induction domains as [|d ds IH]; [reflexivity|].
  cbn [flat_map list_prod]. rewrite map_app, List.filter_app, IH. f_equal.
  clear IH. induction ports as [|p ps IHp]; [reflexivity|].
  cbn [flat_map map List.filter snd]. destruct (sel p); cbn; rewrite ?Hfg, IHp; reflexivity.
Qed.

Section ImportChildren.
Context {St : Type} `{ZPAClient St}.
Import ImportSegments.

(** The child create calls of an iteration: none unless the parent was
    created, and then the expansions of steps 2 and 3 under the parent's
    identifier. *)
Lemma process_row_child_calls sgm segm force existing row counts st :
  let evs := emitted (process_row sgm segm force existing row counts st) in
  (parents_created evs = 0 /\ ba_calls evs = [] /\ pra_calls evs = [])
  \/ exists p parent_id,
       parents_created evs = 1 /\
       parent_calls evs = [p] /\
       ba_calls evs =
         (if is_browser_access row then
            flat_map (fun d =>
              flat_map (fun port =>
                [child_kwargs parent_id (d +:+ ":" +:+ port) d port (ba_protocol port)])
                (tcp_ports row)) (domain_names row)
          else []) /\
       pra_calls evs =
         (if is_pra row then
            flat_map (fun d =>
              flat_map (fun port =>
                match pra_protocol port with
                | Some protocol =>
                    [child_kwargs parent_id
                                  (protocol +:+ "-" +:+ d +:+ ":" +:+ port)
                                  d port protocol]
                | None => []
                end) (tcp_ports row)) (domain_names row)
          else []).
Proof.
  cbn zeta.
  destruct (process_row_run sgm segm force existing row counts st)
    as [ | | | | ids gid pid st' k1 k2 _ _ _ _ Hk1 Hk2];
    try (left; repeat split; reflexivity).
  right. eexists _, pid. cbn [emitted].
  destruct (configure_ba_run pid row (snd counts) st') as (_ & Hba & Hba' & Hnp1).
  destruct (configure_pra_run pid row k1
              (tenant (configure_ba pid row (snd counts) st')))
    as (_ & Hpra' & Hpra & Hnp2).
  destruct (no_parent_call_facts _ Hnp1) as (Hp1 & Hc1 & _).
  destruct (no_parent_call_facts _ Hnp2) as (Hp2 & Hc2 & _).
  rewrite !parents_created_app, !parent_calls_app, !ba_calls_app, !pra_calls_app.
  rewrite Hp1, Hp2, Hc1, Hc2, Hba, Hba', Hpra, Hpra'. cbn. rewrite !app_nil_r.
  repeat split; reflexivity.
Qed.

(** The (domain, port) pairs of the child create calls, once the parent
    is created. *)
Lemma child_call_pairs sgm segm force existing row counts st :
  let evs := emitted (process_row sgm segm force existing row counts st) in
  parents_created evs = 1 ->
  map (fun c => (ChildApp.domain c, ChildApp.application_port c)) (ba_calls evs)
    = (if is_browser_access row
       then list_prod (domain_names row) (tcp_ports row) else [])
  /\ map (fun c => (ChildApp.domain c, ChildApp.application_port c)) (pra_calls evs)
    = (if is_pra row
       then List.filter
              (fun dp => bool_decide (snd dp = "22" \/ snd dp = "3389"))
              (list_prod (domain_names row) (tcp_ports row))
       else []).
Proof.
  cbn zeta. intros Hcreated.
  destruct (process_row_child_calls sgm segm force existing row counts st)
    as [(Hzero & _) | (p & pid & _ & _ & Hba & Hpra)]; [congruence|].
  rewrite Hba, Hpra. split.
  - destruct (is_browser_access row); [|reflexivity].
    apply (expansion_pairs
             (fun d port => child_kwargs pid (d +:+ ":" +:+ port) d port
                                         (ba_protocol port))).
    reflexivity.
  - destruct (is_pra row); [|reflexivity].
    rewrite (filtered_expansion_pairs pra_protocol
               (fun d port protocol =>
                  child_kwargs pid (protocol +:+ "-" +:+ d +:+ ":" +:+ port)
                               d port protocol)) by reflexivity.
    apply List.filter_ext. intros [d port]. cbn [snd].
    pose proof (pra_protocol_cases port) as Hcases.
    destruct (pra_protocol port).
    + symmetry. apply bool_decide_eq_true_2. destruct Hcases as [[? _]|[? _]]; auto.
    + symmetry. apply bool_decide_eq_false_2. intros [?|?]; destruct Hcases; auto.
Qed.

(** C3: for every (domain, tcp_port) pair expanded for a row (the parent
    was created): when browser access is requested there is one child call
    per pair, in order, and port "443" or "8443" infers HTTPS and any
    other port HTTP; when privileged remote access is requested there is
    one child call per pair whose port is "22" or "3389", with SSH for
    "22" and RDP for "3389"; for any other port the pair produces no child
    application, and its iteration prints nothing and reports no error. *)
Theorem protocol_inference_by_port
    (sgm segm : PyDict.t) (force : bool) (existing : gset string) (row : Row)
    (counts : nat * nat) (st : St) :
  let evs := emitted (process_row sgm segm force existing row counts st) in
  parents_created evs = 1 ->
  (is_browser_access row = true ->
     map (fun c => (ChildApp.domain c, ChildApp.application_port c)) (ba_calls evs)
       = list_prod (domain_names row) (tcp_ports row)
     /\ Forall (fun c =>
          ((ChildApp.application_port c = "443" \/ ChildApp.application_port c = "8443")
           /\ ChildApp.application_protocol c = "HTTPS")
          \/ (ChildApp.application_port c <> "443"
              /\ ChildApp.application_port c <> "8443"
              /\ ChildApp.application_protocol c = "HTTP"))
          (ba_calls evs))
  /\ (is_pra row = true ->
     map (fun c => (ChildApp.domain c, ChildApp.application_port c)) (pra_calls evs)
       = List.filter
           (fun dp => bool_decide (snd dp = "22" \/ snd dp = "3389"))
           (list_prod (domain_names row) (tcp_ports row))
     /\ Forall (fun c =>
          (ChildApp.application_port c = "22"
           /\ ChildApp.application_protocol c = "SSH")
          \/ (ChildApp.application_port c = "3389"
              /\ ChildApp.application_protocol c = "RDP"))
          (pra_calls evs))
  /\ (forall parent_id domain port n s,
        port <> "22" -> port <> "3389" ->
        add_pra_app parent_id domain port n s = mkOutcome (inr n) s []).
Proof.
  cbn zeta. intros Hcreated.
  destruct (process_row_child_calls sgm segm force existing row counts st)
    as [(Hzero & _) | (p & pid & _ & _ & Hba & Hpra)]; [congruence|].
  split; [|split].
  - intros Hflag. split.
    + rewrite (proj1 (child_call_pairs _ _ _ _ _ _ _ Hcreated)), Hflag. reflexivity.
    + rewrite Hba, Hflag. apply Forall_flat_map, Forall_forall. intros d _.
      apply Forall_flat_map, Forall_forall. intros port _.
      constructor; [|constructor]. cbn. apply ba_protocol_cases.
  - intros Hflag. split.
    + rewrite (proj2 (child_call_pairs _ _ _ _ _ _ _ Hcreated)), Hflag. reflexivity.
    + rewrite Hpra, Hflag. apply Forall_flat_map, Forall_forall. intros d _.
      apply Forall_flat_map, Forall_forall. intros port _.
      pose proof (pra_protocol_cases port) as Hcases.
      destruct (pra_protocol port); constructor; [|constructor]. cbn. exact Hcases.
  - intros parent_id domain port n s H22 H3389. apply add_pra_app_unmapped.
    pose proof (pra_protocol_cases port) as Hcases.
    destruct (pra_protocol port); [|reflexivity].
    destruct Hcases as [[? _]|[? _]]; contradiction.
Qed.
End ImportChildren.

(** ** Empty tokens in the import path *)

Lemma split_app_sep sep a b :
  PyStr.split sep (a +:+ String sep b) = PyStr.split sep a ++ PyStr.split sep b.
Proof.
  induction a as [|c a IH].
  - change ("" +:+ String sep b) with (String sep b). cbn [PyStr.split app].
    rewrite Ascii.eqb_refl. reflexivity.
  - change (String c a +:+ String sep b) with (String c (a +:+ String sep b)).
    cbn [PyStr.split].
    destruct (Ascii.eqb c sep); [rewrite IH; reflexivity|].
    rewrite IH. destruct (PyStr.split sep a) as [|tok toks] eqn:Ha; [|reflexivity].
    exfalso. exact (split_not_nil _ _ Ha).
Qed.

Lemma empty_token_of_comma cell :
  trailing_or_doubled_comma cell -> In "" (map PyStr.strip (PyStr.split comma cell)).
Proof.
  intros [[a ->] | (a & b & ->)].
  - change (a +:+ ",") with (a +:+ String comma ""). rewrite split_app_sep, map_app.
    apply in_or_app. right. left. reflexivity.
  - change (a +:+ ",," +:+ b) with (a +:+ String comma (String comma b)).
    rewrite split_app_sep, map_app. apply in_or_app. right.
    cbn [PyStr.split]. rewrite Ascii.eqb_refl. left. reflexivity.
Qed.

(** *** The cells of a record *)

Lemma row_get_text raw key cell :
  row_get raw key = Some cell ->
  (forall dflt, row_get_default raw key dflt = Some cell)
  /\ cell_text raw key = cell /\ cell_is_none raw key = false.
Proof.
  unfold cell_is_none, cell_text, row_get, row_get_default.
  destruct (raw !! key) as [[text|]|]; try discriminate.
  intros [= ->]. repeat split.
Qed.

Lemma cell_truthy_text raw key :
  ImportSegments.cell_truthy raw key = true ->
  row_get raw key = Some (cell_text raw key)
  /\ PyStr.truthy (cell_text raw key) = true.
Proof.
  unfold ImportSegments.cell_truthy, cell_text, row_get, row_get_default.
  destruct (raw !! key) as [[text|]|]; try discriminate. auto.
Qed.

(** The three ways [import_segments.parse_csv_row] can go: the warning
    and [None] when a mandatory cell is empty or missing; otherwise
    [AttributeError], with nothing printed, when the DESCRIPTION or
    SEGMENT_GROUP_ID cell is [None]; otherwise the dictionary. *)
Lemma import_parse_cases raw :
  (has_required raw = false
   /\ ImportSegments.parse_csv_row raw = ([MsgMissingRequired raw], inr None))
  \/ (has_required raw = true
      /\ cell_is_none raw "DESCRIPTION" || cell_is_none raw "SEGMENT_GROUP_ID" = true
      /\ ImportSegments.parse_csv_row raw = ([], inl AttributeError))
  \/ (has_required raw = true
      /\ cell_is_none raw "DESCRIPTION" = false
      /\ cell_is_none raw "SEGMENT_GROUP_ID" = false
      /\ ImportSegments.parse_csv_row raw = ([], inr (Some (import_row_of raw)))).
Proof.
  unfold ImportSegments.parse_csv_row, has_required.
  destruct (ImportSegments.cell_truthy raw "NAME") eqn:Hname;
    [|left; split; reflexivity].
  destruct (ImportSegments.cell_truthy raw "DOMAINS") eqn:Hdomains;
    [|left; split; reflexivity].
  destruct (ImportSegments.cell_truthy raw "SERVER_GROUP_IDS") eqn:Hgroups;
    [|left; split; reflexivity].
  right. cbn [andb negb].
  destruct (cell_truthy_text _ _ Hname) as [Hn _].
  destruct (cell_truthy_text _ _ Hdomains) as [Hd _].
  destruct (cell_truthy_text _ _ Hgroups) as [Hg _].
  apply row_get_text in Hn as [Hn _]. apply row_get_text in Hd as [Hd _].
  apply row_get_text in Hg as [Hg _].
  rewrite Hn, Hd, Hg. unfold import_row_of.
  destruct (cell_is_none raw "DESCRIPTION") eqn:Hdesc.
  { left. rewrite (cell_none _ _ Hdesc). repeat split. }
  rewrite (cell_text_some _ _ Hdesc).
  destruct (cell_is_none raw "SEGMENT_GROUP_ID") eqn:Hseg.
  { left. rewrite (cell_none _ _ Hseg). repeat split. }
  right. rewrite (cell_text_some _ _ Hseg). repeat split.
Qed.

Lemma import_parse_some raw r :
  snd (ImportSegments.parse_csv_row raw) = inr (Some r) ->
  has_required raw = true
  /\ cell_is_none raw "DESCRIPTION" = false
  /\ cell_is_none raw "SEGMENT_GROUP_ID" = false
  /\ r = import_row_of raw.
Proof.
  destruct (import_parse_cases raw)
    as [[_ ->]|[(_ & _ & ->)|(Hreq & Hdesc & Hseg & ->)]]; try discriminate.
  cbn [snd]. intros [= <-]. auto.
Qed.

Lemma import_parse_ports_no_empty s : ~ In "" (ImportSegments.parse_ports s).
Proof.
  destruct s as [s|]; [|intros []].
  rewrite import_parse_ports_tokens. intros Hin.
  apply List.filter_In in Hin as [_ Hin]. discriminate.
Qed.

Section ImportPayload.
Context {St : Type} `{ZPAClient St}.
Import ImportSegments.

(** Every parent create call carries the row's name and domain list and
    the identifiers its server-group names map to, in order. *)
Lemma process_row_parent_payload sgm segm force existing row counts st :
  Forall (fun p =>
            exists ids gid,
              Forall2 (fun n id => PyDict.get n sgm = Some id)
                      (server_group_names row) ids /\
              PyDict.get (segment_group_name row) segm = Some gid /\
              p = create_payload row gid ids)
         (parent_calls (emitted (process_row sgm segm force existing row counts st))).
Proof.
  destruct (process_row_run sgm segm force existing row counts st)
    as [ | | | ids gid err st' _ Hids Hgid _
         | ids gid pid st' k1 k2 _ Hids Hgid _ Hk1 Hk2];
    cbn [emitted].
  - constructor.
  - constructor.
  - constructor.
  - constructor; [eauto | constructor].
  - rewrite !parent_calls_app.
    destruct (configure_ba_run pid row (snd counts) st') as (_ & _ & _ & Hba).
    destruct (configure_pra_run pid row k1
                (tenant (configure_ba pid row (snd counts) st')))
      as (_ & _ & _ & Hpra).
    destruct (no_parent_call_facts _ Hba) as (-> & _).
    destruct (no_parent_call_facts _ Hpra) as (-> & _).
    cbn. constructor; [eauto | constructor].
Qed.

(** A row that is not skipped and whose references resolve: the parent
    create call is sent, with the payload built from the row and the
    identifiers; when the tenant answers with an identifier, the child
    expansions follow under it. *)
Lemma process_row_resolved sgm segm force existing row counts st ids gid :
  negb force && bool_decide (name row ∈ existing) = false ->
  Forall2 (fun n id => PyDict.get n sgm = Some id) (server_group_names row) ids ->
  PyDict.get (segment_group_name row) segm = Some gid ->
  let evs := emitted (process_row sgm segm force existing row counts st) in
  parent_calls evs = [create_payload row gid ids]
  /\ forall parent_id st',
       add_segment (create_payload row gid ids) st = (inl parent_id, st') ->
       parents_created evs = 1
       /\ ba_calls evs =
            (if is_browser_access row then
               flat_map (fun d =>
                 flat_map (fun port =>
                   [child_kwargs parent_id (d +:+ ":" +:+ port) d port
                                 (ba_protocol port)])
                   (tcp_ports row)) (domain_names row)
             else [])
       /\ pra_calls evs =
            (if is_pra row then
               flat_map (fun d =>
                 flat_map (fun port =>
                   match pra_protocol port with
                   | Some protocol =>
                       [child_kwargs parent_id
                                     (protocol +:+ "-" +:+ d +:+ ":" +:+ port)
                                     d port protocol]
                   | None => []
                   end) (tcp_ports row)) (domain_names row)
             else []).
Proof.
  intros Hnoskip Hids Hgid. cbn zeta.
  destruct (resolved_ids_unique _ _ _ Hids) as [Hunique Hnone].
  destruct (process_row_run sgm segm force existing row counts st)
    as [Hskip | ms _ Hms Hne | _ _ Hseg
        | ids' gid' err st'' _ Hids' Hgid' Hadd
        | ids' gid' pid st'' k1 k2 _ Hids' Hgid' Hadd Hk1 Hk2];
    cbn [emitted].
  - congruence.
  - congruence.
  - rewrite (get_contains _ _ _ Hgid) in Hseg. discriminate.
  - destruct (resolved_ids_unique _ _ _ Hids') as [Hunique' _].
    rewrite Hunique in Hunique'. rewrite Hgid in Hgid'. injection Hgid' as <-.
    subst ids'. split; [reflexivity|].
    intros parent_id st' Hcreated. congruence.
  - destruct (resolved_ids_unique _ _ _ Hids') as [Hunique' _].
    rewrite Hunique in Hunique'. rewrite Hgid in Hgid'. injection Hgid' as <-.
    subst ids'.
    destruct (configure_ba_run pid row (snd counts) st'') as (_ & Hba & Hba' & Hnp1).
    destruct (configure_pra_run pid row k1
                (tenant (configure_ba pid row (snd counts) st'')))
      as (_ & Hpra' & Hpra & Hnp2).
    destruct (no_parent_call_facts _ Hnp1) as (Hp1 & Hc1 & _).
    destruct (no_parent_call_facts _ Hnp2) as (Hp2 & Hc2 & _).
    rewrite !parents_created_app, !parent_calls_app, !ba_calls_app, !pra_calls_app.
    rewrite Hp1, Hp2, Hc1, Hc2, Hba, Hba', Hpra, Hpra'. cbn. rewrite !app_nil_r.
    split; [reflexivity|].
    intros parent_id st' Hcreated.
    assert (pid = parent_id) by congruence. subst pid.
    repeat split; reflexivity.
Qed.

(** C9: in the import path, splitting SERVER_GROUP_IDS and DOMAINS at
    commas keeps empty tokens, unlike port parsing, which never returns
    one.  For every row that parses and whose DOMAINS cell has a trailing
    or doubled comma, the parsed domain list holds an empty string, and
    it is passed on: when the row is not skipped as existing and its
    references resolve, the iteration sends exactly one parent create
    call, whose payload carries the domain list with the empty string;
    and when the tenant answers that call with an identifier, the
    iteration sends, under that identifier, a browser-access create call
    for the empty domain with every TCP port of the row (if browser
    access is requested) and a privileged-remote-access create call for
    the empty domain with every port "22" or "3389" of the row (if that
    is requested).  Whatever the iteration does, every parent create
    payload for the row carries that list.  When the SERVER_GROUP_IDS
    cell has such a comma, the parsed names hold an empty string, which
    is looked up in the reference map like any name: absent, the row is
    reported with it among the missing groups and nothing else happens;
    present, every payload carries the identifiers the names map to. *)
Theorem empty_tokens_are_kept
    (raw : RawRecord) (r : Row) (sgm segm : PyDict.t) (force : bool)
    (existing : gset string) (counts : nat * nat) (st : St) :
  snd (parse_csv_row raw) = inr (Some r) ->
  let evs := emitted (process_row sgm segm force existing r counts st) in
  (forall cell,
     row_get raw "DOMAINS" = Some cell -> trailing_or_doubled_comma cell ->
     In "" (domain_names r)
     /\ (negb force && bool_decide (name r ∈ existing) = false ->
         forall ids gid,
           Forall2 (fun n id => PyDict.get n sgm = Some id)
                   (server_group_names r) ids ->
           PyDict.get (segment_group_name r) segm = Some gid ->
           parent_calls evs = [create_payload r gid ids]
           /\ In "" (Payload.domain_names (create_payload r gid ids))
           /\ forall parent_id st',
                add_segment (create_payload r gid ids) st = (inl parent_id, st') ->
                parents_created evs = 1
                /\ (is_browser_access r = true ->
                    forall port, In port (tcp_ports r) ->
                      In (child_kwargs parent_id ("" +:+ ":" +:+ port) "" port
                                       (ba_protocol port))
                         (ba_calls evs))
                /\ (is_pra r = true ->
                    forall port protocol,
                      In port (tcp_ports r) -> pra_protocol port = Some protocol ->
                      In (child_kwargs parent_id
                                       (protocol +:+ "-" +:+ "" +:+ ":" +:+ port)
                                       "" port protocol)
                         (pra_calls evs)))
     /\ Forall (fun p => Payload.domain_names p = domain_names r) (parent_calls evs)
     /\ (parents_created evs = 1 -> is_browser_access r = true ->
         forall port, In port (tcp_ports r) ->
           exists c, In c (ba_calls evs) /\ ChildApp.domain c = ""
                     /\ ChildApp.application_port c = port)
     /\ (parents_created evs = 1 -> is_pra r = true ->
         forall port, In port (tcp_ports r) -> port = "22" \/ port = "3389" ->
           exists c, In c (pra_calls evs) /\ ChildApp.domain c = ""
                     /\ ChildApp.application_port c = port))
  /\ (forall cell,
     row_get raw "SERVER_GROUP_IDS" = Some cell -> trailing_or_doubled_comma cell ->
     In "" (server_group_names r)
     /\ (negb force && bool_decide (name r ∈ existing) = false ->
         PyDict.contains "" sgm = false ->
         exists missing_sgs,
           evs = [EvPrint (MsgMissingServerGroups (name r) missing_sgs)]
           /\ In "" missing_sgs)
     /\ Forall (fun p =>
                  Forall2 (fun n id => PyDict.get n sgm = Some id)
                          (server_group_names r) (Payload.server_group_ids p))
               (parent_calls evs))
  /\ (forall s, ~ In "" (parse_ports s)).
Proof.
  intros Hparse. cbn zeta.
  destruct (import_parse_some _ _ Hparse) as (_ & _ & _ & Hrow).
  assert (Hsgs : server_group_names r =
                 map PyStr.strip (PyStr.split comma (cell_text raw "SERVER_GROUP_IDS")))
    by (rewrite Hrow; reflexivity).
  assert (Hdoms : domain_names r =
                  map PyStr.strip (PyStr.split comma (cell_text raw "DOMAINS")))
    by (rewrite Hrow; reflexivity).
  clear Hrow.
  pose proof (process_row_parent_payload sgm segm force existing r counts st) as Hpay.
  split; [|split].
  - intros cell Hcell Hcomma. apply row_get_text in Hcell as (_ & Hcell & _).
    assert (Hempty : In "" (domain_names r)).
    { rewrite Hdoms, Hcell. apply empty_token_of_comma, Hcomma. }
    split; [exact Hempty|]. split; [|split; [|split]].
    + intros Hnoskip ids gid Hids Hgid.
      destruct (process_row_resolved sgm segm force existing r counts st ids gid
                  Hnoskip Hids Hgid) as [Hparent Hchildren].
      split; [exact Hparent|]. split; [exact Hempty|].
      intros parent_id st' Hcreated.
      destruct (Hchildren parent_id st' Hcreated) as (Hone & Hba & Hpra).
      split; [exact Hone|]. split.
      * intros Hflag port Hport. rewrite Hba, Hflag.
        apply in_flat_map. exists "". split; [exact Hempty|].
        apply in_flat_map. exists port. split; [exact Hport|]. left. reflexivity.
      * intros Hflag port protocol Hport Hprotocol. rewrite Hpra, Hflag.
        apply in_flat_map. exists "". split; [exact Hempty|].
        apply in_flat_map. exists port. split; [exact Hport|].
        rewrite Hprotocol. left. reflexivity.
    + eapply Forall_impl; [exact Hpay|].
      intros p (ids & gid & _ & _ & ->). reflexivity.
    + intros Hcreated Hflag port Hport.
      pose proof (child_call_pairs sgm segm force existing r counts st Hcreated)
        as [Hba _].
      rewrite Hflag in Hba.
      assert (Hin : In ("", port) (list_prod (domain_names r) (tcp_ports r)))
        by (apply in_prod; assumption).
      rewrite <- Hba in Hin. apply in_map_iff in Hin as (c & [= Hd Hp] & Hc). eauto.
    + intros Hcreated Hflag port Hport Hmapped.
      pose proof (child_call_pairs sgm segm force existing r counts st Hcreated)
        as [_ Hpra].
      rewrite Hflag in Hpra.
      assert (Hin : In ("", port)
                (List.filter (fun dp => bool_decide (snd dp = "22" \/ snd dp = "3389"))
                             (list_prod (domain_names r) (tcp_ports r)))).
      { apply List.filter_In. split; [apply in_prod; assumption|].
        apply bool_decide_eq_true_2. exact Hmapped. }
      rewrite <- Hpra in Hin. apply in_map_iff in Hin as (c & [= Hd Hp] & Hc). eauto.
  - intros cell Hcell Hcomma. apply row_get_text in Hcell as (_ & Hcell & _).
    assert (Hempty : In "" (server_group_names r)).
    { rewrite Hsgs, Hcell. apply empty_token_of_comma, Hcomma. }
    split; [exact Hempty|]. split.
    + intros Hnoskip Habsent.
      assert (Hmiss : In "" (List.filter (fun sg => negb (PyDict.contains sg sgm))
                                         (server_group_names r))).
      { apply List.filter_In. split; [exact Hempty|]. rewrite Habsent. reflexivity. }
      destruct (process_row_run sgm segm force existing r counts st)
        as [Hskip | ms _ Hms _ | _ Hnone _ | ids gid err st' _ Hids _ _
            | ids gid pid st' k1 k2 _ Hids _ _ _ _].
      * congruence.
      * exists ms. split; [reflexivity|]. rewrite <- Hms. exact Hmiss.
      * rewrite Hnone in Hmiss. destruct Hmiss.
      * exfalso. clear -Hids Hempty Habsent.
        induction Hids as [|n id ns ids Hn _ IH]; [destruct Hempty|].
        destruct Hempty as [->|Hin]; [|auto].
        apply get_contains in Hn. congruence.
      * exfalso. clear -Hids Hempty Habsent.
        induction Hids as [|n id ns ids Hn _ IH]; [destruct Hempty|].
        destruct Hempty as [->|Hin]; [|auto].
        apply get_contains in Hn. congruence.
    + eapply Forall_impl; [exact Hpay|].
      intros p (ids & gid & Hids & _ & ->). exact Hids.
  - apply import_parse_ports_no_empty.
Qed.
End ImportPayload.

(** ** The batch as a whole *)

Lemma import_parse_rows reader rows :
  snd (ImportSegments.parse_rows reader) = inr rows ->
  rows = omap (fun raw => kept (snd (ImportSegments.parse_csv_row raw))) reader.
Proof. apply collect_rows_rows. Qed.

Section BatchClaims.
Context {St : Type} `{ZPAClient St}.

End BatchClaims.

(** ** The existence checks *)

Lemma str_in_In x xs : PyStr.str_in x xs = true <-> In x xs.
Proof.
  unfold PyStr.str_in. rewrite existsb_exists. split.
  - intros (y & Hy & Heq). apply String.eqb_eq in Heq. subst. exact Hy.
  - intros Hin. exists x. split; [exact Hin | apply String.eqb_refl].
Qed.

Lemma matches_spec domain ports segment :
  SegmentMaker.matches domain ports segment = true <->
  In domain (Segment.domain_names segment) /\ Segment.tcp_port_range segment = ports.
Proof.
  unfold SegmentMaker.matches. rewrite andb_true_iff, str_in_In, bool_decide_eq_true.
  reflexivity.
Qed.

Section ExistenceClaims.
Context {St : Type} `{ZPAClient St}.

Lemma fetch_existing_listing_error (st : St) err st' :
  list_segments st = (inr err, st') ->
  ImportSegments.fetch_existing_segment_names st =
  mkOutcome (inr ∅) st'
            [EvListSegments (inr err); EvPrint (MsgCouldNotFetchExisting err)].
Proof.
  intros Hlist. unfold ImportSegments.fetch_existing_segment_names.
  rewrite bind_call, Hlist. reflexivity.
Qed.

Lemma process_row_empty_names sgm segm force row counts (st : St) :
  ImportSegments.process_row sgm segm force ∅ row counts st =
  ImportSegments.process_row sgm segm true ∅ row counts st.
Proof.
  unfold ImportSegments.process_row.
  rewrite (bool_decide_eq_false_2 (ImportSegments.name row ∈ (∅ : gset string)))
    by apply not_elem_of_empty.
  rewrite !andb_false_r. reflexivity.
Qed.

(** The create call of an iteration of [segment_maker.py] in terms of
    what the existence check returned. *)
Lemma create_one_parent_calls force row n (st : St) domain rest :
  Payload.domain_names row = domain :: rest ->
  let check := if negb force
               then SegmentMaker.segment_exists domain (Payload.tcp_port_range row) st
               else ret false st in
  parent_calls (emitted (SegmentMaker.create_one force row n st)) =
    match result check with
    | inr false => [row]
    | _ => []
    end
  /\ printed (emitted (SegmentMaker.create_one force row n st)) =
    printed (emitted check) ++
    match result check with
    | inr true => [MsgSkipExistingDomain domain (Payload.tcp_port_range row)]
    | inr false =>
        match fst (add_segment row (tenant check)) with
        | inl _ => [MsgCreated (Payload.name row)]
        | inr err => [MsgCreateFailed (Payload.name row) err]
        end
    | inl _ => []
    end.
Proof.
  intros Hdom check.
  rewrite (create_one_after_check force row n st domain rest check Hdom eq_refl).
  assert (Hnp : parent_calls (emitted check) = []).
  { subst check. destruct force; cbn [negb]; [reflexivity|].
    destruct (segment_exists_succeeds domain (Payload.tcp_port_range row) st)
      as (b & _ & Hnp). apply (no_parent_call_facts _ Hnp). }
  destruct (result check) as [e|[|]].
  - cbn [emitted]. rewrite Hnp, app_nil_r. split; reflexivity.
  - cbn [emitted]. rewrite parent_calls_app, printed_app, Hnp. split; reflexivity.
  - destruct (add_segment row (tenant check)) as [[id|err] st']; cbn [emitted fst];
      rewrite parent_calls_app, printed_app, Hnp; split; reflexivity.
Qed.

(** C6: for every candidate, when the segment-listing call returns an
    error, the existence check returns false in either mode.  The
    attribute-keyed check of [segment_maker.py] answers false, so the row
    is not skipped and its create call is made; the pre-fetch of
    [import_segments.py] yields the empty name set, in which no name is a
    member, so every row is processed as it is under [force]. *)
Theorem listing_error_means_not_found (st st' : St) (err : Err) :
  list_segments st = (inr err, st') ->
  (forall domain ports,
     result (SegmentMaker.segment_exists domain ports st) = inr false)
  /\ (forall row n domain rest,
        Payload.domain_names row = domain :: rest ->
        parent_calls (emitted (SegmentMaker.create_one false row n st)) = [row])
  /\ (exists names : gset string,
        result (ImportSegments.fetch_existing_segment_names st) = inr names /\
        (forall name, bool_decide (name ∈ names) = false) /\
        forall sgm segm force row counts (s : St),
          ImportSegments.process_row sgm segm force names row counts s =
          ImportSegments.process_row sgm segm true names row counts s).
Proof.
  intros Hlist. split; [|split].
  - intros domain ports.
    rewrite (segment_exists_listing_error _ _ _ _ _ Hlist). reflexivity.
  - intros row n domain rest Hdom.
    rewrite (proj1 (create_one_parent_calls false row n st domain rest Hdom)).
    cbn [negb]. rewrite (segment_exists_listing_error _ _ _ _ _ Hlist). reflexivity.
  - exists ∅. rewrite (fetch_existing_listing_error _ _ _ Hlist).
    split; [reflexivity|]. split.
    + intros name. apply bool_decide_eq_false_2, not_elem_of_empty.
    + intros. apply process_row_empty_names.
Qed.

(** C8: the attribute-keyed existence check looks at the first entry of
    the row's domain list only.  With the listing available, the row is
    skipped exactly when some existing segment holds the first domain and
    has the same TCP port ranges; so when no existing segment does, the
    create call is made and no skip is printed, whatever the later domains
    of the row match. *)
Theorem existence_check_uses_first_domain
    (row : Payload.t) (first : string) (rest : list string)
    (segments : list Segment.t) (n : nat) (st st' : St) :
  Payload.domain_names row = first :: rest ->
  list_segments st = (inl segments, st') ->
  let o := SegmentMaker.create_one false row n st in
  ((exists segment,
      In segment segments /\ In first (Segment.domain_names segment) /\
      Segment.tcp_port_range segment = Payload.tcp_port_range row) ->
   parent_calls (emitted o) = [] /\
   In (MsgSkipExistingDomain first (Payload.tcp_port_range row)) (printed (emitted o)))
  /\ (Forall (fun segment =>
                ~ (In first (Segment.domain_names segment) /\
                   Segment.tcp_port_range segment = Payload.tcp_port_range row))
             segments ->
      parent_calls (emitted o) = [row] /\
      forall domain ports, ~ In (MsgSkipExistingDomain domain ports) (printed (emitted o))).
Proof.
  intros Hdom Hlist. cbn zeta.
  destruct (create_one_parent_calls false row n st first rest Hdom) as [Hcalls Hprinted].
  cbn zeta in Hcalls, Hprinted. cbn [negb] in Hcalls, Hprinted.
  rewrite (segment_exists_listing _ _ _ _ _ Hlist) in Hcalls, Hprinted.
  cbn [result emitted tenant] in Hcalls, Hprinted.
  split.
  - intros (segment & Hin & Hfirst & Hports).
    assert (Hex : existsb (SegmentMaker.matches first (Payload.tcp_port_range row))
                          segments = true).
    { apply existsb_exists. exists segment. split; [exact Hin|].
      apply matches_spec. auto. }
    rewrite Hex in Hcalls, Hprinted. split; [exact Hcalls|].
    rewrite Hprinted. left. reflexivity.
  - intros Hnone.
    assert (Hex : existsb (SegmentMaker.matches first (Payload.tcp_port_range row))
                          segments = false).
    { apply not_true_is_false. intros Hex.
      apply existsb_exists in Hex as (segment & Hin & Hm).
      apply matches_spec in Hm. rewrite Forall_forall in Hnone.
      exact (Hnone segment (proj2 (list_elem_of_In _ _) Hin) Hm). }
    rewrite Hex in Hcalls, Hprinted. split; [exact Hcalls|].
    intros domain ports Hin. rewrite Hprinted in Hin. cbn in Hin.
    destruct (add_segment row st') as [[id|e] s]; cbn in Hin;
      destruct Hin as [Hin|[]]; discriminate.
Qed.
End ExistenceClaims.

(** ** Mandatory fields in the import path *)

(** C7 (fails in [import_segments.py]): the row whose NAME cell is a single
    space has a name that is empty after trimming, and [segment_maker.py]
    rejects it; [import_segments.parse_csv_row] tests the cells before
    trimming them, returns a row whose name is the empty string, and the
    creation loop then issues a parent create call with that empty name. *)
Theorem import_accepts_blank_name :
  strip_of (row_get_default Fixtures.blank_name_raw "NAME" "") = inr ""
  /\ snd (SegmentMaker.parse_csv_row Fixtures.blank_name_raw Fixtures.server_groups
                                     Fixtures.segment_groups) = inr None
  /\ snd (ImportSegments.parse_csv_row Fixtures.blank_name_raw) =
     inr (Some (ImportSegments.mkRow "" "" true "grp1" ["sg1"] ["a.example.com"] [] []
                                     false false false false))
  /\ snd (ImportSegments.parse_rows [Fixtures.blank_name_raw]) =
     inr [ImportSegments.mkRow "" "" true "grp1" ["sg1"] ["a.example.com"] [] []
                               false false false false]
  /\ parent_calls
       (emitted (ImportSegments.create_and_configure_segments
                   (H := MockTenant.client)
                   [ImportSegments.mkRow "" "" true "grp1" ["sg1"] ["a.example.com"]
                                         [] [] false false false false]
                   Fixtures.server_groups Fixtures.segment_groups false ∅ []))
     = [Payload.mk "" "" true (Some "201") ["101"] ["a.example.com"] [] [] false
                   (Some false)].
Proof. vm_compute. repeat split; reflexivity. Qed.

(** When the cell is absent or empty before trimming, the import path does
    reject the row. *)
Lemma import_rejects_absent raw :
  ImportSegments.cell_truthy raw "NAME" = false
  \/ ImportSegments.cell_truthy raw "DOMAINS" = false
  \/ ImportSegments.cell_truthy raw "SERVER_GROUP_IDS" = false ->
  ImportSegments.parse_csv_row raw = ([MsgMissingRequired raw], inr None).
Proof.
  intros Habsent. unfold ImportSegments.parse_csv_row.
  destruct Habsent as [-> | [-> | ->]]; rewrite ?andb_false_r; reflexivity.
Qed.

(** ** The claims on sample data *)

(** The tenant refuses "seg-B" (the name is taken): its row makes the
    parent call and no child call although it asks for remote access on
    port 3389, and the next row is created with its children. *)
Example failed_parent_then_next_row :
  create_calls
    (emitted (ImportSegments.create_and_configure_segments
                (H := MockTenant.client) [Fixtures.seg_b; Fixtures.seg_a]
                Fixtures.server_groups Fixtures.segment_groups false ∅
                Fixtures.tenant_with_b))
  = [EvAddSegment
       (Payload.mk "seg-B" "" true (Some "201") ["101"] ["b.example.com"]
                   [mkPortRange "3389" "3389"] [] false (Some false))
       (inr "name already exists");
     EvAddSegment
       (Payload.mk "seg-A" "" true (Some "201") ["101"] ["a.example.com"]
                   [mkPortRange "443" "443"; mkPortRange "22" "22";
                    mkPortRange "8080" "8080"] [] false (Some false))
       (inl "id-seg-A");
     EvAddBA (ChildApp.mk "id-seg-A" "a.example.com:443" "a.example.com" "443"
                          "HTTPS" true) None;
     EvAddBA (ChildApp.mk "id-seg-A" "a.example.com:22" "a.example.com" "22"
                          "HTTP" true) None;
     EvAddBA (ChildApp.mk "id-seg-A" "a.example.com:8080" "a.example.com" "8080"
                          "HTTP" true) None;
     EvAddPRA (ChildApp.mk "id-seg-A" "SSH-a.example.com:22" "a.example.com" "22"
                           "SSH" true) None]
  /\ result (ImportSegments.create_and_configure_segments
               (H := MockTenant.client) [Fixtures.seg_b; Fixtures.seg_a]
               Fixtures.server_groups Fixtures.segment_groups false ∅
               Fixtures.tenant_with_b)
     = inr (1, 4).
Proof. vm_compute. split; reflexivity. Qed.

(** C1, as first stated, fails: the row is named "seg-A", the name is in
    the set and [force] is on, yet no create call is made, because its
    server group is not in the reference map. *)
Lemma forced_row_with_unknown_group_not_created :
  ImportSegments.name Fixtures.seg_a_unresolved ∈ Fixtures.existing_names
  /\ emitted (ImportSegments.process_row
                (H := MockTenant.client) Fixtures.server_groups Fixtures.segment_groups
                true Fixtures.existing_names Fixtures.seg_a_unresolved (0, 0) [])
     = [EvPrint (MsgMissingServerGroups "seg-A" ["sg9"])]
  /\ parent_calls
       (emitted (ImportSegments.process_row
                   (H := MockTenant.client) Fixtures.server_groups
                   Fixtures.segment_groups true Fixtures.existing_names
                   Fixtures.seg_a_unresolved (0, 0) []))
     = [].
Proof.
  split; [apply elem_of_singleton_2; reflexivity|].
  vm_compute. split; reflexivity.
Qed.

Lemma force_bypasses_existence_check_witness :
  create_calls
    (emitted (ImportSegments.process_row
                (H := MockTenant.client) Fixtures.server_groups Fixtures.segment_groups
                false Fixtures.existing_names Fixtures.seg_a (0, 0) []))
  = []
  /\ exists p,
       parent_calls
         (emitted (ImportSegments.process_row
                     (H := MockTenant.client) Fixtures.server_groups
                     Fixtures.segment_groups true Fixtures.existing_names
                     Fixtures.seg_a (0, 0) []))
       = [p]
       /\ Payload.name p = "seg-A".
Proof.
  destruct (force_bypasses_existence_check
              (H := MockTenant.client) Fixtures.server_groups Fixtures.segment_groups
              Fixtures.existing_names Fixtures.seg_a (0, 0) [])
    as (Hoff & _ & Hon & _).
  - apply elem_of_singleton_2. reflexivity.
  - split; [apply Hoff|]. apply Hon.
    + repeat constructor.
    + reflexivity.
Defined.

Lemma existing_check_precedes_resolution_witness :
  emitted (ImportSegments.process_row
             (H := MockTenant.client) Fixtures.server_groups Fixtures.segment_groups
             false Fixtures.existing_names Fixtures.seg_a_unresolved (0, 0) [])
  = [EvPrint (MsgSkipExisting "seg-A")].
Proof.
  apply (existing_check_precedes_resolution
           (H := MockTenant.client) Fixtures.server_groups Fixtures.segment_groups
           [] [] Fixtures.existing_names Fixtures.seg_a_unresolved (0, 0) []).
  apply elem_of_singleton_2. reflexivity.
Defined.

Lemma protocol_inference_by_port_witness :
  map (fun c => (ChildApp.application_port c, ChildApp.application_protocol c))
      (ba_calls
         (emitted (ImportSegments.process_row
                     (H := MockTenant.client) Fixtures.server_groups
                     Fixtures.segment_groups false ∅ Fixtures.seg_a (0, 0) [])))
  = [("443", "HTTPS"); ("22", "HTTP"); ("8080", "HTTP")]
  /\ map (fun c => (ChildApp.domain c, ChildApp.application_port c))
         (pra_calls
            (emitted (ImportSegments.process_row
                        (H := MockTenant.client) Fixtures.server_groups
                        Fixtures.segment_groups false ∅ Fixtures.seg_a (0, 0) [])))
     = List.filter (fun dp => bool_decide (snd dp = "22" \/ snd dp = "3389"))
                   (list_prod ["a.example.com"] ["443"; "22"; "8080"]).
Proof.
  split; [vm_compute; reflexivity|].
  apply (protocol_inference_by_port
           (H := MockTenant.client) Fixtures.server_groups Fixtures.segment_groups
           false ∅ Fixtures.seg_a (0, 0) []); vm_compute; reflexivity.
Defined.

Lemma empty_tokens_are_kept_witness :
  let evs :=
    emitted (ImportSegments.process_row
               (H := MockTenant.client) Fixtures.server_groups Fixtures.segment_groups
               false ∅ Fixtures.trailing_domain_row (0, 0) []) in
  In "" (ImportSegments.domain_names Fixtures.trailing_domain_row)
  /\ parent_calls evs
     = [Payload.mk "web2" "" true (Some "201") ["101"] ["a.example.com"; ""]
                   [mkPortRange "443" "443"; mkPortRange "22" "22"] [] false
                   (Some false)]
  /\ parents_created evs = 1
  /\ In (ChildApp.mk "id-web2" ":443" "" "443" "HTTPS" true) (ba_calls evs)
  /\ In (ChildApp.mk "id-web2" "SSH-:22" "" "22" "SSH" true) (pra_calls evs)
  /\ In "" (ImportSegments.server_group_names Fixtures.trailing_comma_row).
Proof.
  cbn zeta.
  destruct (empty_tokens_are_kept
              (H := MockTenant.client) Fixtures.trailing_domain_raw
              Fixtures.trailing_domain_row Fixtures.server_groups
              Fixtures.segment_groups false ∅ (0, 0) [])
    as (Hdomains & _ & _).
  - vm_compute. reflexivity.
  - destruct (Hdomains "a.example.com,") as (Hin & Hsent & _).
    + vm_compute. reflexivity.
    + left. exists "a.example.com". reflexivity.
    + destruct (Hsent eq_refl ["101"] "201") as (Hparent & _ & Hchildren).
      * repeat constructor.
      * reflexivity.
      * destruct (Hchildren "id-web2" _ eq_refl) as (Hone & Hba & Hpra).
        split; [exact Hin|]. split; [exact Hparent|]. split; [exact Hone|].
        split; [|split].
        -- apply (Hba eq_refl "443"). left. reflexivity.
        -- apply (Hpra eq_refl "22" "SSH"); [right; left|]; reflexivity.
        -- destruct (empty_tokens_are_kept
                       (H := MockTenant.client) Fixtures.trailing_comma_raw
                       Fixtures.trailing_comma_row Fixtures.server_groups
                       Fixtures.segment_groups false ∅ (0, 0) [])
             as (_ & Hgroups & _).
           ++ vm_compute. reflexivity.
           ++ apply (Hgroups "sg1,"); [vm_compute; reflexivity|].
              left. exists "sg1". reflexivity.
Defined.


Lemma listing_error_means_not_found_witness :
  result (SegmentMaker.segment_exists
            (H := FailingListing.client) "x.example.com" [mkPortRange "3389" "3389"] tt)
  = inr false.
Proof.
  apply (listing_error_means_not_found
           (H := FailingListing.client) tt tt "503 Service Unavailable").
  reflexivity.
Defined.

Lemma existence_check_uses_first_domain_witness :
  existsb (SegmentMaker.matches "c.example.com" [mkPortRange "3389" "3389"])
          Fixtures.tenant_with_b = true
  /\ parent_calls
       (emitted (SegmentMaker.create_one
                   (H := MockTenant.client) false Fixtures.two_domains 0
                   Fixtures.tenant_with_b))
     = [Fixtures.two_domains].
Proof.
  split; [reflexivity|].
  apply (existence_check_uses_first_domain
           (H := MockTenant.client) Fixtures.two_domains "x.example.com"
           ["c.example.com"] Fixtures.tenant_with_b 0
           Fixtures.tenant_with_b Fixtures.tenant_with_b).
  - reflexivity.
  - reflexivity.
  - repeat constructor. intros [Hin _]. vm_compute in Hin.
    destruct Hin as [Hin | [Hin | []]]; discriminate Hin.
Defined.

(** ** Splitting and trimming *)

Lemma str_join_cons sep x y ys :
  str_join sep (x :: y :: ys) = x +:+ sep +:+ str_join sep (y :: ys).
Proof. reflexivity. Qed.

Lemma append_cons c a b : String c a +:+ b = String c (a +:+ b).
Proof. reflexivity. Qed.

Lemma append_nil_l b : "" +:+ b = b.
Proof. reflexivity. Qed.

Lemma split_join sep s : str_join (String sep "") (PyStr.split sep s) = s.
Proof.
  induction s as [|c r IH]; [reflexivity|].
  cbn [PyStr.split]. destruct (Ascii.eqb_spec c sep) as [->|Hne].
  - destruct (PyStr.split sep r) as [|tok toks] eqn:Hr.
    + exfalso. exact (split_not_nil _ _ Hr).
    + rewrite str_join_cons, append_nil_l, append_cons, append_nil_l, IH. reflexivity.
  - destruct (PyStr.split sep r) as [|tok toks] eqn:Hr.
    + exfalso. exact (split_not_nil _ _ Hr).
    + destruct toks as [|tok' toks].
      * cbn [str_join] in IH |- *. rewrite IH. reflexivity.
      * rewrite str_join_cons in IH |- *. rewrite append_cons, IH. reflexivity.
Qed.

Lemma split_tokens_no_sep sep s :
  Forall (fun tok => has_char sep tok = false) (PyStr.split sep s).
Proof.
  induction s as [|c r IH]; [repeat constructor|].
  cbn [PyStr.split]. destruct (Ascii.eqb c sep) eqn:Hc.
  - constructor; [reflexivity | exact IH].
  - destruct (PyStr.split sep r) as [|tok toks]; [repeat constructor|].
    + cbn. rewrite Ascii.eqb_sym, Hc. reflexivity.
    + inversion IH as [|? ? Htok Htoks]; subst. constructor; [|exact Htoks].
      cbn. rewrite Ascii.eqb_sym, Hc, Htok. reflexivity.
Qed.

Lemma lstrip_idem s : PyStr.lstrip (PyStr.lstrip s) = PyStr.lstrip s.
Proof.
  induction s as [|c r IH]; [reflexivity|].
  cbn [PyStr.lstrip]. destruct (PyStr.is_space c) eqn:Hc; [exact IH|].
  cbn [PyStr.lstrip]. rewrite Hc. reflexivity.
Qed.

Lemma rstrip_idem s : PyStr.rstrip (PyStr.rstrip s) = PyStr.rstrip s.
Proof.
  induction s as [|c r IH]; [reflexivity|].
  rewrite rstrip_cons.
  destruct (PyStr.is_space c && negb (PyStr.truthy (PyStr.rstrip r))) eqn:Hdrop;
    [reflexivity|].
  rewrite rstrip_cons, IH, Hdrop. reflexivity.
Qed.

Lemma strip_idem s : PyStr.strip (PyStr.strip s) = PyStr.strip s.
Proof.
  unfold PyStr.strip.
  rewrite <- (lstrip_rstrip_comm (PyStr.lstrip s)), rstrip_idem, lstrip_idem.
  reflexivity.
Qed.

Lemma lstrip_has_char c s : has_char c (PyStr.lstrip s) = true -> has_char c s = true.
Proof.
  induction s as [|c' r IH]; [discriminate|].
  cbn [PyStr.lstrip]. destruct (PyStr.is_space c'); [|auto].
  intros Hin. cbn. rewrite (IH Hin). apply orb_true_r.
Qed.

Lemma rstrip_has_char c s : has_char c (PyStr.rstrip s) = true -> has_char c s = true.
Proof.
  induction s as [|c' r IH]; [discriminate|].
  rewrite rstrip_cons.
  destruct (PyStr.is_space c' && negb (PyStr.truthy (PyStr.rstrip r))); [discriminate|].
  cbn. destruct (Ascii.eqb c c'); [reflexivity|]. exact IH.
Qed.

Lemma strip_has_char c s : has_char c (PyStr.strip s) = true -> has_char c s = true.
Proof. intros Hin. apply lstrip_has_char, rstrip_has_char, Hin. Qed.

Lemma strip_no_char c s : has_char c s = false -> has_char c (PyStr.strip s) = false.
Proof.
  intros Hno. destruct (has_char c (PyStr.strip s)) eqn:Hin; [|reflexivity].
  apply strip_has_char in Hin. congruence.
Qed.

(** X1: splitting a cell at commas loses nothing and never splits inside a
    token: the tokens joined by commas give the cell back, there is at least
    one token, and no token contains a comma. *)
Theorem split_round_trip (cell : string) :
  str_join "," (PyStr.split comma cell) = cell
  /\ PyStr.split comma cell <> []
  /\ Forall (fun tok => has_char comma tok = false) (PyStr.split comma cell).
Proof.
  split; [apply (split_join comma)|]. split;
    [apply split_not_nil | apply split_tokens_no_sep].
Qed.

Lemma trimmed_tokens_facts s :
  Forall (fun t => t <> "" /\ PyStr.strip t = t /\ has_char comma t = false)
         (List.filter PyStr.truthy (map PyStr.strip (PyStr.split comma s))).
Proof.
  apply Forall_forall. intros t Ht. apply list_elem_of_In in Ht.
  apply List.filter_In in Ht as [Ht Htruthy]. apply in_map_iff in Ht as (tok & <- & Htok).
  split; [|split].
  - intros Hempty. rewrite Hempty in Htruthy. discriminate.
  - apply strip_idem.
  - apply strip_no_char.
    pose proof (split_tokens_no_sep comma s) as Hall. rewrite Forall_forall in Hall.
    apply Hall, list_elem_of_In, Htok.
Qed.

Lemma segment_maker_parse_ports_tokens s :
  SegmentMaker.parse_ports (Some s) =
  map (fun t => {| from := t; to := t |})
      (List.filter PyStr.truthy (map PyStr.strip (PyStr.split comma s))).
Proof.
  unfold SegmentMaker.parse_ports. rewrite or_else_empty.
  rewrite <- (map_map PyStr.strip (fun t => {| from := t; to := t |})).
  rewrite (filter_map_comm PyStr.strip PyStr.truthy), strip_tokens_strip.
  reflexivity.
Qed.

(** X2: every port that [parse_ports] returns, in either script, is a
    non-empty token without surrounding whitespace and without a comma; in
    [segment_maker.py] each range has equal bounds. *)
Theorem parse_ports_tokens_clean (port_string : string) :
  Forall (fun t => t <> "" /\ PyStr.strip t = t /\ has_char comma t = false)
         (ImportSegments.parse_ports (Some port_string))
  /\ Forall (fun r => from r = to r /\ from r <> "" /\ PyStr.strip (from r) = from r
                      /\ has_char comma (from r) = false)
            (SegmentMaker.parse_ports (Some port_string)).
Proof.
  split.
  - rewrite import_parse_ports_tokens. apply trimmed_tokens_facts.
  - rewrite segment_maker_parse_ports_tokens.
    apply Forall_fmap. eapply Forall_impl; [apply trimmed_tokens_facts|].
    intros t (Hne & Hstrip & Hcomma). cbn. auto.
Qed.

(** ** Boolean cells *)

Lemma lower_char_space c : PyStr.is_space (PyStr.lower_char c) = PyStr.is_space c.
Proof. destruct c as [[] [] [] [] [] [] [] []]; vm_compute; reflexivity. Qed.

Lemma has_space_lower s : has_space (PyStr.lower s) = has_space s.
Proof.
  induction s as [|c r IH]; [reflexivity|].
  cbn [PyStr.lower has_space]. rewrite lower_char_space, IH. reflexivity.
Qed.

Lemma no_space_strip s : has_space s = false -> PyStr.strip s = s.
Proof.
  intros Hno. unfold PyStr.strip.
  assert (Hl : PyStr.lstrip s = s).
  { destruct s as [|c r]; [reflexivity|]. cbn in Hno |- *.
    apply orb_false_elim in Hno as [-> _]. reflexivity. }
  rewrite Hl. clear Hl. induction s as [|c r IH]; [reflexivity|].
  cbn [has_space] in Hno. apply orb_false_elim in Hno as [Hc Hr].
  rewrite rstrip_cons, Hc, (IH Hr). reflexivity.
Qed.

Lemma str2bool_no_space v : str2bool (Some v) = true -> has_space v = false.
Proof.
  unfold str2bool, PyStr.str_in, py_str. cbn [existsb]. intros Hin.
  rewrite <- has_space_lower.
  repeat (apply orb_prop in Hin as [Hin|Hin];
          [apply String.eqb_eq in Hin; rewrite Hin; reflexivity|]).
  discriminate.
Qed.

Lemma str2bool_padded v : PyStr.strip v <> v \/ v = "" -> str2bool (Some v) = false.
Proof.
  intros Hpad. destruct (str2bool (Some v)) eqn:Hb; [|reflexivity].
  destruct Hpad as [Hpad | ->]; [|discriminate].
  exfalso. apply Hpad, no_space_strip, str2bool_no_space, Hb.
Qed.

Lemma row_get_default_some (raw : RawRecord) key dflt v :
  raw !! key = Some v -> row_get_default raw key dflt = v.
Proof. intros Hv. unfold row_get_default. rewrite Hv. reflexivity. Qed.

Lemma row_get_default_none (raw : RawRecord) key dflt :
  raw !! key = None -> row_get_default raw key dflt = Some dflt.
Proof. intros Hv. unfold row_get_default. rewrite Hv. reflexivity. Qed.

Lemma import_parse_flags raw r :
  snd (ImportSegments.parse_csv_row raw) = inr (Some r) ->
  ImportSegments.enabled r = str2bool (row_get_default raw "ENABLED" "true")
  /\ ImportSegments.double_encrypt r = str2bool (row_get_default raw "DOUBLE_ENCRYPT" "false")
  /\ ImportSegments.is_browser_access r =
       str2bool (row_get_default raw "IS_BROWSER_ACCESS" "false")
  /\ ImportSegments.is_pra r = str2bool (row_get_default raw "IS_PRA" "false")
  /\ ImportSegments.is_inspection r = str2bool (row_get_default raw "IS_INSPECTION" "false").
Proof.
  intros Hparse. destruct (import_parse_some _ _ Hparse) as (_ & _ & _ & ->).
  repeat split; reflexivity.
Qed.

(** X3: the boolean cells are not trimmed before they are coerced.  In a
    row that [import_segments.parse_csv_row] accepts, a flag whose cell is
    empty or carries leading or trailing whitespace reads as false, also
    ENABLED; a flag whose column is absent reads as its default, true for
    ENABLED and false for the others; and a flag whose cell is [None]
    (the line ended before its column) reads as false, also ENABLED. *)
Theorem import_flags_not_trimmed (raw : RawRecord) (r : ImportSegments.Row) :
  snd (ImportSegments.parse_csv_row raw) = inr (Some r) ->
  (forall v, PyStr.strip v <> v \/ v = "" ->
     (raw !! "ENABLED" = Some (Some v) -> ImportSegments.enabled r = false)
     /\ (raw !! "DOUBLE_ENCRYPT" = Some (Some v) ->
         ImportSegments.double_encrypt r = false)
     /\ (raw !! "IS_BROWSER_ACCESS" = Some (Some v) ->
         ImportSegments.is_browser_access r = false)
     /\ (raw !! "IS_PRA" = Some (Some v) -> ImportSegments.is_pra r = false)
     /\ (raw !! "IS_INSPECTION" = Some (Some v) ->
         ImportSegments.is_inspection r = false))
  /\ (raw !! "ENABLED" = None -> ImportSegments.enabled r = true)
  /\ (raw !! "DOUBLE_ENCRYPT" = None -> ImportSegments.double_encrypt r = false)
  /\ (raw !! "IS_BROWSER_ACCESS" = None -> ImportSegments.is_browser_access r = false)
  /\ (raw !! "IS_PRA" = None -> ImportSegments.is_pra r = false)
  /\ (raw !! "IS_INSPECTION" = None -> ImportSegments.is_inspection r = false)
  /\ (raw !! "ENABLED" = Some None -> ImportSegments.enabled r = false)
  /\ (raw !! "DOUBLE_ENCRYPT" = Some None -> ImportSegments.double_encrypt r = false)
  /\ (raw !! "IS_BROWSER_ACCESS" = Some None ->
      ImportSegments.is_browser_access r = false)
  /\ (raw !! "IS_PRA" = Some None -> ImportSegments.is_pra r = false)
  /\ (raw !! "IS_INSPECTION" = Some None -> ImportSegments.is_inspection r = false).
Proof.
  intros Hparse.
  destruct (import_parse_flags _ _ Hparse) as (-> & -> & -> & -> & ->).
  split.
  - intros v Hpad.
    repeat split; intros Hv; rewrite (row_get_default_some _ _ _ _ Hv);
      apply str2bool_padded, Hpad.
  - repeat split; intros Hv;
      (rewrite (row_get_default_none _ _ _ Hv) ||
       rewrite (row_get_default_some _ _ _ _ Hv)); reflexivity.
Qed.

Lemma import_flags_not_trimmed_witness :
  ImportSegments.is_browser_access
    (ImportSegments.mkRow "web3" "" false "" ["sg1"] ["a.example.com"] [] []
                          false false false false) = false.
Proof.
  destruct (import_flags_not_trimmed
              (Fixtures.raw [("NAME", "web3"); ("DOMAINS", "a.example.com");
                             ("SERVER_GROUP_IDS", "sg1"); ("ENABLED", "");
                             ("IS_BROWSER_ACCESS", " true")])
              (ImportSegments.mkRow "web3" "" false "" ["sg1"] ["a.example.com"] [] []
                                    false false false false))
    as [Hpadded _].
  - vm_compute. reflexivity.
  - destruct (Hpadded " true") as (_ & _ & Hflag & _).
    + left. vm_compute. discriminate.
    + apply Hflag. vm_compute. reflexivity.
Defined.

(** ** The reference dictionaries *)

Lemma dict_get_set_eq key v d : PyDict.get key (PyDict.set key v d) = Some v.
Proof.
  induction d as [|[k v'] d IH]; cbn.
  - rewrite String.eqb_refl. reflexivity.
  - destruct (String.eqb key k) eqn:Hk; cbn; rewrite Hk; [reflexivity | exact IH].
Qed.

Lemma dict_get_set_ne key key' v d :
  key <> key' -> PyDict.get key' (PyDict.set key v d) = PyDict.get key' d.
Proof.
  intros Hne. induction d as [|[k v'] d IH]; cbn.
  - destruct (String.eqb_spec key' key); [congruence | reflexivity].
  - destruct (String.eqb_spec key k) as [->|Hk]; cbn.
    + destruct (String.eqb_spec key' k); [congruence | reflexivity].
    + rewrite IH. reflexivity.
Qed.

Lemma dict_set_keys key v d :
  map fst (PyDict.set key v d) =
  if PyDict.contains key d then map fst d else map fst d ++ [key].
Proof.
  unfold PyDict.contains. induction d as [|[k v'] d IH]; [reflexivity|].
  cbn [PyDict.set existsb fst]. destruct (String.eqb key k); cbn [orb map fst];
    [reflexivity|].
  rewrite IH. destruct (existsb _ d); reflexivity.
Qed.

Lemma dict_contains_keys key d : PyDict.contains key d = true <-> In key (map fst d).
Proof.
  unfold PyDict.contains. rewrite existsb_exists, in_map_iff. split.
  - intros (kv & Hin & Heq). apply String.eqb_eq in Heq. eauto.
  - intros (kv & Heq & Hin). exists kv. split; [exact Hin|].
    apply String.eqb_eq. auto.
Qed.

Lemma of_groups_fold_get groups : forall d name,
  PyDict.get name
    (fold_left (fun d g => PyDict.set (Group.name g) (Group.id g) d) groups d) =
  fold_left (fun acc g => if String.eqb name (Group.name g) then Some (Group.id g) else acc)
            groups (PyDict.get name d).
Proof.
  induction groups as [|g groups IH]; intros d name; [reflexivity|].
  cbn [fold_left]. rewrite IH. f_equal.
  destruct (String.eqb_spec name (Group.name g)) as [->|Hne].
  - apply dict_get_set_eq.
  - apply dict_get_set_ne. congruence.
Qed.

Lemma of_groups_fold_keys groups : forall d,
  NoDup (map fst d) ->
  NoDup (map fst (fold_left (fun d g => PyDict.set (Group.name g) (Group.id g) d)
                            groups d))
  /\ (forall k, In k (map fst (fold_left
                      (fun d g => PyDict.set (Group.name g) (Group.id g) d) groups d))
                <-> In k (map fst d) \/ In k (map Group.name groups))
  /\ (forall k, hd_error (map fst d) = Some k ->
                hd_error (map fst (fold_left
                      (fun d g => PyDict.set (Group.name g) (Group.id g) d) groups d))
                = Some k).
Proof.
  induction groups as [|g groups IH]; intros d Hnd.
  - cbn. split; [exact Hnd|]. split; [|auto]. intros k. tauto.
  - cbn [fold_left map].
    assert (Hnd' : NoDup (map fst (PyDict.set (Group.name g) (Group.id g) d))).
    { rewrite dict_set_keys.
      destruct (PyDict.contains (Group.name g) d) eqn:Hc; [exact Hnd|].
      apply NoDup_app. split; [exact Hnd|]. split; [|apply NoDup_singleton].
      intros k Hk Hk'. apply list_elem_of_In in Hk, Hk'. destruct Hk' as [<-|[]].
      apply dict_contains_keys in Hk. congruence. }
    destruct (IH _ Hnd') as (IHnd & IHin & IHhd).
    split; [exact IHnd|]. split.
    + intros k. rewrite IHin, dict_set_keys.
      destruct (PyDict.contains (Group.name g) d) eqn:Hc.
      * apply dict_contains_keys in Hc. cbn. intuition (subst; auto).
      * rewrite in_app_iff. cbn. intuition (subst; auto).
    + intros k Hk. apply IHhd. rewrite dict_set_keys.
      destruct (PyDict.contains (Group.name g) d); [exact Hk|].
      destruct (map fst d); [discriminate | exact Hk].
Qed.

Lemma last_id_no_match name groups acc :
  Forall (fun g => Group.name g <> name) groups ->
  fold_left (fun acc g => if String.eqb name (Group.name g) then Some (Group.id g) else acc)
            groups acc = acc.
Proof.
  intros Hno. revert acc. induction Hno as [|g groups Hg _ IH]; intros acc; [reflexivity|].
  cbn [fold_left]. destruct (String.eqb_spec name (Group.name g)); [congruence|].
  apply IH.
Qed.

Lemma of_groups_last_wins pre g post :
  Forall (fun g' => Group.name g' <> Group.name g) post ->
  PyDict.get (Group.name g) (PyDict.of_groups (pre ++ g :: post)) = Some (Group.id g).
Proof.
  intros Hpost. unfold PyDict.of_groups. rewrite of_groups_fold_get.
  rewrite fold_left_app. cbn [fold_left]. rewrite String.eqb_refl.
  apply last_id_no_match, Hpost.
Qed.

Lemma of_groups_contains groups name :
  PyDict.contains name (PyDict.of_groups groups) = true <->
  In name (map Group.name groups).
Proof.
  rewrite dict_contains_keys. unfold PyDict.of_groups.
  destruct (of_groups_fold_keys groups [] (NoDup_nil_2 (A := string))) as (_ & Hin & _).
  rewrite Hin. cbn. tauto.
Qed.

Lemma of_groups_nil_iff groups : PyDict.of_groups groups = [] <-> groups = [].
Proof.
  split; [|intros ->; reflexivity].
  intros Hnil. destruct groups as [|g groups]; [reflexivity|]. exfalso.
  assert (Hin : PyDict.contains (Group.name g) (PyDict.of_groups (g :: groups)) = true)
    by (apply of_groups_contains; left; reflexivity).
  rewrite Hnil in Hin. discriminate.
Qed.

Section ResolverClaims.
Context {St : Type} `{ZPAClient St}.

Lemma list_server_groups_run (st : St) :
  list_server_groups st =
  match list_server_groups_call st with
  | (inl groups, st') =>
      mkOutcome (inr (PyDict.of_groups groups)) st' [EvListServerGroups (inl groups)]
  | (inr err, st') =>
      mkOutcome (inr []) st'
                [EvListServerGroups (inr err); EvPrint (MsgFetchServerGroupsFailed err)]
  end.
Proof.
  unfold list_server_groups. rewrite bind_call.
  destruct (list_server_groups_call st) as [[groups|err] st']; reflexivity.
Qed.

Lemma list_segment_groups_run (st : St) :
  list_segment_groups st =
  match list_segment_groups_call st with
  | (inl groups, st') =>
      mkOutcome (inr (PyDict.of_groups groups)) st' [EvListSegmentGroups (inl groups)]
  | (inr err, st') =>
      mkOutcome (inr []) st'
                [EvListSegmentGroups (inr err); EvPrint (MsgFetchSegmentGroupsFailed err)]
  end.
Proof.
  unfold list_segment_groups. rewrite bind_call.
  destruct (list_segment_groups_call st) as [[groups|err] st']; reflexivity.
Qed.

(** X4: the name-to-id map that [list_server_groups] builds from a
    successful listing holds exactly the listed names, and when several
    groups share a name the identifier of the last one listed is the one
    kept. *)
Theorem server_groups_last_listing_wins
    (pre post : list Group.t) (g : Group.t) (st st' : St) :
  list_server_groups_call st = (inl (pre ++ g :: post), st') ->
  Forall (fun g' => Group.name g' <> Group.name g) post ->
  exists server_groups,
    result (list_server_groups st) = inr server_groups
    /\ PyDict.get (Group.name g) server_groups = Some (Group.id g)
    /\ (forall name, PyDict.contains name server_groups = true <->
                     In name (map Group.name (pre ++ g :: post)))
    /\ printed (emitted (list_server_groups st)) = [].
Proof.
  intros Hcall Hpost. rewrite list_server_groups_run, Hcall.
  eexists. split; [reflexivity|]. split; [|split].
  - apply of_groups_last_wins, Hpost.
  - intros name. apply of_groups_contains.
  - reflexivity.
Qed.

(** X5: the keys of the map built from a listing are pairwise distinct and
    keep the order of first appearance, so the name the validator of
    [segment_maker.py] suggests ("the first key") is the name of the first
    group listed; with an empty listing it is the given default. *)
Theorem reference_map_first_key (g : Group.t) (rest : list Group.t) (dflt : string) :
  NoDup (map fst (PyDict.of_groups (g :: rest)))
  /\ PyDict.first_key_or (PyDict.of_groups (g :: rest)) dflt = Group.name g
  /\ PyDict.first_key_or (PyDict.of_groups []) dflt = dflt.
Proof.
  unfold PyDict.of_groups. cbn [fold_left PyDict.set].
  destruct (of_groups_fold_keys rest [(Group.name g, Group.id g)])
    as (Hnd & _ & Hhd).
  { cbn. apply NoDup_singleton. }
  split; [exact Hnd|]. split; [|reflexivity].
  specialize (Hhd (Group.name g) eq_refl).
  destruct (fold_left _ rest _) as [|[k v] d]; [discriminate|].
  cbn in Hhd |- *. congruence.
Qed.
End ResolverClaims.

Lemma server_groups_last_listing_wins_witness :
  exists server_groups,
    result (list_server_groups (H := MockTenant.client) []) = inr server_groups
    /\ PyDict.get "sg1" server_groups = Some "101".
Proof.
  destruct (server_groups_last_listing_wins
              (H := MockTenant.client) [] [] (Group.mk "sg1" "101") [] [])
    as (d & Hd & Hget & _).
  - reflexivity.
  - constructor.
  - exists d. split; [exact Hd | exact Hget].
Defined.

(** ** The validator of segment_maker.py, in full *)

Lemma get_none_contains key d : PyDict.get key d = None -> PyDict.contains key d = false.
Proof.
  intros Hnone. destruct (PyDict.contains key d) eqn:Hc; [|reflexivity].
  destruct (contains_get _ _ Hc) as [v Hv]. congruence.
Qed.

(** The loop over the server-group names reports every unknown name and
    collects the identifier of every known one, both in input order. *)
Lemma resolve_steps_spec server_groups names : forall errors ids,
  fold_left (SegmentMaker.resolve_step server_groups) names (errors, ids) =
  (errors ++ map (fun n => ServerGroupInvalid n
                             (PyDict.first_key_or server_groups "Unknown"))
                 (List.filter (fun n => negb (PyDict.contains n server_groups)) names),
   ids ++ omap (fun n => PyDict.get n server_groups) names).
Proof.
  induction names as [|n names IH]; intros errors ids.
  - cbn. rewrite !app_nil_r. reflexivity.
  - cbn [fold_left List.filter omap list_omap]. unfold SegmentMaker.resolve_step at 2.
    destruct (PyDict.get n server_groups) as [sg_id|] eqn:Hget.
    + rewrite (get_contains _ _ _ Hget). cbn [negb]. rewrite IH, <- app_assoc.
      reflexivity.
    + rewrite (get_none_contains _ _ Hget). cbn [negb map]. rewrite IH, <- app_assoc.
      reflexivity.
Qed.

Lemma validate_row_normal_form row server_groups segment_groups
    name segment_group_name server_group_names domain_names :
  let server_group_ids := omap (fun n => PyDict.get n server_groups) server_group_names in
  let errors :=
    (if PyStr.truthy name then [] else [NameRequired])
    ++ (if negb (PyStr.truthy segment_group_name)
           || negb (PyDict.contains segment_group_name segment_groups)
        then [SegmentGroupInvalid (PyDict.first_key_or segment_groups "Unknown")]
        else [])
    ++ (match domain_names with [] => [DomainsRequired] | _ :: _ => [] end)
    ++ map (fun n => ServerGroupInvalid n (PyDict.first_key_or server_groups "Unknown"))
           (List.filter (fun n => negb (PyDict.contains n server_groups))
                        server_group_names)
    ++ (match server_group_ids with [] => [ServerGroupsMissing] | _ :: _ => [] end) in
  SegmentMaker.validate_row row server_groups segment_groups
    name segment_group_name server_group_names domain_names =
  match errors with
  | _ :: _ =>
      (MsgRowValidationFailed (PyStr.or_else (Some name) "Unnamed")
         :: map MsgRowError errors, inr None)
  | [] =>
      ([],
       let? description := strip_of (row_get_default row "DESCRIPTION" "") in
       inr (Some {|
         Payload.name := name;
         Payload.description := description;
         Payload.enabled := str2bool (row_get_default row "ENABLED" "true");
         Payload.segment_group_id := PyDict.get segment_group_name segment_groups;
         Payload.server_group_ids := server_group_ids;
         Payload.domain_names := domain_names;
         Payload.tcp_port_range :=
           SegmentMaker.parse_ports (row_get_default row "TCP_PORTS" "");
         Payload.udp_port_range :=
           SegmentMaker.parse_ports (row_get_default row "UDP_PORTS" "");
         Payload.double_encrypt := str2bool (row_get_default row "DOUBLE_ENCRYPT" "false");
         Payload.app_protection_enabled := None
       |}))
  end.
Proof.
  cbn zeta. unfold SegmentMaker.validate_row, SegmentMaker.resolve_server_groups.
  rewrite resolve_steps_spec. cbn [app].
  destruct (PyStr.truthy name);
    destruct (negb (PyStr.truthy segment_group_name)
              || negb (PyDict.contains segment_group_name segment_groups));
    destruct domain_names;
    destruct (List.filter (fun n => negb (PyDict.contains n server_groups))
                server_group_names);
    destruct (omap (fun n => PyDict.get n server_groups) server_group_names);
    cbn [app map negb]; rewrite ?app_nil_r; reflexivity.
Qed.

Lemma unknown_names_nil d names :
  List.filter (fun n => negb (PyDict.contains n d)) names = [] <->
  Forall (fun n => PyDict.contains n d = true) names.
Proof.
  induction names as [|n names IH]; cbn [List.filter].
  - split; constructor.
  - destruct (PyDict.contains n d) eqn:Hc; cbn [negb].
    + rewrite IH. split; [constructor; assumption|].
      intros Hall. inversion Hall; assumption.
    + split; [discriminate|]. intros Hall. inversion Hall; congruence.
Qed.

Lemma known_names_ids d names :
  Forall (fun n => PyDict.contains n d = true) names ->
  Forall2 (fun n id => PyDict.get n d = Some id) names
          (omap (fun n => PyDict.get n d) names).
Proof.
  induction 1 as [|n names Hn _ IH]; [constructor|].
  cbn [omap list_omap]. destruct (contains_get _ _ Hn) as [v Hv]. rewrite Hv.
  constructor; assumption.
Qed.

(** X6: [segment_maker.parse_csv_row] accepts a row exactly when its
    NAME, SEGMENT_GROUP_ID, SERVER_GROUP_IDS, DOMAINS and DESCRIPTION cells
    are text (no cell is [None]) and, after trimming, the name is
    non-empty, the segment-group name is non-empty and a key of the
    segment-group map, there is at least one domain and at least one
    server-group name, and every server-group name is a key of the
    server-group map.  The payload then carries the identifiers the names
    map to, in input order, the segment group's identifier, the trimmed
    name and the trimmed non-empty domains; and nothing is printed.  A row
    with [None] in one of the first four cells raises [AttributeError], and
    so does a row that meets the conditions on its texts but whose
    DESCRIPTION cell is [None]; nothing is printed then either. *)
Theorem segment_maker_accepts_iff (row : RawRecord) (server_groups segment_groups : PyDict.t) :
  let name := PyStr.strip (cell_text row "NAME") in
  let segment_group_name := PyStr.strip (cell_text row "SEGMENT_GROUP_ID") in
  let server_group_names :=
    SegmentMaker.split_names (cell_text row "SERVER_GROUP_IDS") in
  let domain_names := SegmentMaker.split_names (cell_text row "DOMAINS") in
  let read_first :=
    cell_is_none row "NAME" || cell_is_none row "SEGMENT_GROUP_ID"
    || cell_is_none row "SERVER_GROUP_IDS" || cell_is_none row "DOMAINS" in
  let valid :=
    name <> "" /\ segment_group_name <> ""
    /\ PyDict.contains segment_group_name segment_groups = true
    /\ domain_names <> [] /\ server_group_names <> []
    /\ Forall (fun n => PyDict.contains n server_groups = true) server_group_names in
  ((read_first = false /\ cell_is_none row "DESCRIPTION" = false /\ valid)
   <->
   (exists p,
      SegmentMaker.parse_csv_row row server_groups segment_groups = ([], inr (Some p))
      /\ Payload.name p = name
      /\ Payload.domain_names p = domain_names
      /\ Forall2 (fun n id => PyDict.get n server_groups = Some id)
                 server_group_names (Payload.server_group_ids p)
      /\ (exists gid, Payload.segment_group_id p = Some gid
                      /\ PyDict.get segment_group_name segment_groups = Some gid)))
  /\ (read_first = true ->
      SegmentMaker.parse_csv_row row server_groups segment_groups
      = ([], inl AttributeError))
  /\ (read_first = false -> cell_is_none row "DESCRIPTION" = true -> valid ->
      SegmentMaker.parse_csv_row row server_groups segment_groups
      = ([], inl AttributeError)).
Proof.
  cbn zeta.
  destruct (segment_maker_parse_cases row server_groups segment_groups)
    as [[Hnone Hraise]|(Hn & Hs & Hg & Hd & Hparse)].
  { rewrite Hnone, Hraise. split; [split|split].
    - intros (? & _). discriminate.
    - intros (p & ? & _). discriminate.
    - reflexivity.
    - discriminate. }
  rewrite Hn, Hs, Hg, Hd, Hparse. cbn [orb].
  pose proof (validate_row_normal_form row server_groups segment_groups
                (PyStr.strip (cell_text row "NAME"))
                (PyStr.strip (cell_text row "SEGMENT_GROUP_ID"))
                (SegmentMaker.split_names (cell_text row "SERVER_GROUP_IDS"))
                (SegmentMaker.split_names (cell_text row "DOMAINS"))) as Hnf.
  cbn zeta in Hnf. rewrite Hnf. clear Hnf Hparse.
  set (name := PyStr.strip (cell_text row "NAME")) in *.
  set (sgn := PyStr.strip (cell_text row "SEGMENT_GROUP_ID")) in *.
  set (names := SegmentMaker.split_names (cell_text row "SERVER_GROUP_IDS")) in *.
  set (domains := SegmentMaker.split_names (cell_text row "DOMAINS")) in *.
  assert (Hvalid :
    name <> "" /\ sgn <> "" /\ PyDict.contains sgn segment_groups = true
    /\ domains <> [] /\ names <> []
    /\ Forall (fun n => PyDict.contains n server_groups = true) names ->
    (if PyStr.truthy name then [] else [NameRequired])
    ++ (if negb (PyStr.truthy sgn) || negb (PyDict.contains sgn segment_groups)
        then [SegmentGroupInvalid (PyDict.first_key_or segment_groups "Unknown")]
        else [])
    ++ (match domains with [] => [DomainsRequired] | _ :: _ => [] end)
    ++ map (fun n => ServerGroupInvalid n (PyDict.first_key_or server_groups "Unknown"))
           (List.filter (fun n => negb (PyDict.contains n server_groups)) names)
    ++ (match omap (fun n => PyDict.get n server_groups) names with
        | [] => [ServerGroupsMissing] | _ :: _ => [] end) = []
    /\ Forall2 (fun n id => PyDict.get n server_groups = Some id) names
               (omap (fun n => PyDict.get n server_groups) names)
    /\ exists gid, PyDict.get sgn segment_groups = Some gid).
  { intros (Hname & Hsgn & Hseg & Hdom & Hnames & Hknown).
    pose proof (known_names_ids _ _ Hknown) as Hids.
    rewrite (proj2 (unknown_names_nil _ _) Hknown), Hseg.
    split; [|split; [exact Hids | apply contains_get, Hseg]].
    destruct (omap (fun n => PyDict.get n server_groups) names) as [|id ids'].
    { inversion Hids. congruence. }
    destruct (PyStr.truthy name) eqn:Htn; [|destruct name; [congruence|discriminate]].
    destruct (PyStr.truthy sgn) eqn:Hts; [|destruct sgn; [congruence|discriminate]].
    destruct domains as [|dm domains']; [congruence|]. reflexivity. }
  split; [split|split].
  - intros (_ & Hdesc & Hok). destruct (Hvalid Hok) as (-> & Hids & gid & Hgid).
    rewrite (cell_text_some _ _ Hdesc). cbn [strip_of and_then].
    eexists. split; [reflexivity|]. cbn [Payload.name Payload.domain_names
      Payload.server_group_ids Payload.segment_group_id].
    repeat split; try assumption. exists gid. auto.
  - intros (p & Hparse & _).
    match type of Hparse with match ?e with _ => _ end = _ => destruct e eqn:Herr end;
      [|discriminate].
    assert (Hdesc : cell_is_none row "DESCRIPTION" = false).
    { destruct (cell_is_none row "DESCRIPTION") eqn:Hdesc; [|reflexivity].
      rewrite (cell_none _ _ Hdesc) in Hparse. discriminate. }
    split; [reflexivity|]. split; [exact Hdesc|].
    apply app_eq_nil in Herr as [Hname Herr]. apply app_eq_nil in Herr as [Hseg Herr].
    apply app_eq_nil in Herr as [Hdom Herr]. apply app_eq_nil in Herr as [Hunk Hmiss].
    apply map_eq_nil in Hunk. apply unknown_names_nil in Hunk.
    assert (Hnames : names <> []).
    { intros Hnil. rewrite Hnil in Hmiss. discriminate. }
    destruct (PyStr.truthy name) eqn:Htn; [|discriminate].
    destruct (negb (PyStr.truthy sgn) || negb (PyDict.contains sgn segment_groups))
      eqn:Hbad; [discriminate|].
    apply orb_false_elim in Hbad as [Hts Hcs].
    apply negb_false_iff in Hts, Hcs.
    repeat split; try assumption.
    + intros Hnil. rewrite Hnil in Htn. discriminate.
    + intros Hnil. rewrite Hnil in Hts. discriminate.
    + intros Hnil. rewrite Hnil in Hdom. discriminate.
  - discriminate.
  - intros _ Hdesc Hok. destruct (Hvalid Hok) as (-> & _).
    rewrite (cell_none _ _ Hdesc). reflexivity.
Qed.

Lemma omap_get_nil d names :
  omap (fun n => PyDict.get n d) names = [] <->
  Forall (fun n => PyDict.contains n d = false) names.
Proof.
  induction names as [|n names IH]; cbn [omap list_omap].
  - split; constructor.
  - destruct (PyDict.get n d) as [v|] eqn:Hget.
    + split; [discriminate|]. intros Hall. inversion Hall as [|? ? Hn _]; subst.
      rewrite (get_contains _ _ _ Hget) in Hn. discriminate.
    + rewrite IH. split.
      * intros Hall. constructor; [apply get_none_contains, Hget | exact Hall].
      * intros Hall. inversion Hall; assumption.
Qed.

Lemma invalid_names_back suggested names :
  flat_map (fun e => match e with ServerGroupInvalid n _ => [n] | _ => [] end)
           (map (fun n => ServerGroupInvalid n suggested) names) = names.
Proof. induction names as [|n names IH]; cbn; [|rewrite IH]; reflexivity. Qed.

Lemma in_invalid_names e suggested names :
  In e (map (fun n => ServerGroupInvalid n suggested) names) ->
  exists n, e = ServerGroupInvalid n suggested.
Proof. intros Hin. apply in_map_iff in Hin as (n & <- & _). eauto. Qed.

(** X7: when [segment_maker.parse_csv_row] rejects a row it reports all of
    the row's problems together: a header naming the row ("Unnamed" when the
    name is empty) followed by one line per error; every server-group name
    that is not in the map is reported, in input order; NAME is reported
    exactly when the trimmed name is empty, DOMAINS exactly when no domain
    is left after trimming, and "all invalid or missing" exactly when no
    server-group name resolves. *)
Theorem segment_maker_reports_all_errors
    (row : RawRecord) (server_groups segment_groups : PyDict.t) :
  let name := PyStr.strip (cell_text row "NAME") in
  let server_group_names :=
    SegmentMaker.split_names (cell_text row "SERVER_GROUP_IDS") in
  let domain_names := SegmentMaker.split_names (cell_text row "DOMAINS") in
  snd (SegmentMaker.parse_csv_row row server_groups segment_groups) = inr None ->
  exists errors,
    fst (SegmentMaker.parse_csv_row row server_groups segment_groups) =
      MsgRowValidationFailed (if PyStr.truthy name then name else "Unnamed")
        :: map MsgRowError errors
    /\ errors <> []
    /\ flat_map (fun e => match e with ServerGroupInvalid n _ => [n] | _ => [] end) errors
       = List.filter (fun n => negb (PyDict.contains n server_groups)) server_group_names
    /\ (In NameRequired errors <-> name = "")
    /\ (In DomainsRequired errors <-> domain_names = [])
    /\ (In ServerGroupsMissing errors <->
        Forall (fun n => PyDict.contains n server_groups = false) server_group_names).
Proof.
  cbn zeta.
  destruct (segment_maker_parse_cases row server_groups segment_groups)
    as [[_ ->]|(_ & _ & _ & _ & ->)]; [discriminate|].
  pose proof (validate_row_normal_form row server_groups segment_groups
                (PyStr.strip (cell_text row "NAME"))
                (PyStr.strip (cell_text row "SEGMENT_GROUP_ID"))
                (SegmentMaker.split_names (cell_text row "SERVER_GROUP_IDS"))
                (SegmentMaker.split_names (cell_text row "DOMAINS"))) as Hnf.
  cbn zeta in Hnf.
  set (name := PyStr.strip (cell_text row "NAME")) in *.
  set (sgn := PyStr.strip (cell_text row "SEGMENT_GROUP_ID")) in *.
  set (names := SegmentMaker.split_names (cell_text row "SERVER_GROUP_IDS")) in *.
  set (domains := SegmentMaker.split_names (cell_text row "DOMAINS")) in *.
  set (e1 := if PyStr.truthy name then [] else [NameRequired]) in *.
  set (e2 := if negb (PyStr.truthy sgn) || negb (PyDict.contains sgn segment_groups)
             then [SegmentGroupInvalid (PyDict.first_key_or segment_groups "Unknown")]
             else []) in *.
  set (e3 := match domains with [] => [DomainsRequired] | _ :: _ => [] end) in *.
  set (e4 := map (fun n => ServerGroupInvalid n
                             (PyDict.first_key_or server_groups "Unknown"))
                 (List.filter (fun n => negb (PyDict.contains n server_groups)) names))
    in *.
  set (e5 := match omap (fun n => PyDict.get n server_groups) names with
             | [] => [ServerGroupsMissing] | _ :: _ => [] end) in *.
  rewrite Hnf. clear Hnf.
  destruct (e1 ++ e2 ++ e3 ++ e4 ++ e5) as [|e errors] eqn:Herrors.
  { cbn [snd]. destruct (row_get_default row "DESCRIPTION" ""); discriminate. }
  intros _. exists (e1 ++ e2 ++ e3 ++ e4 ++ e5). cbn [fst].
  assert (H1 : forall x, In x e1 -> x = NameRequired /\ name = "").
  { subst e1. intros x. destruct name; cbn; [intros [<-|[]]; auto | intros []]. }
  assert (H2 : forall x, In x e2 -> exists s, x = SegmentGroupInvalid s).
  { subst e2. intros x. destruct (_ || _); cbn; [intros [<-|[]]; eauto | intros []]. }
  assert (H3 : forall x, In x e3 -> x = DomainsRequired /\ domains = []).
  { subst e3. intros x. destruct domains; cbn; [intros [<-|[]]; auto | intros []]. }
  assert (H5 : forall x, In x e5 ->
            x = ServerGroupsMissing /\
            omap (fun n => PyDict.get n server_groups) names = []).
  { subst e5. intros x. destruct (omap _ names); cbn; [intros [<-|[]]; auto | intros []]. }
  split; [|split; [|split; [|split; [|split]]]].
  - rewrite Herrors. reflexivity.
  - rewrite Herrors. discriminate.
  - rewrite !flat_map_app. subst e4. rewrite invalid_names_back.
    assert (Hz : forall l, (forall x, In x l -> forall n s, x <> ServerGroupInvalid n s) ->
              flat_map (fun e => match e with ServerGroupInvalid n _ => [n] | _ => [] end) l
              = []).
    { induction l as [|x l IH]; intros Hl; [reflexivity|]. cbn.
      rewrite IH by (intros y Hy; apply Hl; right; exact Hy).
      destruct x; try reflexivity. exfalso. eapply Hl; [left|]; reflexivity. }
    rewrite (Hz e1), (Hz e2), (Hz e3), (Hz e5); [rewrite app_nil_r; reflexivity|..].
    + intros x Hx n s ->. destruct (H5 _ Hx). discriminate.
    + intros x Hx n s ->. destruct (H3 _ Hx). discriminate.
    + intros x Hx n s ->. destruct (H2 _ Hx). discriminate.
    + intros x Hx n s ->. destruct (H1 _ Hx). discriminate.
  - rewrite !in_app_iff. split.
    + intros [Hx|[Hx|[Hx|[Hx|Hx]]]].
      * apply (H1 _ Hx).
      * destruct (H2 _ Hx). discriminate.
      * destruct (H3 _ Hx). discriminate.
      * destruct (in_invalid_names _ _ _ Hx). discriminate.
      * destruct (H5 _ Hx). discriminate.
    + intros Hn. left. subst e1. rewrite Hn. left. reflexivity.
  - rewrite !in_app_iff. split.
    + intros [Hx|[Hx|[Hx|[Hx|Hx]]]].
      * destruct (H1 _ Hx). discriminate.
      * destruct (H2 _ Hx). discriminate.
      * apply (H3 _ Hx).
      * destruct (in_invalid_names _ _ _ Hx). discriminate.
      * destruct (H5 _ Hx). discriminate.
    + intros Hd. right. right. left. subst e3. rewrite Hd. left. reflexivity.
  - rewrite <- omap_get_nil, !in_app_iff. split.
    + intros [Hx|[Hx|[Hx|[Hx|Hx]]]].
      * destruct (H1 _ Hx). discriminate.
      * destruct (H2 _ Hx). discriminate.
      * destruct (H3 _ Hx). discriminate.
      * destruct (in_invalid_names _ _ _ Hx). discriminate.
      * apply (H5 _ Hx).
    + intros Hd. right. right. right. right. subst e5. rewrite Hd. left. reflexivity.
Qed.

Lemma segment_maker_reports_all_errors_witness :
  exists errors,
    fst (SegmentMaker.parse_csv_row
           (Fixtures.raw [("NAME", " "); ("DOMAINS", "a.example.com");
                          ("SERVER_GROUP_IDS", "sg9, sg1 ,sg7");
                          ("SEGMENT_GROUP_ID", "grp1")])
           Fixtures.server_groups Fixtures.segment_groups)
    = MsgRowValidationFailed "Unnamed" :: map MsgRowError errors
    /\ flat_map (fun e => match e with ServerGroupInvalid n _ => [n] | _ => [] end) errors
       = ["sg9"; "sg7"].
Proof.
  destruct (segment_maker_reports_all_errors
              (Fixtures.raw [("NAME", " "); ("DOMAINS", "a.example.com");
                             ("SERVER_GROUP_IDS", "sg9, sg1 ,sg7");
                             ("SEGMENT_GROUP_ID", "grp1")])
              Fixtures.server_groups Fixtures.segment_groups)
    as (errors & Hout & _ & Hunknown & _).
  - vm_compute. reflexivity.
  - exists errors. split; [exact Hout|]. rewrite Hunknown. vm_compute. reflexivity.
Defined.

(** ** The row parser of import_segments.py *)

Lemma import_parse_warnings reader :
  flat_map (fun raw => fst (ImportSegments.parse_csv_row raw)) reader =
  map MsgMissingRequired (List.filter (fun raw => negb (has_required raw)) reader).
Proof.
  induction reader as [|raw reader IH]; [reflexivity|].
  cbn [flat_map List.filter]. rewrite IH.
  destruct (import_parse_cases raw)
    as [[Hreq ->]|[(Hreq & _ & ->)|(Hreq & _ & _ & ->)]]; rewrite Hreq; reflexivity.
Qed.

Lemma cell_truthy_spec (raw : RawRecord) key :
  ImportSegments.cell_truthy raw key = true <->
  exists v, raw !! key = Some (Some v) /\ v <> "".
Proof.
  unfold ImportSegments.cell_truthy, row_get. destruct (raw !! key) as [[v|]|].
  - destruct v; cbn; split; try discriminate.
    + intros (v & [= <-] & Hne). congruence.
    + intros _. eexists. split; [reflexivity | discriminate].
    + auto.
  - split; [discriminate|]. intros (v & Hv & _). discriminate.
  - split; [discriminate|]. intros (v & Hv & _). discriminate.
Qed.

Lemma cell_is_none_spec (raw : RawRecord) key :
  cell_is_none raw key = true <-> raw !! key = Some None.
Proof.
  unfold cell_is_none, row_get_default. destruct (raw !! key) as [[v|]|];
    split; congruence.
Qed.

Lemma omap_filter_accepted {A B} (f : A -> option B) (p : A -> bool) (l : list A) :
  Forall (fun x => p x = true <-> is_Some (f x)) l ->
  omap f l = omap f (List.filter p l)
  /\ length (List.filter (fun x => negb (p x)) l) + length (omap f l) = length l.
Proof.
  induction 1 as [|x l Hp _ [IH1 IH2]]; [split; reflexivity|].
  cbn [List.filter omap list_omap]. destruct (p x) eqn:Hx; cbn [negb].
  - destruct (proj1 Hp eq_refl) as [y Hy]. cbn [omap list_omap]. rewrite Hy.
    split; [f_equal; exact IH1|]. cbn [length]. lia.
  - destruct (f x) as [y|] eqn:Hy.
    + assert (false = true) by (apply Hp; eauto). discriminate.
    + split; [exact IH1|]. cbn [length]. lia.
Qed.

(** A record makes [import_segments.parse_csv_row] raise exactly when it
    passes the mandatory-field test and its DESCRIPTION or
    SEGMENT_GROUP_ID cell is [None]. *)
Lemma import_raises_iff raw :
  raises (snd (ImportSegments.parse_csv_row raw)) =
  has_required raw
  && (cell_is_none raw "DESCRIPTION" || cell_is_none raw "SEGMENT_GROUP_ID").
Proof.
  destruct (import_parse_cases raw)
    as [[Hreq ->]|[(Hreq & Hnone & ->)|(Hreq & Hdesc & Hseg & ->)]];
    rewrite Hreq, ?Hnone, ?Hdesc, ?Hseg; reflexivity.
Qed.

Lemma import_accepted_iff raw :
  raises (snd (ImportSegments.parse_csv_row raw)) = false ->
  has_required raw = true <-> is_Some (kept (snd (ImportSegments.parse_csv_row raw))).
Proof.
  destruct (import_parse_cases raw)
    as [[Hreq ->]|[(Hreq & _ & ->)|(Hreq & _ & _ & ->)]]; rewrite Hreq; cbn.
  - intros _. split; [discriminate | intros [? [=]]].
  - discriminate.
  - intros _. split; [eauto | reflexivity].
Qed.

(** X8: [import_segments.py] turns each record of the file into one
    parsed row, or exactly one warning that carries the record, or an
    [AttributeError].  A record passes the mandatory-field test exactly
    when its NAME, DOMAINS and SERVER_GROUP_IDS cells are text and
    non-empty as they stand (before trimming); a record that fails it
    gives the warning; a record that passes it gives a row when its
    DESCRIPTION and SEGMENT_GROUP_ID cells are not [None], and raises
    [AttributeError], with nothing printed, when one of them is.  Over a
    file in which no record raises, the rows and the warnings are both in
    input order and together account for every record; the first record
    that raises ends the run with the warnings of the records before it. *)
Theorem import_rows_partition (reader : list RawRecord) :
  let short raw :=
    has_required raw
    && (cell_is_none raw "DESCRIPTION" || cell_is_none raw "SEGMENT_GROUP_ID") in
  (forall raw,
     (has_required raw = true <->
      exists n d s, raw !! "NAME" = Some (Some n) /\ n <> ""
                    /\ raw !! "DOMAINS" = Some (Some d) /\ d <> ""
                    /\ raw !! "SERVER_GROUP_IDS" = Some (Some s) /\ s <> "")
     /\ (has_required raw = false ->
         ImportSegments.parse_csv_row raw = ([MsgMissingRequired raw], inr None))
     /\ (short raw = true ->
         ImportSegments.parse_csv_row raw = ([], inl AttributeError))
     /\ (has_required raw = true -> short raw = false ->
         exists r, ImportSegments.parse_csv_row raw = ([], inr (Some r))))
  /\ (Forall (fun raw => short raw = false) reader ->
      exists rows,
        ImportSegments.parse_rows reader =
          (map MsgMissingRequired
               (List.filter (fun raw => negb (has_required raw)) reader),
           inr rows)
        /\ rows = omap (fun raw => kept (snd (ImportSegments.parse_csv_row raw)))
                       (List.filter has_required reader)
        /\ length (List.filter (fun raw => negb (has_required raw)) reader)
           + length rows = length reader)
  /\ (forall pre raw post,
        reader = pre ++ raw :: post ->
        Forall (fun raw => short raw = false) pre -> short raw = true ->
        ImportSegments.parse_rows reader =
          (map MsgMissingRequired
               (List.filter (fun raw => negb (has_required raw)) pre),
           inl AttributeError)).
Proof.
  cbn zeta. split; [|split].
  - intros raw. split; [|split; [|split]].
    + unfold has_required. rewrite !andb_true_iff, !cell_truthy_spec. split.
      * intros [[(n & ? & ?) (d & ? & ?)] (s0 & ? & ?)]. exists n, d, s0.
        repeat split; assumption.
      * intros (n & d & s0 & ? & ? & ? & ? & ? & ?).
        repeat split; eexists; split; eassumption.
    + intros Hreq.
      destruct (import_parse_cases raw)
        as [[_ ->]|[(Hreq' & _)|(Hreq' & _)]]; [reflexivity|congruence..].
    + intros Hshort. apply andb_prop in Hshort as [Hreq Hnone].
      destruct (import_parse_cases raw)
        as [[Hreq' _]|[(_ & _ & ->)|(_ & Hdesc & Hseg & _)]]; [congruence|reflexivity|].
      rewrite Hdesc, Hseg in Hnone. discriminate.
    + intros Hreq Hshort. rewrite Hreq in Hshort. cbn [andb] in Hshort.
      destruct (import_parse_cases raw)
        as [[Hreq' _]|[(_ & Hnone & _)|(_ & _ & _ & ->)]]; [congruence..|eauto].
  - intros Hok.
    assert (Hnoraise : Forall (fun raw =>
              raises (snd (ImportSegments.parse_csv_row raw)) = false) reader).
    { eapply Forall_impl; [exact Hok|]. intros raw Hraw.
      rewrite import_raises_iff. exact Hraw. }
    unfold ImportSegments.parse_rows.
    rewrite (collect_rows_ok _ _ Hnoraise), import_parse_warnings.
    eexists. split; [reflexivity|].
    destruct (omap_filter_accepted
                (fun raw => kept (snd (ImportSegments.parse_csv_row raw)))
                has_required reader) as [Hrows Hlen].
    { eapply Forall_impl; [exact Hnoraise|]. intros raw. apply import_accepted_iff. }
    split; [exact Hrows | exact Hlen].
  - intros pre raw post -> Hpre Hshort.
    assert (Hnoraise : Forall (fun raw =>
              raises (snd (ImportSegments.parse_csv_row raw)) = false) pre).
    { eapply Forall_impl; [exact Hpre|]. intros r Hr.
      rewrite import_raises_iff. exact Hr. }
    apply andb_prop in Hshort as [Hreq Hnone].
    destruct (import_parse_cases raw)
      as [[Hreq' _]|[(_ & _ & Hparse)|(_ & Hdesc & Hseg & _)]]; [congruence| |].
    2:{ rewrite Hdesc, Hseg in Hnone. discriminate. }
    unfold ImportSegments.parse_rows.
    rewrite (collect_rows_raises _ pre raw post AttributeError Hnoraise)
      by (rewrite Hparse; reflexivity).
    rewrite import_parse_warnings, Hparse. cbn [fst]. rewrite app_nil_r. reflexivity.
Qed.

Lemma import_rows_partition_witness :
  ImportSegments.parse_rows [Fixtures.raw [("NAME", "web4")]; Fixtures.web1_raw]
  = ([MsgMissingRequired (Fixtures.raw [("NAME", "web4")])],
     inr [ImportSegments.mkRow "web1" "" true "grp1" ["sg1"] ["a.example.com"]
                               ["443"] [] false true false false])
  /\ ImportSegments.parse_rows
       ([Fixtures.raw [("NAME", "web4")]] ++ Fixtures.short_line_raw
          :: [Fixtures.web1_raw])
     = ([MsgMissingRequired (Fixtures.raw [("NAME", "web4")])], inl AttributeError).
Proof.
  split.
  - destruct (import_rows_partition
                [Fixtures.raw [("NAME", "web4")]; Fixtures.web1_raw])
      as (_ & Hcomplete & _).
    destruct Hcomplete as (rows & Hparsed & Hrows & _).
    + repeat constructor.
    + rewrite Hparsed, Hrows. vm_compute. reflexivity.
  - destruct (import_rows_partition
                ([Fixtures.raw [("NAME", "web4")]] ++ Fixtures.short_line_raw
                   :: [Fixtures.web1_raw]))
      as (_ & _ & Hshort).
    rewrite (Hshort [Fixtures.raw [("NAME", "web4")]] Fixtures.short_line_raw
                    [Fixtures.web1_raw] eq_refl).
    + vm_compute. reflexivity.
    + repeat constructor.
    + vm_compute. reflexivity.
Defined.

(** ** Counting the child applications *)

Lemma children_configured_app e1 e2 :
  children_configured (e1 ++ e2) = children_configured e1 + children_configured e2.
Proof. unfold children_configured. rewrite List.filter_app, length_app. reflexivity. Qed.

Lemma segment_listings_app e1 e2 :
  segment_listings (e1 ++ e2) = segment_listings e1 + segment_listings e2.
Proof. unfold segment_listings. rewrite List.filter_app, length_app. reflexivity. Qed.

Lemma no_listing_facts evs :
  Forall (fun ev => is_listing_call ev = false) evs -> segment_listings evs = 0.
Proof.
  induction 1 as [|ev evs Hev _ IH]; [reflexivity|].
  destruct ev; try discriminate Hev; exact IH.
Qed.

Section ImportCounts.
Context {St : Type} `{ZPAClient St}.
Import ImportSegments.

Lemma add_ba_app_configured base parent_id domain port n (st : St) evs :
  counts_children base n evs ->
  exists n', result (add_ba_app parent_id domain port n st) = inr n' /\
             counts_children base n' (evs ++ emitted (add_ba_app parent_id domain port n st)).
Proof.
  intros [Hn Hall]. unfold add_ba_app. rewrite bind_print, bind_call.
  cbn [result tenant emitted].
  destruct (ba_add_segment _ st) as [[e|] st']; cbn [fst snd]; eexists;
    (split; [reflexivity|]); (split; [|apply Forall_app; split;
       [exact Hall | repeat constructor]]);
    rewrite children_configured_app; cbn; lia.
Qed.

Lemma add_pra_app_configured base parent_id domain port n (st : St) evs :
  counts_children base n evs ->
  exists n', result (add_pra_app parent_id domain port n st) = inr n' /\
             counts_children base n' (evs ++ emitted (add_pra_app parent_id domain port n st)).
Proof.
  intros [Hn Hall]. unfold add_pra_app. destruct (pra_protocol port) as [protocol|].
  - rewrite bind_print, bind_call. cbn [result tenant emitted].
    destruct (pra_add_segment _ st) as [[e|] st']; cbn [fst snd]; eexists;
      (split; [reflexivity|]); (split; [|apply Forall_app; split;
         [exact Hall | repeat constructor]]);
      rewrite children_configured_app; cbn; lia.
  - exists n. cbn. rewrite app_nil_r. split; [reflexivity|]. split; assumption.
Qed.

Lemma for_pairs_invariant (I : nat -> list Event -> Prop)
    (body : string -> string -> nat -> M St nat) domains ports :
  (forall d p n st evs, I n evs ->
     exists n', result (body d p n st) = inr n' /\ I n' (evs ++ emitted (body d p n st))) ->
  forall n st evs, I n evs ->
    exists n', result (for_pairs domains ports body n st) = inr n' /\
               I n' (evs ++ emitted (for_pairs domains ports body n st)).
Proof.
  intros Hbody n st evs Hinv. unfold for_pairs.
  apply (for_each_invariant
           (fun d acc => for_each ports (fun p acc' => body d p acc') acc) I domains);
    [|exact Hinv].
  intros d acc s evs' _ Hacc.
  apply (for_each_invariant (fun p acc' => body d p acc') I ports); [|exact Hacc].
  intros p a s' evs'' _ Ha. apply Hbody, Ha.
Qed.

Lemma configure_ba_configured base parent_id row n (st : St) evs :
  counts_children base n evs ->
  exists n', result (configure_ba parent_id row n st) = inr n' /\
             counts_children base n' (evs ++ emitted (configure_ba parent_id row n st)).
Proof.
  intros Hinv. unfold configure_ba. destruct (is_browser_access row).
  - rewrite bind_print. cbn [result tenant emitted].
    destruct (for_pairs_invariant (counts_children base) (add_ba_app parent_id)
                (domain_names row) (tcp_ports row)
                (fun d p k s e => add_ba_app_configured base parent_id d p k s e)
                n st (evs ++ [EvPrint MsgConfiguringBA])) as (n' & Hr & Hinv').
    { destruct Hinv as [Hn Hall]. split.
      - rewrite children_configured_app. cbn. lia.
      - apply Forall_app. split; [exact Hall | repeat constructor]. }
    exists n'. split; [exact Hr|]. rewrite <- app_assoc in Hinv'. exact Hinv'.
  - exists n. cbn. rewrite app_nil_r. auto.
Qed.

Lemma configure_pra_configured base parent_id row n (st : St) evs :
  counts_children base n evs ->
  exists n', result (configure_pra parent_id row n st) = inr n' /\
             counts_children base n' (evs ++ emitted (configure_pra parent_id row n st)).
Proof.
  intros Hinv. unfold configure_pra. destruct (is_pra row).
  - rewrite bind_print. cbn [result tenant emitted].
    destruct (for_pairs_invariant (counts_children base) (add_pra_app parent_id)
                (domain_names row) (tcp_ports row)
                (fun d p k s e => add_pra_app_configured base parent_id d p k s e)
                n st (evs ++ [EvPrint MsgConfiguringPRA])) as (n' & Hr & Hinv').
    { destruct Hinv as [Hn Hall]. split.
      - rewrite children_configured_app. cbn. lia.
      - apply Forall_app. split; [exact Hall | repeat constructor]. }
    exists n'. split; [exact Hr|]. rewrite <- app_assoc in Hinv'. exact Hinv'.
  - exists n. cbn. rewrite app_nil_r. auto.
Qed.

Lemma process_row_configured base sgm segm force existing row counts (st : St) evs :
  counts_children base (snd counts) evs ->
  exists counts',
    result (process_row sgm segm force existing row counts st) = inr counts' /\
    counts_children base (snd counts')
      (evs ++ emitted (process_row sgm segm force existing row counts st)).
Proof.
  intros Hinv.
  assert (Hprint : forall m, counts_children base (snd counts) (evs ++ [EvPrint m])).
  { intros m. destruct Hinv as [Hn Hall]. split.
    - rewrite children_configured_app. cbn. lia.
    - apply Forall_app. split; [exact Hall | repeat constructor]. }
  destruct (process_row_run sgm segm force existing row counts st)
    as [ | | | ids gid err st' _ _ _ _ | ids gid pid st' k1 k2 _ _ _ _ Hk1 Hk2];
    try (exists counts; split; [reflexivity | apply Hprint]).
  - exists counts. split; [reflexivity|]. destruct Hinv as [Hn Hall]. split.
    + rewrite children_configured_app. cbn. lia.
    + apply Forall_app. split; [exact Hall | repeat constructor].
  - eexists. split; [reflexivity|]. cbn [snd emitted].
    set (head := [EvPrint (MsgCreatingParent (name row));
                  EvAddSegment (create_payload row gid ids) (inl pid);
                  EvPrint (MsgParentCreated (name row) pid)]).
    assert (Hhead : counts_children base (snd counts) (evs ++ head)).
    { destruct Hinv as [Hn Hall]. split.
      - rewrite children_configured_app. cbn. lia.
      - apply Forall_app. split; [exact Hall | repeat constructor]. }
    destruct (configure_ba_configured base pid row (snd counts) st' _ Hhead)
      as (k1' & Hk1' & Hba).
    assert (k1' = k1) by congruence. subst k1'.
    destruct (configure_pra_configured base pid row k1
                (tenant (configure_ba pid row (snd counts) st')) _ Hba)
      as (k2' & Hk2' & Hpra).
    assert (k2' = k2) by congruence. subst k2'.
    rewrite <- !app_assoc in Hpra. exact Hpra.
Qed.

Lemma batch_configured rows sgm segm force existing (st : St) :
  let o := create_and_configure_segments rows sgm segm force existing st in
  exists created configured,
    result o = inr (created, configured) /\ counts_children 0 configured (emitted o).
Proof.
  cbn zeta. unfold create_and_configure_segments.
  destruct (for_each_invariant (process_row sgm segm force existing)
              (fun acc evs => counts_children 0 (snd acc) evs) rows)
    with (acc := (0, 0)) (st := st) (evs := @nil Event)
    as ([c k] & Hr & Hinv).
  - intros row acc s evs _ Hacc. apply process_row_configured, Hacc.
  - split; [reflexivity | constructor].
  - exists c, k. split; [exact Hr | exact Hinv].
Qed.

(** X9: the second number [create_and_configure_segments] returns, the
    count of configured applications, is exactly the number of child create
    calls (browser access and privileged remote access) that returned no
    error; and the loop never lists anything on the tenant. *)
Theorem configured_count_is_successful_children
    (rows : list Row) (sgm segm : PyDict.t) (force : bool) (existing : gset string)
    (st : St) :
  let o := create_and_configure_segments rows sgm segm force existing st in
  exists created configured,
    result o = inr (created, configured)
    /\ configured = children_configured (emitted o)
    /\ configured <= length (ba_calls (emitted o)) + length (pra_calls (emitted o))
    /\ Forall (fun ev => is_listing_call ev = false) (emitted o).
Proof.
  cbn zeta.
  destruct (batch_configured rows sgm segm force existing st)
    as (c & k & Hr & Hk & Hall).
  exists c, k. repeat split; try assumption.
  rewrite Hk. cbn [Nat.add]. clear.
  induction (emitted _) as [|ev evs IH]; [cbn; lia|].
  unfold children_configured, ba_calls, pra_calls in *.
  destruct ev as [| | | |c [e|]|c [e|]|]; cbn in *; lia.
Qed.
End ImportCounts.

(** ** Which create requests are sent *)

(** The parent create request of an iteration, read off the row, the
    reference maps, the name set and the flag alone. *)
Lemma process_row_parent_calls_plan {St : Type} `{ZPAClient St}
    sgm segm force existing row counts (st : St) :
  parent_calls (emitted (ImportSegments.process_row sgm segm force existing row counts st))
  = if negb force && bool_decide (ImportSegments.name row ∈ existing) then []
    else match List.filter (fun n => negb (PyDict.contains n sgm))
                           (ImportSegments.server_group_names row),
               PyDict.get (ImportSegments.segment_group_name row) segm with
         | [], Some gid =>
             [ImportSegments.create_payload row gid
                (omap (fun n => PyDict.get n sgm) (ImportSegments.server_group_names row))]
         | _, _ => []
         end.
Proof.
  destruct (process_row_run sgm segm force existing row counts st)
    as [Hskip | ms Hskip Hms Hne | Hskip Hnone Hseg
        | ids gid err st' Hskip Hids Hgid _
        | ids gid pid st' k1 k2 Hskip Hids Hgid _ Hk1 Hk2];
    rewrite Hskip; cbn [emitted].
  - reflexivity.
  - rewrite Hms. destruct ms; [congruence | reflexivity].
  - rewrite Hnone. destruct (PyDict.get _ segm) as [gid|] eqn:Hgid; [|reflexivity].
    rewrite (get_contains _ _ _ Hgid) in Hseg. discriminate.
  - destruct (resolved_ids_unique _ _ _ Hids) as [-> ->]. rewrite Hgid. reflexivity.
  - destruct (resolved_ids_unique _ _ _ Hids) as [-> ->]. rewrite Hgid.
    rewrite !parent_calls_app.
    destruct (configure_ba_run pid row (snd counts) st') as (_ & _ & _ & Hba).
    destruct (configure_pra_run pid row k1
                (tenant (ImportSegments.configure_ba pid row (snd counts) st')))
      as (_ & _ & _ & Hpra).
    destruct (no_parent_call_facts _ Hba) as (-> & _).
    destruct (no_parent_call_facts _ Hpra) as (-> & _).
    reflexivity.
Qed.

(** X10: which parent create requests a run of
    [create_and_configure_segments] sends, and with which payloads, is fixed
    by the rows, the reference maps, the name set and the flag: it is the
    same against any tenant in any state, whatever the tenant answers, and
    it is the concatenation, in row order, of what each row sends on its
    own.  In particular the name set is a snapshot: a row is sent even when
    an earlier row of the same batch has just created a segment of that
    name. *)
Theorem parent_requests_fixed_by_inputs
    {St1 : Type} {C1 : ZPAClient St1} {St2 : Type} {C2 : ZPAClient St2}
    (rows : list ImportSegments.Row) (sgm segm : PyDict.t) (force : bool)
    (existing : gset string) (st1 : St1) (st2 : St2) (counts2 : nat * nat) :
  parent_calls
    (emitted (ImportSegments.create_and_configure_segments
                (H := C1) rows sgm segm force existing st1))
  = flat_map
      (fun row =>
         parent_calls
           (emitted (ImportSegments.process_row
                       (H := C2) sgm segm force existing row counts2 st2)))
      rows.
Proof.
  unfold ImportSegments.create_and_configure_segments.
  apply (for_each_observe
           (ImportSegments.process_row (H := C1) sgm segm force existing) parent_calls);
    [reflexivity | apply parent_calls_app |].
  intros row acc s _. split; [apply process_row_succeeds|].
  rewrite !process_row_parent_calls_plan. reflexivity.
Qed.

(** ** How often segment_maker.py lists the segments *)

Section SegmentMakerListings.
Context {St : Type} `{ZPAClient St}.

Lemma segment_exists_one_listing domain ports (st : St) :
  segment_listings (emitted (SegmentMaker.segment_exists domain ports st)) = 1.
Proof.
  destruct (list_segments st) as [[segments|err] st'] eqn:Hlist.
  - rewrite (segment_exists_listing _ _ _ _ _ Hlist). reflexivity.
  - rewrite (segment_exists_listing_error _ _ _ _ _ Hlist). reflexivity.
Qed.

Lemma create_one_listings force row n (st : St) :
  Payload.domain_names row <> [] ->
  succeeds (SegmentMaker.create_one force row n st)
  /\ segment_listings (emitted (SegmentMaker.create_one force row n st))
     = (if force then 0 else 1)
  /\ (force = true ->
      parent_calls (emitted (SegmentMaker.create_one force row n st)) = [row]).
Proof.
  intros Hdom.
  destruct (create_one_counts force row n st Hdom) as (n' & Hn' & _).
  split; [exists n'; exact Hn'|].
  destruct (Payload.domain_names row) as [|domain rest] eqn:Hd; [contradiction|].
  split.
  - rewrite (create_one_after_check force row n st domain rest _ Hd eq_refl).
    destruct force; cbn [negb].
    + cbn [ret result tenant emitted app].
      destruct (add_segment row st) as [[id|err] st']; reflexivity.
    + pose proof (segment_exists_one_listing domain (Payload.tcp_port_range row) st)
        as Hone.
      destruct (segment_exists_succeeds domain (Payload.tcp_port_range row) st)
        as (b & Hb & _).
      rewrite Hb. destruct b.
      * cbn [emitted]. rewrite segment_listings_app, Hone. reflexivity.
      * destruct (add_segment row _) as [[id|err] st']; cbn [emitted];
          rewrite segment_listings_app, Hone; reflexivity.
  - intros ->.
    rewrite (proj1 (create_one_parent_calls true row n st domain rest Hd)).
    reflexivity.
Qed.

(** X11: in [segment_maker.py] the existence check lists the tenant's
    segments once for every row: without [force], [create_app_segments]
    makes exactly as many listing calls as there are rows; with [force] it
    makes none and sends one create request per row, with the row itself as
    payload, in input order. *)
Theorem segment_maker_lists_once_per_row
    (rows : list Payload.t) (st : St) :
  Forall (fun row => Payload.domain_names row <> []) rows ->
  segment_listings (emitted (SegmentMaker.create_app_segments rows false st))
    = length rows
  /\ segment_listings (emitted (SegmentMaker.create_app_segments rows true st)) = 0
  /\ parent_calls (emitted (SegmentMaker.create_app_segments rows true st)) = rows.
Proof.
  intros Hrows. rewrite Forall_forall in Hrows.
  assert (Hdom : forall row, In row rows -> Payload.domain_names row <> []).
  { intros row Hin. apply Hrows, list_elem_of_In, Hin. }
  unfold SegmentMaker.create_app_segments.
  assert (Hobs : forall force,
            repeat tt (segment_listings
                         (emitted (for_each rows (SegmentMaker.create_one force) 0 st)))
            = flat_map (fun _ => if force then [] else [tt]) rows).
  { intros force.
    apply (for_each_observe (SegmentMaker.create_one force)
             (fun evs => repeat tt (segment_listings evs))
             (fun _ => if force then [] else [tt]) rows).
    - reflexivity.
    - intros e1 e2. rewrite segment_listings_app. apply repeat_app.
    - intros row acc s Hin.
      destruct (create_one_listings force row acc s (Hdom row Hin)) as (Hs & Hl & _).
      split; [exact Hs|]. rewrite Hl. destruct force; reflexivity. }
  split; [|split].
  - pose proof (f_equal (@length unit) (Hobs false)) as Hlen.
    rewrite repeat_length in Hlen. rewrite Hlen. clear.
    induction rows as [|r rows IH]; cbn; [|rewrite IH]; reflexivity.
  - pose proof (f_equal (@length unit) (Hobs true)) as Hlen.
    rewrite repeat_length in Hlen. rewrite Hlen. clear.
    induction rows as [|r rows IH]; cbn; [|rewrite IH]; reflexivity.
  - transitivity (flat_map (fun row : Payload.t => [row]) rows).
    + apply (for_each_observe (SegmentMaker.create_one true) parent_calls
               (fun row => [row]) rows); [reflexivity | apply parent_calls_app |].
      intros row acc s Hin.
      destruct (create_one_listings true row acc s (Hdom row Hin)) as (Hs & _ & Hp).
      split; [exact Hs | apply Hp; reflexivity].
    + clear. induction rows as [|r rows IH]; cbn; [|rewrite IH]; reflexivity.
Qed.
End SegmentMakerListings.

Lemma segment_maker_lists_once_per_row_witness :
  segment_listings
    (emitted (SegmentMaker.create_app_segments
                (H := MockTenant.client) [Fixtures.two_domains; Fixtures.two_domains]
                false Fixtures.tenant_with_b))
  = 2.
Proof.
  apply (segment_maker_lists_once_per_row
           (H := MockTenant.client) [Fixtures.two_domains; Fixtures.two_domains]
           Fixtures.tenant_with_b).
  repeat constructor; discriminate.
Defined.

(** ** The main flow of import_segments.py *)

Section ImportMain.
Context {St : Type} `{ZPAClient St}.
Import ImportSegments.

Lemma print_all (out : list Msg) (st : St) :
  for_each out (fun m (_ : unit) => print m) tt st
  = mkOutcome (inr tt) st (map EvPrint out).
Proof.
  induction out as [|m out IH]; [reflexivity|].
  cbn [for_each map]. unfold bind. cbn [print result tenant emitted].
  rewrite IH. reflexivity.
Qed.

Lemma list_server_groups_outcome (st : St) :
  list_server_groups st =
  mkOutcome
    (inr (match fst (list_server_groups_call st) with
          | inl groups => PyDict.of_groups groups
          | inr _ => []
          end))
    (snd (list_server_groups_call st))
    (emitted (list_server_groups st))
  /\ create_calls (emitted (list_server_groups st)) = []
  /\ parents_created (emitted (list_server_groups st)) = 0
  /\ children_configured (emitted (list_server_groups st)) = 0
  /\ segment_listings (emitted (list_server_groups st)) = 0.
Proof.
  rewrite list_server_groups_run.
  destruct (list_server_groups_call st) as [[groups|err] st']; repeat split; reflexivity.
Qed.

Lemma list_segment_groups_outcome (st : St) :
  list_segment_groups st =
  mkOutcome
    (inr (match fst (list_segment_groups_call st) with
          | inl groups => PyDict.of_groups groups
          | inr _ => []
          end))
    (snd (list_segment_groups_call st))
    (emitted (list_segment_groups st))
  /\ create_calls (emitted (list_segment_groups st)) = []
  /\ parents_created (emitted (list_segment_groups st)) = 0
  /\ children_configured (emitted (list_segment_groups st)) = 0
  /\ segment_listings (emitted (list_segment_groups st)) = 0.
Proof.
  rewrite list_segment_groups_run.
  destruct (list_segment_groups_call st) as [[groups|err] st']; repeat split; reflexivity.
Qed.

Lemma fetch_existing_outcome (st : St) :
  exists names,
    result (fetch_existing_segment_names st) = inr names
    /\ create_calls (emitted (fetch_existing_segment_names st)) = []
    /\ parents_created (emitted (fetch_existing_segment_names st)) = 0
    /\ children_configured (emitted (fetch_existing_segment_names st)) = 0
    /\ segment_listings (emitted (fetch_existing_segment_names st)) = 1
    /\ (forall name,
          name ∈ names <->
          exists segments, fst (list_segments st) = inl segments /\
                           In name (map Segment.name segments)).
Proof.
  unfold fetch_existing_segment_names. rewrite bind_call.
  destruct (list_segments st) as [[segments|err] st'] eqn:Hlist; cbn [fst snd].
  - rewrite bind_print. cbn [ret result emitted]. eexists.
    split; [reflexivity|]. repeat split; try reflexivity.
    + intros Hin. exists segments. split; [reflexivity|].
      apply list_elem_of_In. apply elem_of_list_to_set in Hin. exact Hin.
    + intros (segs & [= <-] & Hin). apply elem_of_list_to_set, list_elem_of_In, Hin.
  - rewrite bind_print. cbn [ret result emitted]. exists ∅.
    split; [reflexivity|]. repeat split; try reflexivity.
    + intros Hin. apply not_elem_of_empty in Hin. destruct Hin.
    + intros (segs & Hsegs & _). discriminate.
Qed.

(** The run of [main], stage by stage. *)
Lemma main_run reader force (st : St) :
  let o1 := list_server_groups st in
  let o2 := list_segment_groups (tenant o1) in
  let server_groups :=
    match fst (list_server_groups_call st) with
    | inl groups => PyDict.of_groups groups
    | inr _ => []
    end in
  let segment_groups :=
    match fst (list_segment_groups_call (tenant o1)) with
    | inl groups => PyDict.of_groups groups
    | inr _ => []
    end in
  main reader force st =
  match server_groups, segment_groups with
  | _ :: _, _ :: _ =>
      let o3 := fetch_existing_segment_names (tenant o2) in
      let fetched :=
        [EvPrint MsgFetchedGroups; EvPrint MsgFetchingExisting] ++ emitted o3 in
      match result o3 with
      | inl e => mkOutcome (inl e) (tenant o3) (emitted o1 ++ emitted o2 ++ fetched)
      | inr names =>
          let warnings := map EvPrint (fst (parse_rows reader)) in
          match snd (parse_rows reader) with
          | inl e =>
              mkOutcome (inl e) (tenant o3)
                (emitted o1 ++ emitted o2 ++ fetched ++ warnings)
          | inr [] =>
              mkOutcome (inl (SystemExit no_valid_rows)) (tenant o3)
                (emitted o1 ++ emitted o2 ++ fetched ++ warnings)
          | inr (row :: rows) =>
              let o4 := create_and_configure_segments (row :: rows) server_groups
                          segment_groups force names (tenant o3) in
              match result o4 with
              | inl e =>
                  mkOutcome (inl e) (tenant o4)
                    (emitted o1 ++ emitted o2 ++ fetched ++ warnings
                     ++ EvPrint (MsgFoundValid (length (row :: rows))) :: emitted o4)
              | inr counts =>
                  mkOutcome (inr tt) (tenant o4)
                    (emitted o1 ++ emitted o2 ++ fetched ++ warnings
                     ++ EvPrint (MsgFoundValid (length (row :: rows))) :: emitted o4
                     ++ [EvPrint (MsgComplete (fst counts) (snd counts))])
              end
          end
      end
  | _, _ =>
      mkOutcome (inl (SystemExit "[ERROR] No server or segment groups found."))
                (tenant o2) (emitted o1 ++ emitted o2)
  end.
Proof.
  cbn zeta. unfold main.
  destruct (list_server_groups_outcome st) as (Ho1 & _).
  destruct (list_segment_groups_outcome (tenant (list_server_groups st))) as (Ho2 & _).
  rewrite (bind_inr list_server_groups _ st _ (f_equal result Ho1)).
  cbn [result tenant emitted].
  rewrite (bind_inr list_segment_groups _ _ _ (f_equal result Ho2)).
  cbn [result tenant emitted].
  set (o1 := list_server_groups st).
  set (o2 := list_segment_groups (tenant o1)).
  destruct (match fst (list_server_groups_call st) with
            | inl groups => PyDict.of_groups groups | inr _ => [] end)
    as [|sg sgs]; [cbn [raise result tenant emitted]; rewrite app_nil_r; reflexivity|].
  destruct (match fst (list_segment_groups_call (tenant o1)) with
            | inl groups => PyDict.of_groups groups | inr _ => [] end)
    as [|seg segs]; [cbn [raise result tenant emitted]; rewrite app_nil_r; reflexivity|].
  rewrite !bind_print. cbn [result tenant emitted].
  destruct (fetch_existing_outcome (tenant o2)) as (names & Ho3 & _).
  rewrite (bind_inr fetch_existing_segment_names _ _ names Ho3), Ho3.
  cbn [result tenant emitted].
  destruct (parse_rows reader) as [out rows]. cbn [fst snd].
  rewrite (bind_inr (for_each out (fun m (_ : unit) => print m) tt) _ _ tt)
    by (rewrite print_all; reflexivity).
  rewrite print_all. cbn [result tenant emitted app].
  destruct rows as [e|[|row rows]].
  - cbn [raise result tenant emitted]. rewrite !app_nil_r. reflexivity.
  - cbn [raise result tenant emitted]. rewrite !app_nil_r. reflexivity.
  - rewrite bind_print. cbn [result tenant emitted].
    destruct (batch_counts (row :: rows) (sg :: sgs) (seg :: segs) force names
                (tenant (fetch_existing_segment_names (tenant o2))))
      as (created & configured & Ho4 & _).
    rewrite (bind_inr _ _ _ _ Ho4), Ho4. cbn [print result tenant emitted fst snd].
    reflexivity.
Qed.

Lemma print_events_neutral (out : list Msg) :
  parents_created (map EvPrint out) = 0
  /\ children_configured (map EvPrint out) = 0
  /\ segment_listings (map EvPrint out) = 0.
Proof.
  induction out as [|m out (IH1 & IH2 & IH3)]; [repeat split; reflexivity|].
  split; [exact IH1|]. split; [exact IH2 | exact IH3].
Qed.

Lemma main_prefix_facts (st : St) :
  let o1 := list_server_groups st in
  let o2 := list_segment_groups (tenant o1) in
  tenant o1 = snd (list_server_groups_call st)
  /\ create_calls (emitted o1 ++ emitted o2) = []
  /\ parents_created (emitted o1 ++ emitted o2) = 0
  /\ children_configured (emitted o1 ++ emitted o2) = 0
  /\ segment_listings (emitted o1 ++ emitted o2) = 0.
Proof.
  cbn zeta.
  destruct (list_server_groups_outcome st) as (Ho1 & Hc1 & Hp1 & Hk1 & Hl1).
  destruct (list_segment_groups_outcome (tenant (list_server_groups st)))
    as (_ & Hc2 & Hp2 & Hk2 & Hl2).
  split; [rewrite Ho1; reflexivity|].
  rewrite create_calls_app, parents_created_app, children_configured_app,
    segment_listings_app, Hc1, Hc2, Hp1, Hp2, Hk1, Hk2, Hl1, Hl2.
  repeat split; reflexivity.
Qed.

(** What [main] has done when the reference maps are there and the
    segments have been listed: nothing was created, and three lines were
    printed. *)
Lemma main_fetched_facts (st : St) g1 gs1 g2 gs2 :
  fst (list_server_groups_call st) = inl (g1 :: gs1) ->
  fst (list_segment_groups_call (snd (list_server_groups_call st))) = inl (g2 :: gs2) ->
  let o1 := list_server_groups st in
  let o2 := list_segment_groups (tenant o1) in
  let o3 := fetch_existing_segment_names (tenant o2) in
  let evs := emitted o1 ++ emitted o2
             ++ [EvPrint MsgFetchedGroups; EvPrint MsgFetchingExisting] ++ emitted o3 in
  create_calls evs = []
  /\ parents_created evs = 0
  /\ children_configured evs = 0
  /\ segment_listings evs = 1
  /\ exists found, printed evs = [MsgFetchedGroups; MsgFetchingExisting; found].
Proof.
  intros Hg1 Hg2. cbn zeta.
  destruct (main_prefix_facts st) as (Ht1 & Hc & Hp & Hk & Hl). cbn zeta in Hc, Hp, Hk, Hl.
  set (o1 := list_server_groups st) in *.
  set (o2 := list_segment_groups (tenant o1)) in *.
  destruct (fetch_existing_outcome (tenant o2)) as (names & _ & Hc3 & Hp3 & Hk3 & Hl3 & _).
  rewrite (app_assoc (emitted o1)).
  set (listed := emitted o1 ++ emitted o2) in *.
  rewrite !create_calls_app, !parents_created_app, !children_configured_app,
    !segment_listings_app, Hc, Hp, Hk, Hl, Hc3, Hp3, Hk3, Hl3.
  repeat (split; [reflexivity|]).
  subst listed. rewrite !printed_app.
  assert (Hprinted1 : printed (emitted o1) = []).
  { subst o1. rewrite list_server_groups_run.
    destruct (list_server_groups_call st) as [[groups|err] s1]; [reflexivity|].
    discriminate Hg1. }
  assert (Hprinted2 : printed (emitted o2) = []).
  { subst o2. rewrite Ht1, list_segment_groups_run.
    destruct (list_segment_groups_call (snd (list_server_groups_call st)))
      as [[groups|err] s2]; [reflexivity|].
    discriminate Hg2. }
  rewrite Hprinted1, Hprinted2. unfold fetch_existing_segment_names.
  rewrite bind_call.
  destruct (list_segments (tenant o2)) as [[segments|err] s3]; cbn [fst snd];
    rewrite bind_print; eexists; reflexivity.
Qed.

Lemma groups_dict_nil (r : list Group.t + Err) :
  match r with inl (_ :: _) => False | _ => True end ->
  match r with inl groups => PyDict.of_groups groups | inr _ => [] end = [].
Proof. destruct r as [[|g groups]|err]; [reflexivity | contradiction | reflexivity]. Qed.

Lemma groups_dict_cons (r : list Group.t + Err) g groups :
  r = inl (g :: groups) ->
  exists kv d,
    match r with inl groups => PyDict.of_groups groups | inr _ => [] end = kv :: d.
Proof.
  intros ->. destruct (PyDict.of_groups (g :: groups)) as [|kv d] eqn:Hd; [|eauto].
  apply of_groups_nil_iff in Hd. discriminate.
Qed.

(** X12: the reference maps are a precondition of the whole run.  When the
    server-group listing or the segment-group listing fails or returns no
    group, [main] exits with "No server or segment groups found": both
    listings have been made, but the segments are not listed and no create
    call is made. *)
Theorem main_requires_reference_maps
    (reader : list RawRecord) (force : bool) (st : St) :
  match fst (list_server_groups_call st) with inl (_ :: _) => False | _ => True end
  \/ match fst (list_segment_groups_call (snd (list_server_groups_call st))) with
     | inl (_ :: _) => False
     | _ => True
     end ->
  result (main reader force st)
    = inl (SystemExit "[ERROR] No server or segment groups found.")
  /\ create_calls (emitted (main reader force st)) = []
  /\ segment_listings (emitted (main reader force st)) = 0
  /\ (exists r1 r2, List.filter is_listing_call (emitted (main reader force st))
                    = [EvListServerGroups r1; EvListSegmentGroups r2]).
Proof.
  intros Hnone. pose proof (main_run reader force st) as Hrun. cbn zeta in Hrun.
  destruct (main_prefix_facts st) as (Ht1 & Hc & _ & _ & Hl). cbn zeta in Hc, Hl.
  assert (Hexit : main reader force st =
            mkOutcome (inl (SystemExit "[ERROR] No server or segment groups found."))
              (tenant (list_segment_groups (tenant (list_server_groups st))))
              (emitted (list_server_groups st)
               ++ emitted (list_segment_groups (tenant (list_server_groups st))))).
  { rewrite Hrun. rewrite Ht1. destruct Hnone as [Hnone|Hnone].
    - rewrite (groups_dict_nil _ Hnone). reflexivity.
    - rewrite (groups_dict_nil _ Hnone).
      destruct (match fst (list_server_groups_call st) with
                | inl groups => PyDict.of_groups groups | inr _ => [] end);
        reflexivity. }
  rewrite Hexit. cbn [result emitted]. split; [reflexivity|].
  split; [exact Hc|]. split; [exact Hl|].
  rewrite list_server_groups_run, list_segment_groups_run.
  destruct (list_server_groups_call st) as [[g1|e1] s1]; cbn [tenant emitted];
    destruct (list_segment_groups_call s1) as [[g2|e2] s2]; cbn; eauto.
Qed.

(** The groups listed, as the maps [main] builds from them. *)
Lemma main_run_with_groups reader force (st : St) g1 gs1 g2 gs2 :
  fst (list_server_groups_call st) = inl (g1 :: gs1) ->
  fst (list_segment_groups_call (snd (list_server_groups_call st))) = inl (g2 :: gs2) ->
  let o1 := list_server_groups st in
  let o2 := list_segment_groups (tenant o1) in
  let o3 := fetch_existing_segment_names (tenant o2) in
  let fetched := emitted o1 ++ emitted o2
                 ++ [EvPrint MsgFetchedGroups; EvPrint MsgFetchingExisting]
                 ++ emitted o3 in
  let warnings := map EvPrint (fst (parse_rows reader)) in
  exists server_groups segment_groups names,
    main reader force st =
    match snd (parse_rows reader) with
    | inl e => mkOutcome (inl e) (tenant o3) (fetched ++ warnings)
    | inr [] => mkOutcome (inl (SystemExit no_valid_rows)) (tenant o3)
                          (fetched ++ warnings)
    | inr (row :: rows) =>
        let o4 := create_and_configure_segments (row :: rows) server_groups
                    segment_groups force names (tenant o3) in
        mkOutcome (inr tt) (tenant o4)
          (fetched ++ warnings
           ++ EvPrint (MsgFoundValid (length (row :: rows))) :: emitted o4
           ++ [EvPrint (MsgComplete (parents_created (emitted o4))
                                    (children_configured (emitted o4)))])
    end
    /\ forall rows,
         segment_listings
           (emitted (create_and_configure_segments rows server_groups segment_groups
                       force names (tenant o3))) = 0.
Proof.
  intros Hg1 Hg2. cbn zeta.
  pose proof (main_run reader force st) as Hrun. cbn zeta in Hrun.
  destruct (main_prefix_facts st) as (Ht1 & _).
  rewrite Ht1 in Hrun.
  destruct (groups_dict_cons _ _ _ Hg1) as (kv1 & d1 & Hd1).
  destruct (groups_dict_cons _ _ _ Hg2) as (kv2 & d2 & Hd2).
  rewrite Hd1, Hd2 in Hrun. rewrite <- Ht1 in Hrun.
  set (o1 := list_server_groups st) in *.
  set (o2 := list_segment_groups (tenant o1)) in *.
  destruct (fetch_existing_outcome (tenant o2)) as (names & Ho3 & _).
  rewrite Ho3 in Hrun.
  set (o3 := fetch_existing_segment_names (tenant o2)) in *.
  exists (kv1 :: d1), (kv2 :: d2), names. split.
  - rewrite Hrun.
    destruct (snd (parse_rows reader)) as [e|[|row rows]].
    + rewrite <- !app_assoc. reflexivity.
    + rewrite <- !app_assoc. reflexivity.
    + destruct (batch_counts (row :: rows) (kv1 :: d1) (kv2 :: d2) force names
                  (tenant o3)) as (created & configured & Ho4 & Hcreated).
      destruct (batch_configured (row :: rows) (kv1 :: d1) (kv2 :: d2) force names
                  (tenant o3)) as (created' & configured' & Ho4' & Hconfigured & _).
      assert (Hsame : configured' = configured) by congruence.
      rewrite Hsame in Hconfigured. rewrite Ho4. cbn [fst snd].
      rewrite Hcreated, Hconfigured, <- !app_assoc. reflexivity.
  - intros rows.
    destruct (batch_configured rows (kv1 :: d1) (kv2 :: d2) force names (tenant o3))
      as (created & configured & _ & _ & Hnolist).
    apply no_listing_facts, Hnolist.
Qed.

(** X13: when both listings return at least one group and the parser
    returns at least one row for the records of the file (none of them
    makes it raise, and at least one passes the mandatory-field check),
    [main] runs to its end without exiting: its last output is the
    summary, whose two numbers are the number of parent create calls that
    succeeded and the number of child create calls that succeeded in the
    whole run; the tenant's segments are listed exactly once. *)
Theorem main_completes_with_summary
    (reader : list RawRecord) (force : bool) (st : St)
    (g1 g2 : Group.t) (gs1 gs2 : list Group.t) (row : Row) (rows : list Row) :
  fst (list_server_groups_call st) = inl (g1 :: gs1) ->
  fst (list_segment_groups_call (snd (list_server_groups_call st))) = inl (g2 :: gs2) ->
  snd (parse_rows reader) = inr (row :: rows) ->
  let o := main reader force st in
  result o = inr tt
  /\ (exists created configured,
        last (emitted o) = Some (EvPrint (MsgComplete created configured))
        /\ created = parents_created (emitted o)
        /\ configured = children_configured (emitted o))
  /\ segment_listings (emitted o) = 1.
Proof.
  intros Hg1 Hg2 Hrows. cbn zeta.
  destruct (main_run_with_groups reader force st g1 gs1 g2 gs2 Hg1 Hg2)
    as (sgm & segm & names & Hrun & Hnolist).
  destruct (main_fetched_facts st g1 gs1 g2 gs2 Hg1 Hg2) as (_ & Hp & Hk & Hl & _).
  cbn zeta in Hrun, Hnolist, Hp, Hk, Hl. rewrite Hrows in Hrun. rewrite Hrun.
  cbn [result emitted].
  destruct (print_events_neutral (fst (parse_rows reader))) as (Hpw & Hkw & Hlw).
  match type of Hp with parents_created ?l = _ => set (fetched := l) in * end.
  change (EvPrint ?m :: ?l ++ ?l') with ([EvPrint m] ++ l ++ l').
  split; [reflexivity|]. split.
  - eexists _, _. split; [|split].
    + rewrite !app_assoc. apply last_snoc.
    + rewrite !parents_created_app, Hp, Hpw. cbn. lia.
    + rewrite !children_configured_app, Hk, Hkw. cbn. lia.
  - rewrite !segment_listings_app, Hl, Hlw, Hnolist. reflexivity.
Qed.

Lemma prints_observed (out : list Msg) :
  create_calls (map EvPrint out) = [] /\ printed (map EvPrint out) = out.
Proof.
  induction out as [|m out [IH1 IH2]]; [split; reflexivity|].
  split; [exact IH1|]. cbn. f_equal. exact IH2.
Qed.



(** The first record that raises ends the comprehension of [main]. *)
Lemma import_parse_rows_raises pre raw post :
  Forall (fun raw =>
            has_required raw
            && (cell_is_none raw "DESCRIPTION" || cell_is_none raw "SEGMENT_GROUP_ID")
            = false) pre ->
  has_required raw = true ->
  cell_is_none raw "DESCRIPTION" || cell_is_none raw "SEGMENT_GROUP_ID" = true ->
  parse_rows (pre ++ raw :: post) =
  (map MsgMissingRequired (List.filter (fun raw => negb (has_required raw)) pre),
   inl AttributeError).
Proof.
  intros Hpre Hreq Hnone.
  assert (Hnoraise : Forall (fun raw => raises (snd (parse_csv_row raw)) = false) pre).
  { eapply Forall_impl; [exact Hpre|]. intros r Hr.
    rewrite import_raises_iff. exact Hr. }
  destruct (import_parse_cases raw)
    as [[Hreq' _]|[(_ & _ & Hparse)|(_ & Hdesc & Hseg & _)]]; [congruence| |].
  2:{ rewrite Hdesc, Hseg in Hnone. discriminate. }
  unfold parse_rows.
  rewrite (collect_rows_raises _ pre raw post AttributeError Hnoraise)
    by (rewrite Hparse; reflexivity).
  rewrite import_parse_warnings, Hparse. cbn [fst]. rewrite app_nil_r. reflexivity.
Qed.

(** X19: a line of the file that ends early ends the whole run.  When the
    reference maps are there and some record passes the mandatory-field
    check but has [None] in its DESCRIPTION or SEGMENT_GROUP_ID cell (the
    line ended before that column), [main] ends with [AttributeError]:
    the segments have been listed once, the warnings of the records before
    that one have been printed, and no create call is made, also not for
    the valid records before or after it. *)
Theorem short_line_ends_import_run
    (pre post : list RawRecord) (raw : RawRecord) (force : bool) (st : St)
    (g1 g2 : Group.t) (gs1 gs2 : list Group.t) :
  fst (list_server_groups_call st) = inl (g1 :: gs1) ->
  fst (list_segment_groups_call (snd (list_server_groups_call st))) = inl (g2 :: gs2) ->
  Forall (fun raw =>
            has_required raw
            && (cell_is_none raw "DESCRIPTION" || cell_is_none raw "SEGMENT_GROUP_ID")
            = false) pre ->
  has_required raw = true ->
  cell_is_none raw "DESCRIPTION" || cell_is_none raw "SEGMENT_GROUP_ID" = true ->
  let o := main (pre ++ raw :: post) force st in
  result o = inl AttributeError
  /\ create_calls (emitted o) = []
  /\ segment_listings (emitted o) = 1
  /\ (exists found,
        printed (emitted o) =
        [MsgFetchedGroups; MsgFetchingExisting; found]
        ++ map MsgMissingRequired
             (List.filter (fun raw => negb (has_required raw)) pre)).
Proof.
  intros Hg1 Hg2 Hpre Hreq Hnone. cbn zeta.
  destruct (main_run_with_groups (pre ++ raw :: post) force st g1 gs1 g2 gs2 Hg1 Hg2)
    as (sgm & segm & names & Hrun & _).
  destruct (main_fetched_facts st g1 gs1 g2 gs2 Hg1 Hg2)
    as (Hc & _ & _ & Hl & found & Hprinted).
  cbn zeta in Hrun, Hc, Hl, Hprinted.
  rewrite (import_parse_rows_raises pre raw post Hpre Hreq Hnone) in Hrun.
  cbn [fst snd] in Hrun. rewrite Hrun. cbn [result emitted].
  destruct (prints_observed
              (map MsgMissingRequired
                   (List.filter (fun raw => negb (has_required raw)) pre)))
    as [Hcw Hpw].
  destruct (print_events_neutral
              (map MsgMissingRequired
                   (List.filter (fun raw => negb (has_required raw)) pre)))
    as (_ & _ & Hlw).
  split; [reflexivity|]. split; [|split].
  - rewrite create_calls_app, Hc, Hcw. reflexivity.
  - rewrite segment_listings_app, Hl, Hlw. reflexivity.
  - exists found. rewrite printed_app, Hprinted, Hpw. reflexivity.
Qed.
End ImportMain.

Lemma main_requires_reference_maps_witness :
  result (ImportSegments.main (H := FailingGroups.client) [Fixtures.web1_raw] false tt)
  = inl (SystemExit "[ERROR] No server or segment groups found.").
Proof.
  apply (main_requires_reference_maps
           (H := FailingGroups.client) [Fixtures.web1_raw] false tt).
  right. exact I.
Defined.

Lemma main_completes_with_summary_witness :
  result (ImportSegments.main (H := MockTenant.client)
            [Fixtures.blank_name_raw; Fixtures.web1_raw] false [])
  = inr tt.
Proof.
  apply (main_completes_with_summary
           (H := MockTenant.client) [Fixtures.blank_name_raw; Fixtures.web1_raw] false []
           (Group.mk "sg1" "101") (Group.mk "grp1" "201") [] []
           (ImportSegments.mkRow "" "" true "grp1" ["sg1"] ["a.example.com"] [] []
                                 false false false false)
           [ImportSegments.mkRow "web1" "" true "grp1" ["sg1"] ["a.example.com"]
                                 ["443"] [] false true false false]).
  - reflexivity.
  - reflexivity.
  - vm_compute. reflexivity.
Defined.


Lemma short_line_ends_import_run_witness :
  result (ImportSegments.main (H := MockTenant.client)
            ([Fixtures.web1_raw] ++ Fixtures.short_line_raw :: [Fixtures.web1_raw])
            false [])
  = inl AttributeError
  /\ create_calls
       (emitted (ImportSegments.main (H := MockTenant.client)
                   ([Fixtures.web1_raw] ++ Fixtures.short_line_raw
                      :: [Fixtures.web1_raw])
                   false []))
     = [].
Proof.
  destruct (short_line_ends_import_run
              (H := MockTenant.client) [Fixtures.web1_raw] [Fixtures.web1_raw]
              Fixtures.short_line_raw false []
              (Group.mk "sg1" "101") (Group.mk "grp1" "201") [] [])
    as (Hraised & Hcalls & _).
  - reflexivity.
  - reflexivity.
  - repeat constructor.
  - vm_compute. reflexivity.
  - vm_compute. reflexivity.
  - split; [exact Hraised | exact Hcalls].
Defined.

(** ** The name-keyed existence check *)

Section NameKeyedCheck.
Context {St : Type} `{ZPAClient St}.
Import ImportSegments.

(** X16: with the listing available, the pre-fetched set holds exactly the
    names of the listed segments, and with [force] off a row is skipped as
    existing exactly when some listed segment has the row's (trimmed) name,
    character for character; the skip makes no client call. *)
Theorem skipped_iff_name_listed
    (segments : list Segment.t) (st st' s : St) (sgm segm : PyDict.t) (row : Row)
    (counts : nat * nat) :
  list_segments st = (inl segments, st') ->
  exists names,
    result (fetch_existing_segment_names st) = inr names
    /\ (forall name, name ∈ names <-> In name (map Segment.name segments))
    /\ (emitted (process_row sgm segm false names row counts s)
          = [EvPrint (MsgSkipExisting (name row))]
        <-> In (name row) (map Segment.name segments)).
Proof.
  intros Hlist.
  destruct (fetch_existing_outcome st) as (names & Hnames & _ & _ & _ & _ & Hin).
  assert (Hmem : forall n, n ∈ names <-> In n (map Segment.name segments)).
  { intros n. rewrite Hin, Hlist. cbn [fst]. split.
    - intros (segs & [= <-] & Hn). exact Hn.
    - intros Hn. eauto. }
  exists names. split; [exact Hnames|]. split; [exact Hmem|].
  rewrite <- Hmem. split.
  - intros Hem.
    destruct (process_row_run sgm segm false names row counts s)
      as [Hskip | ? ? ? ? | ? ? ? | ? ? ? ? ? ? ? ? | ? ? ? ? ? ? ? ? ? ? ? ?];
      cbn [emitted] in Hem; try discriminate Hem.
    cbn [negb andb] in Hskip. apply bool_decide_eq_true in Hskip. exact Hskip.
  - intros Hn. rewrite (process_row_skip_existing _ _ _ _ _ _ Hn). reflexivity.
Qed.

Lemma child_calls_of_filter evs :
  ba_calls (List.filter is_child_call evs) = ba_calls evs
  /\ pra_calls (List.filter is_child_call evs) = pra_calls evs.
Proof.
  induction evs as [|ev evs [IH1 IH2]]; [split; reflexivity|].
  unfold ba_calls, pra_calls in *.
  destruct ev; cbn [List.filter is_child_call flat_map app];
    rewrite ?IH1, ?IH2; split; reflexivity.
Qed.

(** X17: within a row, every browser-access child is requested before any
    privileged-remote-access child: the child create calls of an iteration
    are a block of browser-access calls followed by a block of
    privileged-remote-access calls. *)
Theorem browser_access_before_remote_access
    (sgm segm : PyDict.t) (force : bool) (existing : gset string) (row : Row)
    (counts : nat * nat) (st : St) :
  let evs := emitted (process_row sgm segm force existing row counts st) in
  exists bas pras,
    List.filter is_child_call evs = bas ++ pras
    /\ ba_calls bas = ba_calls evs /\ pra_calls bas = []
    /\ pra_calls pras = pra_calls evs /\ ba_calls pras = [].
Proof.
  cbn zeta.
  destruct (process_row_run sgm segm force existing row counts st)
    as [ | | | | ids gid pid st' k1 k2 _ _ _ _ Hk1 Hk2];
    try (exists [], []; repeat split; reflexivity).
  cbn [emitted].
  destruct (configure_ba_run pid row (snd counts) st') as (_ & _ & Hba_pra & _).
  destruct (configure_pra_run pid row k1
              (tenant (configure_ba pid row (snd counts) st')))
    as (_ & Hpra_ba & _ & _).
  exists (List.filter is_child_call (emitted (configure_ba pid row (snd counts) st'))),
         (List.filter is_child_call
            (emitted (configure_pra pid row k1
                        (tenant (configure_ba pid row (snd counts) st'))))).
  rewrite !List.filter_app, !ba_calls_app, !pra_calls_app.
  rewrite !(proj1 (child_calls_of_filter _)), !(proj2 (child_calls_of_filter _)).
  rewrite Hba_pra, Hpra_ba. cbn. rewrite !app_nil_r. repeat split; reflexivity.
Qed.
End NameKeyedCheck.

Lemma skipped_iff_name_listed_witness :
  exists names,
    result (ImportSegments.fetch_existing_segment_names
              (H := MockTenant.client) Fixtures.tenant_with_b) = inr names
    /\ (forall name, name ∈ names <-> In name ["seg-B"]).
Proof.
  destruct (skipped_iff_name_listed
              (H := MockTenant.client) Fixtures.tenant_with_b Fixtures.tenant_with_b
              Fixtures.tenant_with_b Fixtures.tenant_with_b Fixtures.server_groups
              Fixtures.segment_groups Fixtures.seg_b (0, 0) eq_refl)
    as (names & Hnames & Hmem & _).
  exists names. split; [exact Hnames | exact Hmem].
Defined.

(** ** The application count of segment_maker.py *)

Lemma application_count_from rows : forall acc,
  fold_left
    (fun application_count row =>
       let num_domains := length (Payload.domain_names row) in
       let num_ports :=
         length (Payload.tcp_port_range row) + length (Payload.udp_port_range row) in
       if Nat.ltb 0 num_domains && Nat.ltb 0 num_ports
       then application_count + num_domains * num_ports
       else application_count)
    rows acc
  = acc + list_sum (map (fun row =>
                           length (Payload.domain_names row)
                           * (length (Payload.tcp_port_range row)
                              + length (Payload.udp_port_range row)))
                        rows).
Proof.
  induction rows as [|row rows IH]; intros acc; [cbn; lia|].
  cbn [fold_left map]. change (list_sum (?x :: ?l)) with (x + list_sum l).
  rewrite IH. cbn zeta.
  remember (length (Payload.domain_names row)) as d eqn:Hd.
  remember (length (Payload.tcp_port_range row)
            + length (Payload.udp_port_range row)) as p eqn:Hp.
  clear Hd Hp IH. destruct d as [|d]; destruct p as [|p];
    cbn [Nat.ltb Nat.leb andb]; rewrite ?Nat.mul_0_r; lia.
Qed.

(** X15: the number of applications [segment_maker.main] announces is the
    sum, over the validated rows, of the number of domains times the number
    of TCP and UDP port ranges together; the guard in the loop changes
    nothing, and a row without any port counts for nothing. *)
Theorem application_count_is_sum (rows : list Payload.t) :
  application_count rows
  = list_sum (map (fun row =>
                     length (Payload.domain_names row)
                     * (length (Payload.tcp_port_range row)
                        + length (Payload.udp_port_range row)))
                  rows)
  /\ (Forall (fun row => Payload.tcp_port_range row = []
                         /\ Payload.udp_port_range row = []) rows ->
      application_count rows = 0).
Proof.
  unfold application_count. rewrite application_count_from. split; [reflexivity|].
  intros Hnone. induction Hnone as [|row rows [Ht Hu] _ IH]; [reflexivity|].
  cbn [map]. change (list_sum (?x :: ?l)) with (x + list_sum l).
  rewrite Ht, Hu. cbn [length Nat.add]. cbn [Nat.add] in IH. lia.
Qed.

Lemma application_count_is_sum_witness :
  application_count [Fixtures.two_domains; Fixtures.two_domains] = 4.
Proof.
  rewrite (proj1 (application_count_is_sum [Fixtures.two_domains; Fixtures.two_domains])).
  reflexivity.
Defined.

Lemma segment_maker_accepts_iff_witness :
  (exists p,
     SegmentMaker.parse_csv_row Fixtures.web1_raw Fixtures.server_groups
                                Fixtures.segment_groups = ([], inr (Some p))
     /\ Payload.name p = "web1")
  /\ SegmentMaker.parse_csv_row Fixtures.short_line_raw Fixtures.server_groups
                                Fixtures.segment_groups = ([], inl AttributeError).
Proof.
  split.
  - destruct (proj1 (proj1 (segment_maker_accepts_iff
                              Fixtures.web1_raw Fixtures.server_groups
                              Fixtures.segment_groups)))
      as (p & Hp & Hname & _).
    + vm_compute. repeat split; try discriminate. repeat constructor.
    + exists p. split; [exact Hp|]. rewrite Hname. vm_compute. reflexivity.
  - apply (proj1 (proj2 (segment_maker_accepts_iff
                           Fixtures.short_line_raw Fixtures.server_groups
                           Fixtures.segment_groups))).
    vm_compute. reflexivity.
Defined.

(** ** Rows that send nothing *)

(** X18: an iteration of [create_and_configure_segments] that sends no
    parent create request (the row is skipped as existing, or one of its
    references does not resolve) does nothing but print one message: the
    tenant is not touched, no child is requested and both counters stay as
    they were. *)
Theorem row_without_request_only_prints
    {St : Type} `{ZPAClient St}
    (sgm segm : PyDict.t) (force : bool) (existing : gset string)
    (row : ImportSegments.Row) (counts : nat * nat) (st : St) :
  let o := ImportSegments.process_row sgm segm force existing row counts st in
  parent_calls (emitted o) = [] ->
  (exists m, emitted o = [EvPrint m])
  /\ tenant o = st
  /\ result o = inr counts.
Proof.
  cbn zeta.
  destruct (process_row_run sgm segm force existing row counts st)
    as [ | | | ids gid err st' _ _ _ _ | ids gid pid st' k1 k2 _ _ _ _ Hk1 Hk2];
    cbn [emitted tenant result]; intros Hnone;
    try (split; [eexists; reflexivity | split; reflexivity]).
  - discriminate Hnone.
  - discriminate Hnone.
Qed.

Lemma row_without_request_only_prints_witness :
  tenant (ImportSegments.process_row
            (H := MockTenant.client) Fixtures.server_groups Fixtures.segment_groups
            false ∅ Fixtures.seg_a_unresolved (0, 0) Fixtures.tenant_with_b)
  = Fixtures.tenant_with_b.
Proof.
  apply (row_without_request_only_prints
           (H := MockTenant.client) Fixtures.server_groups Fixtures.segment_groups
           false ∅ Fixtures.seg_a_unresolved (0, 0) Fixtures.tenant_with_b).
  vm_compute. reflexivity.
Defined.
